(** * Upsell engine: offer selection (UpsellEngineManager)

    A shallow embedding of the real-time evaluation code of
    [integration-bridge/production/upsell-engine-manager.js]:
    the condition evaluators, the rule and campaign matchers, the override
    resolver, the offer selector and the [evaluateUpsells] entry point.

    Conventions.
    - The numbers that enter the cart total (the price and quantity of a
      cart item and the cart-value bounds of a rule) are IEEE-754 binary64
      values, Rocq's primitive [float], whose addition, multiplication and
      comparisons are those of JavaScript numbers.  Priorities (an INTEGER
      column) and times in seconds, which are only compared, are integers
      [Z].  An optional field of an object is an [option], [None] standing
      for [undefined].
    - Strings are 8-bit [string]s, [toLowerCase] acts on the ASCII letters.
    - Opaque JSON payloads that the engine only passes through
      ([display_settings], [pricing_rules], [target_audience]) are kept as
      their serialised text. *)

From Stdlib Require Import ZArith String Ascii List Bool Lia Sorted Permutation Floats.
From stdpp Require Import base option list.
Import ListNotations.

Local Open Scope string_scope.
Local Open Scope Z_scope.

(* Decimal literals such as 9.99 denote the nearest double, as in JavaScript. *)
Set Warnings "-inexact-float".

(** ** JavaScript operators on optional values *)

(** Truthiness of a number-valued field: [undefined] and [0] are falsy. *)
Definition truthy_num (x : option Z) : bool :=
  match x with
  | Some v => negb (v =? 0)
  | None => false
  end.

(** Truthiness of a string-valued field: [undefined] and the empty string are falsy. *)
Definition truthy_str (x : option string) : bool :=
  match x with
  | Some s => negb (String.eqb s EmptyString)
  | None => false
  end.

(** [a || b] on two number-valued fields. *)
Definition or_num (a b : option Z) : option Z :=
  if truthy_num a then a else b.

(** [a || 0]. *)
Definition num_or_zero (a : option Z) : Z :=
  match or_num a (Some 0) with
  | Some v => v
  | None => 0
  end.

(** [a || d] for a string-valued field and a literal default. *)
Definition str_or (a : option string) (d : string) : string :=
  match a with
  | Some s => if truthy_str a then s else d
  | None => d
  end.

(** Relational operators whose right operand may be [undefined]: the
    operand converts to NaN and every comparison with NaN is false. *)
Definition js_gt (x : Z) (y : option Z) : bool :=
  match y with Some v => v <? x | None => false end.

Definition js_lt (x : Z) (y : option Z) : bool :=
  match y with Some v => x <? v | None => false end.

(** *** Doubles

    The same operators on IEEE-754 doubles. *)

(** Truthiness of a double-valued field: [undefined], [0], [-0] and NaN are
    falsy. *)
Definition truthy_double (x : option float) : bool :=
  match x with
  | Some v => negb (is_zero v || is_nan v)
  | None => false
  end.

(** [a || b] on two double-valued fields. *)
Definition or_double (a b : option float) : option float :=
  if truthy_double a then a else b.

(** [x > y], [x < y], [x >= y], [x <= y] and [x === y] for a double [x] and
    an operand [y] that may be [undefined]. *)
Definition double_gt (x : float) (y : option float) : bool :=
  match y with Some v => (v <? x)%float | None => false end.

Definition double_lt (x : float) (y : option float) : bool :=
  match y with Some v => (x <? v)%float | None => false end.

Definition double_ge (x : float) (y : option float) : bool :=
  match y with Some v => (v <=? x)%float | None => false end.

Definition double_le (x : float) (y : option float) : bool :=
  match y with Some v => (x <=? v)%float | None => false end.

Definition double_seq (x : float) (y : option float) : bool :=
  match y with Some v => (x =? v)%float | None => false end.

(** ** Strings *)

Definition lower_ascii (c : ascii) : ascii :=
  let n := nat_of_ascii c in
  if (Nat.leb 65 n && Nat.leb n 90)%bool then ascii_of_nat (n + 32) else c.

Fixpoint toLowerCase (s : string) : string :=
  match s with
  | EmptyString => EmptyString
  | String c s' => String (lower_ascii c) (toLowerCase s')
  end.

(** [s.includes(kw)] *)
Fixpoint includes (s kw : string) : bool :=
  String.prefix kw s ||
  match s with
  | EmptyString => false
  | String _ s' => includes s' kw
  end.

(** ** Data model *)

Definition Json := string.

Record CartItem := {
  product_id : string;
  title : string;
  price : float;
  quantity : float
}.

(** [trigger_conditions]: one object whose fields are all optional. *)
Record TriggerConditions := {
  category : option string;
  category_operator : option string;
  cart_value_operator : option string;
  cart_value : option float;
  cart_value_min : option float;
  cart_value_max : option float;
  time_on_site_min : option Z;
  time_on_site_max : option Z;
  active_time_on_site_min : option Z
}.

Definition no_conditions : TriggerConditions :=
  {| category := None; category_operator := None;
     cart_value_operator := None; cart_value := None;
     cart_value_min := None; cart_value_max := None;
     time_on_site_min := None; time_on_site_max := None;
     active_time_on_site_min := None |}.

Record TimeContext := {
  timeOnSite : option Z;
  activeTimeOnSite : option Z
}.

Module Rule.
Record t := {
  id : string;
  name : string;
  description : option string;
  trigger_type : string;
  trigger_conditions : TriggerConditions;
  target_products : list string;
  display_type : option string;
  display_settings : option Json;
  priority : Z
}.

(** [{...r, priority: p}] *)
Definition with_priority (r : t) (p : Z) : t :=
  {| id := id r; name := name r; description := description r;
     trigger_type := trigger_type r;
     trigger_conditions := trigger_conditions r;
     target_products := target_products r;
     display_type := display_type r;
     display_settings := display_settings r;
     priority := p |}.
End Rule.

Module Override.
Record t := {
  rule_id : string;
  override_type : string;
  (** [enhanced_settings?.priority_boost] *)
  priority_boost : option Z
}.
End Override.

Module Campaign.
Record t := {
  id : string;
  name : string;
  description : option string;
  status : string;
  (** timestamps, in milliseconds since the epoch *)
  start_date : Z;
  end_date : option Z;
  target_audience : option Json;
  trigger_products : list string;
  upsell_products : list string;
  pricing_rules : option Json;
  rule_overrides : option (list Override.t);
  display_settings : option Json;
  override_existing_rules : bool;
  campaign_priority : option Z
}.
End Campaign.

Module Offer.
Record t := {
  type : string;
  id : string;
  title : string;
  description : option string;
  target_products : list string;
  display_type : string;
  display_settings : Json;
  pricing_rules : Json
}.
End Offer.

(** ** Condition evaluators *)

(** The keyword table of [extractCategory], in the insertion order that
    [Object.entries] follows. *)
Definition categories : list (string * list string) :=
  [ ("coffee", ["coffee"; "mug"; "beans"; "grinder"]);
    ("electronics", ["headphones"; "speaker"; "wireless"; "bluetooth"]);
    ("kitchenware", ["mug"; "grinder"; "kitchen"]);
    ("food", ["beans"; "organic"]) ].

Definition extractCategory (title : string) : string :=
  let lowerTitle := toLowerCase title in
  match List.find (fun entry => existsb (includes lowerTitle) (snd entry)) categories with
  | Some entry => fst entry
  | None => "general"
  end.

Definition evaluateCategoryConditions (conditions : TriggerConditions)
    (cartItems : list CartItem) : bool :=
  let category_operator := default "contains" (category_operator conditions) in
  match category conditions with
  | None => false
  | Some category =>
    if negb (truthy_str (Some category)) then false else
    let cartCategories := map (fun item => extractCategory (title item)) cartItems in
    if String.eqb category_operator "contains" then
      existsb (fun cat => String.eqb cat category) cartCategories
    else if String.eqb category_operator "equals" then
      forallb (fun cat => String.eqb cat category) cartCategories
    else if String.eqb category_operator "not_contains" then
      negb (existsb (fun cat => String.eqb cat category) cartCategories)
    else false
  end.

(** [cartItems.reduce((sum, item) => sum + (item.price * item.quantity), 0)]:
    the items are added from left to right, each addition and multiplication
    rounding to the nearest double. *)
Definition cartTotal (cartItems : list CartItem) : float :=
  fold_left (fun sum item => (sum + price item * quantity item)%float) cartItems 0%float.

Definition evaluateCartValueConditions (conditions : TriggerConditions)
    (cartItems : list CartItem) : bool :=
  let cartTotal := cartTotal cartItems in
  match cart_value_operator conditions with
  | None => false
  | Some op =>
    if String.eqb op "greater_than" then
      double_gt cartTotal (or_double (cart_value conditions) (cart_value_min conditions))
    else if String.eqb op "less_than" then
      double_lt cartTotal (or_double (cart_value conditions) (cart_value_max conditions))
    else if String.eqb op "equals" then
      double_seq cartTotal (cart_value conditions)
    else if String.eqb op "between" then
      double_ge cartTotal (cart_value_min conditions)
      && double_le cartTotal (cart_value_max conditions)
    else false
  end.

Definition evaluateTimeConditions (conditions : TriggerConditions)
    (timeContext : TimeContext) : bool :=
  let timeOnSite := num_or_zero (timeOnSite timeContext) in
  let activeTimeOnSite := num_or_zero (activeTimeOnSite timeContext) in
  if truthy_num (time_on_site_min conditions) && js_lt timeOnSite (time_on_site_min conditions) then false
  else if truthy_num (time_on_site_max conditions) && js_gt timeOnSite (time_on_site_max conditions) then false
  else if truthy_num (active_time_on_site_min conditions) && js_lt activeTimeOnSite (active_time_on_site_min conditions) then false
  else true.

(** ** Matchers *)

Definition evaluateRules (rules : list Rule.t) (cartItems : list CartItem)
    (timeContext : TimeContext) : list Rule.t :=
  List.filter (fun rule =>
    let conditions := Rule.trigger_conditions rule in
    if String.eqb (Rule.trigger_type rule) "category" then
      evaluateCategoryConditions conditions cartItems
    else if String.eqb (Rule.trigger_type rule) "cart_value" then
      evaluateCartValueConditions conditions cartItems
    else if String.eqb (Rule.trigger_type rule) "time_based" then
      evaluateTimeConditions conditions timeContext
    else false) rules.

Definition hasTriggerProducts (campaign : Campaign.t) (cartItems : list CartItem) : bool :=
  existsb (fun triggerId =>
    existsb (fun item => String.eqb (product_id item) triggerId) cartItems)
    (Campaign.trigger_products campaign).

Definition evaluateCampaigns (campaigns : list Campaign.t) (cartItems : list CartItem)
    (timeContext : TimeContext) : list Campaign.t :=
  List.filter (fun campaign =>
    if negb (hasTriggerProducts campaign cartItems) then false
    else
      (* the branch on [target_audience] is empty in the source *)
      match Campaign.target_audience campaign with
      | Some _ => true
      | None => true
      end) campaigns.

(** ** Override resolver *)

(** [rules.findIndex(rule => rule.id === rid)], [None] standing for [-1]. *)
Fixpoint findIndex (rid : string) (rules : list Rule.t) : option nat :=
  match rules with
  | [] => None
  | rule :: rest =>
    if String.eqb (Rule.id rule) rid then Some 0%nat
    else S <$> findIndex rid rest
  end.

(** The body of the inner [forEach]: one override applied to the working
    copy of the rule list. *)
Definition applyOverride (overriddenRules : list Rule.t) (override : Override.t)
    : list Rule.t :=
  match findIndex (Override.rule_id override) overriddenRules with
  | None => overriddenRules
  | Some ruleIndex =>
    if String.eqb (Override.override_type override) "enhance" then
      match overriddenRules !! ruleIndex with
      | Some rule =>
        <[ruleIndex := Rule.with_priority rule
            (Rule.priority rule + num_or_zero (Override.priority_boost override))]>
          overriddenRules
      | None => overriddenRules
      end
    else if String.eqb (Override.override_type override) "suppress" then
      delete ruleIndex overriddenRules
    else overriddenRules
  end.

Definition applyCampaignOverrides (overriddenRules : list Rule.t)
    (campaign : Campaign.t) : list Rule.t :=
  match Campaign.rule_overrides campaign with
  | Some overrides => fold_left applyOverride overrides overriddenRules
  | None => overriddenRules
  end.

Definition applyRuleOverrides (rules : list Rule.t) (campaigns : list Campaign.t)
    : list Rule.t :=
  fold_left applyCampaignOverrides campaigns rules.

(** ** Offer selector *)

Inductive OfferData :=
  | DCampaign (campaign : Campaign.t)
  | DRule (rule : Rule.t).

Module Candidate.
Record t := {
  type : string;
  data : OfferData;
  priority : Z
}.
End Candidate.

Definition campaignCandidate (campaign : Campaign.t) : Candidate.t :=
  {| Candidate.type := "campaign";
     Candidate.data := DCampaign campaign;
     Candidate.priority := num_or_zero (Campaign.campaign_priority campaign) |}.

Definition ruleCandidate (rule : Rule.t) : Candidate.t :=
  {| Candidate.type := "rule";
     Candidate.data := DRule rule;
     Candidate.priority := num_or_zero (Some (Rule.priority rule)) |}.

Definition allOffers (campaigns : list Campaign.t) (rules : list Rule.t)
    : list Candidate.t :=
  (map campaignCandidate campaigns ++ map ruleCandidate rules)%list.

(** The comparator [(a, b) => b.priority - a.priority]. *)
Definition compareOffers (a b : Candidate.t) : Z :=
  Candidate.priority b - Candidate.priority a.

(** [Array.prototype.sort] is a stable sort (ECMAScript 2019; the source
    uses optional chaining, which is more recent): elements that compare
    equal keep their order.  Stable insertion, from the right. *)
Fixpoint insertOffer (x : Candidate.t) (sorted : list Candidate.t)
    : list Candidate.t :=
  match sorted with
  | [] => [x]
  | y :: rest =>
    if compareOffers y x <? 0 then y :: insertOffer x rest
    else x :: y :: rest
  end.

Definition sortOffers (offers : list Candidate.t) : list Candidate.t :=
  foldr insertOffer [] offers.

Definition toOffer (bestOffer : Candidate.t) : Offer.t :=
  match Candidate.data bestOffer with
  | DRule rule =>
    {| Offer.type := Candidate.type bestOffer;
       Offer.id := Rule.id rule;
       Offer.title := Rule.name rule;
       Offer.description := Rule.description rule;
       Offer.target_products := Rule.target_products rule;
       Offer.display_type := str_or (Rule.display_type rule) "popup";
       Offer.display_settings := default "{}" (Rule.display_settings rule);
       Offer.pricing_rules := "[]" |}
  | DCampaign campaign =>
    {| Offer.type := Candidate.type bestOffer;
       Offer.id := Campaign.id campaign;
       Offer.title := Campaign.name campaign;
       Offer.description := Campaign.description campaign;
       Offer.target_products := Campaign.upsell_products campaign;
       Offer.display_type := str_or None "popup";
       Offer.display_settings := default "{}" (Campaign.display_settings campaign);
       Offer.pricing_rules := default "[]" (Campaign.pricing_rules campaign) |}
  end.

(** [None] is the [null] returned for an empty candidate list. *)
Definition selectBestUpsell (campaigns : list Campaign.t) (rules : list Rule.t)
    (cartItems : list CartItem) : option Offer.t :=
  match sortOffers (allOffers campaigns rules) with
  | [] => None
  | bestOffer :: _ => Some (toOffer bestOffer)
  end.

(** The two pure stages that follow the matchers. *)
Definition resolveAndSelect (campaigns : list Campaign.t) (rules : list Rule.t)
    (cartItems : list CartItem) : option Offer.t :=
  selectBestUpsell campaigns (applyRuleOverrides rules campaigns) cartItems.

(** ** Effects: state and exceptions

    Code that logs, talks to the store or works on shared objects is written
    in a state monad with exceptions; the state is the log in
    [evaluateUpsells] and the object heap in the in-place version of the
    resolver. *)

Inductive Outcome (A : Type) :=
  | Returned (a : A)
  | Thrown (error : string).
Arguments Returned {A} a.
Arguments Thrown {A} error.

Definition Eff (S A : Type) : Type := S -> Outcome A * S.

#[export] Instance Eff_ret {S} : MRet (Eff S) :=
  fun A a s => (Returned a, s).

#[export] Instance Eff_bind {S} : MBind (Eff S) :=
  fun A B k m s =>
    match m s with
    | (Returned a, s') => k a s'
    | (Thrown e, s') => (Thrown e, s')
    end.

Definition throw {S A} (error : string) : Eff S A :=
  fun s => (Thrown error, s).

(** [try { body } catch (error) { handler }] *)
Definition try_catch {S A} (body : Eff S A) (handler : string -> Eff S A) : Eff S A :=
  fun s =>
    match body s with
    | (Returned a, s') => (Returned a, s')
    | (Thrown e, s') => handler e s'
    end.

(** [for (x of xs) body(x)], as [forEach] runs it. *)
Fixpoint forEach {S A} (body : A -> Eff S unit) (xs : list A) : Eff S unit :=
  match xs with
  | [] => mret tt
  | x :: rest => body x ≫= fun _ => forEach body rest
  end.

(** [Promise.all(xs.map(f))], the promises settled from left to right. *)
Fixpoint mapAll {S A B} (f : A -> Eff S B) (xs : list A) : Eff S (list B) :=
  match xs with
  | [] => mret []
  | x :: rest => y ← f x; ys ← mapAll f rest; mret (y :: ys)
  end.

(** ** The store and the logger *)

Inductive LogLevel := LDebug | LWarn | LError.

Record LogEntry := {
  level : LogLevel;
  message : string;
  detail : string
}.

Definition Log := list LogEntry.

Definition log (l : LogLevel) (msg detail : string) : Eff Log unit :=
  fun entries => (Returned tt, (entries ++ [{| level := l; message := msg; detail := detail |}])%list).

(** What awaiting a store call gives: the pair [{data, error}] with data, the
    pair with an error (and [data: null]), or a rejected promise. *)
Inductive QueryResult (A : Type) :=
  | QData (data : A)
  | QError (error : string)
  | QRejected (error : string).
Arguments QData {A} data.
Arguments QError {A} error.
Arguments QRejected {A} error.

Definition query_failed {A} (q : QueryResult A) : Prop :=
  match q with
  | QData _ => False
  | _ => True
  end.

(** The store as the engine sees it.  [select_rules user_id] is the query
    on [upsell_rules] filtered by owner, [is_active] and [status = 'active'];
    [select_campaigns user_id] the one on [campaigns] filtered by owner and
    [status = 'active']. *)
Record Supabase := {
  select_rules : string -> QueryResult (list Rule.t);
  get_rule_target_products : string -> QueryResult (list string);
  select_campaigns : string -> QueryResult (list Campaign.t);
  get_campaign_trigger_products : string -> QueryResult (list string);
  get_campaign_upsell_products : string -> QueryResult (list string);
  insert_evaluation : string -> option string -> QueryResult unit
}.

(** [const { data, error } = await q; if (error) throw error;] *)
Definition await_or_throw {S A} (q : QueryResult A) : Eff S A :=
  match q with
  | QData data => mret data
  | QError error => throw error
  | QRejected error => throw error
  end.

(** [const { data } = await q; data || []], the error field not looked at. *)
Definition await_data_or_empty {S A} (q : QueryResult (list A)) : Eff S (list A) :=
  match q with
  | QData data => mret data
  | QError _ => mret []
  | QRejected error => throw error
  end.

Definition with_target_products (rule : Rule.t) (products : list string) : Rule.t :=
  {| Rule.id := Rule.id rule; Rule.name := Rule.name rule;
     Rule.description := Rule.description rule;
     Rule.trigger_type := Rule.trigger_type rule;
     Rule.trigger_conditions := Rule.trigger_conditions rule;
     Rule.target_products := products;
     Rule.display_type := Rule.display_type rule;
     Rule.display_settings := Rule.display_settings rule;
     Rule.priority := Rule.priority rule |}.

Definition with_products (campaign : Campaign.t) (trigger upsell : list string)
    : Campaign.t :=
  {| Campaign.id := Campaign.id campaign; Campaign.name := Campaign.name campaign;
     Campaign.description := Campaign.description campaign;
     Campaign.status := Campaign.status campaign;
     Campaign.start_date := Campaign.start_date campaign;
     Campaign.end_date := Campaign.end_date campaign;
     Campaign.target_audience := Campaign.target_audience campaign;
     Campaign.trigger_products := trigger;
     Campaign.upsell_products := upsell;
     Campaign.pricing_rules := Campaign.pricing_rules campaign;
     Campaign.rule_overrides := Campaign.rule_overrides campaign;
     Campaign.display_settings := Campaign.display_settings campaign;
     Campaign.override_existing_rules := Campaign.override_existing_rules campaign;
     Campaign.campaign_priority := Campaign.campaign_priority campaign |}.

Definition getActiveRules (supabase : Supabase) (user_id : string)
    : Eff Log (list Rule.t) :=
  try_catch
    (data ← await_or_throw (select_rules supabase user_id);
     mapAll (fun rule =>
       try_catch
         (products ← await_data_or_empty (get_rule_target_products supabase (Rule.id rule));
          mret (with_target_products rule products))
         (fun error =>
            log LWarn "Failed to get target products for rule" error ≫= fun _ =>
            mret (with_target_products rule []))) data)
    (fun error =>
       log LError "Failed to get active rules" error ≫= fun _ => mret []).

Definition getActiveCampaigns (supabase : Supabase) (user_id : string)
    : Eff Log (list Campaign.t) :=
  try_catch
    (data ← await_or_throw (select_campaigns supabase user_id);
     mapAll (fun campaign =>
       try_catch
         (triggerProducts ← await_data_or_empty
            (get_campaign_trigger_products supabase (Campaign.id campaign));
          upsellProducts ← await_data_or_empty
            (get_campaign_upsell_products supabase (Campaign.id campaign));
          mret (with_products campaign triggerProducts upsellProducts))
         (fun error =>
            log LWarn "Failed to get products for campaign" error ≫= fun _ =>
            mret (with_products campaign [] []))) data)
    (fun error =>
       log LError "Failed to get active campaigns" error ≫= fun _ => mret []).

(** The evaluation record also carries a fresh uuid and the current date,
    which play no part in what the caller gets back. *)
Definition trackUpsellEvaluation (supabase : Supabase) (sessionId : string)
    (cartItems : list CartItem) (offer : option Offer.t) (user_id : string)
    : Eff Log unit :=
  try_catch
    (await_or_throw (insert_evaluation supabase sessionId (Offer.id <$> offer)))
    (fun error => log LError "Failed to track upsell evaluation" error).

Definition evaluateUpsells (supabase : Supabase) (cartItems : list CartItem)
    (sessionId user_id : string) (timeContext : TimeContext)
    : Eff Log (option Offer.t) :=
  try_catch
    (log LDebug "Evaluating upsells" sessionId ≫= fun _ =>
     activeRules ← getActiveRules supabase user_id;
     activeCampaigns ← getActiveCampaigns supabase user_id;
     let matchingCampaigns := evaluateCampaigns activeCampaigns cartItems timeContext in
     let matchingRules := evaluateRules activeRules cartItems timeContext in
     let overriddenRules := applyRuleOverrides matchingRules matchingCampaigns in
     let bestOffer := selectBestUpsell matchingCampaigns overriddenRules cartItems in
     trackUpsellEvaluation supabase sessionId cartItems bestOffer user_id ≫= fun _ =>
     mret bestOffer)
    (fun error =>
       log LError "Failed to evaluate upsells" error ≫= fun _ => throw error).

(** ** The resolver and the selector on shared objects

    In the source the rule list is an array of references to rule objects
    that other code may hold as well.  The heap keeps rule objects and
    arrays of references; an address is an index, allocation appends. *)

Abbreviation loc := nat.

Inductive Cell :=
  | CRule (rule : Rule.t)
  | CArray (elems : list loc).

Abbreviation Heap := (list Cell).

Definition alloc (c : Cell) : Eff Heap loc :=
  fun h => (Returned (length h), (h ++ [c])%list).

Definition read_rule (l : loc) : Eff Heap Rule.t :=
  fun h =>
    match h !! l with
    | Some (CRule rule) => (Returned rule, h)
    | _ => (Thrown "TypeError", h)
    end.

Definition read_array (l : loc) : Eff Heap (list loc) :=
  fun h =>
    match h !! l with
    | Some (CArray elems) => (Returned elems, h)
    | _ => (Thrown "TypeError", h)
    end.

Definition write (l : loc) (c : Cell) : Eff Heap unit :=
  fun h => (Returned tt, <[l := c]> h).

(** [findIndex] over an array of references: the callback reads the [id]
    of each object in turn. *)
Fixpoint findIndexH (rid : string) (elems : list loc) : Eff Heap (option nat) :=
  match elems with
  | [] => mret None
  | l :: rest =>
    rule ← read_rule l;
    if String.eqb (Rule.id rule) rid then mret (Some 0%nat)
    else (i ← findIndexH rid rest; mret (S <$> i))
  end.

Definition applyOverrideH (overriddenRules : loc) (override : Override.t)
    : Eff Heap unit :=
  elems ← read_array overriddenRules;
  found ← findIndexH (Override.rule_id override) elems;
  match found with
  | None => mret tt
  | Some ruleIndex =>
    if String.eqb (Override.override_type override) "enhance" then
      match elems !! ruleIndex with
      | Some l =>
        rule ← read_rule l;
        fresh ← alloc (CRule (Rule.with_priority rule
                   (Rule.priority rule + num_or_zero (Override.priority_boost override))));
        write overriddenRules (CArray (<[ruleIndex := fresh]> elems))
      | None => mret tt
      end
    else if String.eqb (Override.override_type override) "suppress" then
      write overriddenRules (CArray (delete ruleIndex elems))
    else mret tt
  end.

Definition applyCampaignOverridesH (overriddenRules : loc) (campaign : Campaign.t)
    : Eff Heap unit :=
  match Campaign.rule_overrides campaign with
  | Some overrides => forEach (applyOverrideH overriddenRules) overrides
  | None => mret tt
  end.

(** [const overriddenRules = [...rules]] allocates the working copy. *)
Definition applyRuleOverridesH (rules : loc) (campaigns : list Campaign.t)
    : Eff Heap loc :=
  elems ← read_array rules;
  overriddenRules ← alloc (CArray elems);
  forEach (applyCampaignOverridesH overriddenRules) campaigns ≫= fun _ =>
  mret overriddenRules.

(** The candidates and the sorted array are local to the call; the offer is
    built from the fields of the object the winning candidate refers to. *)
Definition selectBestUpsellH (campaigns : list Campaign.t) (rules : loc)
    (cartItems : list CartItem) : Eff Heap (option Offer.t) :=
  elems ← read_array rules;
  ruleObjects ← mapAll read_rule elems;
  mret (selectBestUpsell campaigns ruleObjects cartItems).

Definition resolveAndSelectH (campaigns : list Campaign.t) (rules : loc)
    (cartItems : list CartItem) : Eff Heap (option Offer.t) :=
  overriddenRules ← applyRuleOverridesH rules campaigns;
  selectBestUpsellH campaigns overriddenRules cartItems.

(** [rules_at h a rules]: address [a] holds an array whose elements refer,
    in order, to objects with the contents [rules]. *)
Definition rules_at (h : Heap) (a : loc) (rules : list Rule.t) : Prop :=
  exists elems,
    h !! a = Some (CArray elems) /\
    Forall2 (fun l rule => h !! l = Some (CRule rule)) elems rules.

(** ** The specification's wording, for comparison with the code *)

(** The specification's campaign condition: active, inside the date window
    (no [end_date]: unbounded), and a trigger product in the cart. *)
Definition spec_campaign_matches (now : Z) (campaign : Campaign.t)
    (cartItems : list CartItem) : bool :=
  String.eqb (Campaign.status campaign) "active"
  && (Campaign.start_date campaign <=? now)
  && match Campaign.end_date campaign with
     | Some e => now <=? e
     | None => true
     end
  && hasTriggerProducts campaign cartItems.

(** [a ?? b] *)
Definition coalesce {A} (a b : option A) : option A :=
  match a with
  | Some _ => a
  | None => b
  end.

(** The specification's cart-value condition, a field being present
    whenever it is given. *)
Definition spec_cart_value (conditions : TriggerConditions)
    (cartItems : list CartItem) : bool :=
  let total := cartTotal cartItems in
  match cart_value_operator conditions with
  | None => false
  | Some op =>
    if String.eqb op "greater_than" then
      double_gt total (coalesce (cart_value conditions) (cart_value_min conditions))
    else if String.eqb op "less_than" then
      double_lt total (coalesce (cart_value conditions) (cart_value_max conditions))
    else if String.eqb op "equals" then
      double_seq total (cart_value conditions)
    else if String.eqb op "between" then
      double_ge total (cart_value_min conditions)
      && double_le total (cart_value_max conditions)
    else false
  end.

(** The specification's time condition: every threshold that is given must
    hold. *)
Definition spec_time (conditions : TriggerConditions) (timeContext : TimeContext)
    : Prop :=
  let t := default 0 (timeOnSite timeContext) in
  let a := default 0 (activeTimeOnSite timeContext) in
  (forall m, time_on_site_min conditions = Some m -> m <= t) /\
  (forall m, time_on_site_max conditions = Some m -> t <= m) /\
  (forall m, active_time_on_site_min conditions = Some m -> m <= a).

(** ** Auxiliary notions *)

(** Every override of every campaign, in the order the resolver visits
    them. *)
Definition allOverrides (campaigns : list Campaign.t) : list Override.t :=
  concat (map (fun campaign => default [] (Campaign.rule_overrides campaign)) campaigns).

(** The order the comparator asks for: [a] may stand before [b]. *)
Definition precedes (a b : Candidate.t) : Prop :=
  Candidate.priority b <= Candidate.priority a.

(** What a run of the resolver may change: the heap grows, and of the old
    cells only the working array [arr] is written. *)
Definition frame (arr : loc) (h h' : Heap) : Prop :=
  (length h <= length h')%nat /\
  forall l, l <> arr -> (l < length h)%nat -> h' !! l = h !! l.

(** [{...campaign, rule_overrides: overrides}] *)
Definition with_overrides (campaign : Campaign.t) (overrides : list Override.t)
    : Campaign.t :=
  {| Campaign.id := Campaign.id campaign; Campaign.name := Campaign.name campaign;
     Campaign.description := Campaign.description campaign;
     Campaign.status := Campaign.status campaign;
     Campaign.start_date := Campaign.start_date campaign;
     Campaign.end_date := Campaign.end_date campaign;
     Campaign.target_audience := Campaign.target_audience campaign;
     Campaign.trigger_products := Campaign.trigger_products campaign;
     Campaign.upsell_products := Campaign.upsell_products campaign;
     Campaign.pricing_rules := Campaign.pricing_rules campaign;
     Campaign.rule_overrides := Some overrides;
     Campaign.display_settings := Campaign.display_settings campaign;
     Campaign.override_existing_rules := Campaign.override_existing_rules campaign;
     Campaign.campaign_priority := Campaign.campaign_priority campaign |}.

(** ** Sample data *)

(** Cart total greater than 0. *)
Definition gt_zero_conditions : TriggerConditions :=
  {| category := None; category_operator := None;
     cart_value_operator := Some "greater_than"; cart_value := Some 0%float;
     cart_value_min := None; cart_value_max := None;
     time_on_site_min := None; time_on_site_max := None;
     active_time_on_site_min := None |}.

(** One coffee mug at 10. *)
Definition one_item_cart : list CartItem :=
  [ {| product_id := "P1"; title := "Coffee Mug"; price := 10; quantity := 1 |} ].

(** Cart total between 50 and 100. *)
Definition between_conditions : TriggerConditions :=
  {| category := None; category_operator := None;
     cart_value_operator := Some "between"; cart_value := None;
     cart_value_min := Some 50%float; cart_value_max := Some 100%float;
     time_on_site_min := None; time_on_site_max := None;
     active_time_on_site_min := None |}.

(** Cart total less than 100, with a [cart_value_min] as well. *)
Definition less_than_conditions : TriggerConditions :=
  {| category := None; category_operator := None;
     cart_value_operator := Some "less_than"; cart_value := None;
     cart_value_min := Some 10%float; cart_value_max := Some 100%float;
     time_on_site_min := None; time_on_site_max := None;
     active_time_on_site_min := None |}.

(** Cart total greater than 50. *)
Definition greater_than_conditions : TriggerConditions :=
  {| category := None; category_operator := None;
     cart_value_operator := Some "greater_than"; cart_value := None;
     cart_value_min := Some 50%float; cart_value_max := None;
     time_on_site_min := None; time_on_site_max := None;
     active_time_on_site_min := None |}.

(** At most 0 seconds on site. *)
Definition max_zero_conditions : TriggerConditions :=
  {| category := None; category_operator := None;
     cart_value_operator := None; cart_value := None;
     cart_value_min := None; cart_value_max := None;
     time_on_site_min := None; time_on_site_max := Some 0;
     active_time_on_site_min := None |}.

(** Thirty seconds on site, twelve of them active. *)
Definition thirty_seconds : TimeContext :=
  {| timeOnSite := Some 30; activeTimeOnSite := Some 12 |}.

(** Between 20 seconds and two minutes on site. *)
Definition two_minutes_conditions : TriggerConditions :=
  {| category := None; category_operator := None;
     cart_value_operator := None; cart_value := None;
     cart_value_min := None; cart_value_max := None;
     time_on_site_min := Some 20; time_on_site_max := Some 120;
     active_time_on_site_min := None |}.

(** A category condition without operator. *)
Definition coffee_conditions : TriggerConditions :=
  {| category := Some "coffee"; category_operator := None;
     cart_value_operator := None; cart_value := None;
     cart_value_min := None; cart_value_max := None;
     time_on_site_min := None; time_on_site_max := None;
     active_time_on_site_min := None |}.

(** A campaign triggered by product P1, with the given status and end
    date. *)
Definition summer_sale (st : string) (finish : option Z) : Campaign.t :=
  {| Campaign.id := "c1"; Campaign.name := "Summer sale";
     Campaign.description := None; Campaign.status := st;
     Campaign.start_date := 1000; Campaign.end_date := finish;
     Campaign.target_audience := None;
     Campaign.trigger_products := ["P1"]; Campaign.upsell_products := ["P7"];
     Campaign.pricing_rules := None; Campaign.rule_overrides := None;
     Campaign.display_settings := None;
     Campaign.override_existing_rules := false;
     Campaign.campaign_priority := Some 10 |}.

(** An active campaign of priority 10 that sets [override_existing_rules]. *)
Definition flash_campaign : Campaign.t :=
  {| Campaign.id := "c1"; Campaign.name := "Flash sale";
     Campaign.description := None; Campaign.status := "active";
     Campaign.start_date := 1000; Campaign.end_date := None;
     Campaign.target_audience := None;
     Campaign.trigger_products := ["P1"]; Campaign.upsell_products := ["P7"];
     Campaign.pricing_rules := None; Campaign.rule_overrides := None;
     Campaign.display_settings := None;
     Campaign.override_existing_rules := true;
     Campaign.campaign_priority := Some 10 |}.

(** Rules of priority 40, 10 and 100. *)
Definition big_cart_rule : Rule.t :=
  {| Rule.id := "r1"; Rule.name := "Big cart"; Rule.description := None;
     Rule.trigger_type := "cart_value";
     Rule.trigger_conditions := greater_than_conditions;
     Rule.target_products := ["P9"];
     Rule.display_type := Some "cart"; Rule.display_settings := None;
     Rule.priority := 40 |}.

Definition tied_rule : Rule.t :=
  {| Rule.id := "r2"; Rule.name := "Tied"; Rule.description := None;
     Rule.trigger_type := "category";
     Rule.trigger_conditions := coffee_conditions;
     Rule.target_products := ["P3"];
     Rule.display_type := None; Rule.display_settings := None;
     Rule.priority := 10 |}.

Definition premium_rule : Rule.t :=
  {| Rule.id := "r1"; Rule.name := "Premium"; Rule.description := None;
     Rule.trigger_type := "cart_value";
     Rule.trigger_conditions := greater_than_conditions;
     Rule.target_products := ["P9"];
     Rule.display_type := Some "checkout"; Rule.display_settings := None;
     Rule.priority := 100 |}.

(** Overrides naming rule r1. *)
Definition suppress_r1 : Override.t :=
  {| Override.rule_id := "r1"; Override.override_type := "suppress";
     Override.priority_boost := None |}.

Definition enhance_r1 : Override.t :=
  {| Override.rule_id := "r1"; Override.override_type := "enhance";
     Override.priority_boost := Some 20 |}.

(** A campaign that suppresses rule r1 and then enhances it. *)
Definition takeover_campaign : Campaign.t :=
  with_overrides flash_campaign [suppress_r1; enhance_r1].

(** A store whose rule query answers with an error and whose campaign
    query rejects. *)
Definition unreachable_store : Supabase :=
  {| select_rules := fun _ => QError "connection refused";
     get_rule_target_products := fun _ => QData [];
     select_campaigns := fun _ => QRejected "fetch failed";
     get_campaign_trigger_products := fun _ => QData [];
     get_campaign_upsell_products := fun _ => QData [];
     insert_evaluation := fun _ _ => QData tt |}.

(** A store whose rule query fails while the campaign query answers. *)
Definition half_store : Supabase :=
  {| select_rules := fun _ => QRejected "fetch failed";
     get_rule_target_products := fun _ => QData [];
     select_campaigns := fun _ => QData [flash_campaign];
     get_campaign_trigger_products := fun _ => QData ["P1"];
     get_campaign_upsell_products := fun _ => QData ["P7"];
     insert_evaluation := fun _ _ => QData tt |}.

(** A store with no rules and one campaign, active by its status, whose
    window ended at time 2000. *)
Definition ended_campaign_store : Supabase :=
  {| select_rules := fun _ => QData [];
     get_rule_target_products := fun _ => QData [];
     select_campaigns := fun _ => QData [summer_sale "active" (Some 2000)];
     get_campaign_trigger_products := fun _ => QData ["P1"];
     get_campaign_upsell_products := fun _ => QData ["P7"];
     insert_evaluation := fun _ _ => QData tt |}.

(** Two rule objects and, at address 2, the array that refers to them. *)
Definition shop_heap : Heap :=
  [CRule premium_rule; CRule tied_rule; CArray [0%nat; 1%nat]].

(** A campaign that boosts rule r2 by 95. *)
Definition boost_campaign : Campaign.t :=
  with_overrides flash_campaign
    [ {| Override.rule_id := "r2"; Override.override_type := "enhance";
         Override.priority_boost := Some 95 |} ].

(** ** Further notions for the matchers and the entry point *)

(** [title] mentions the keyword [kw], letter case aside. *)
Definition mentions (title kw : string) : bool :=
  includes (toLowerCase title) kw.

(** What the rule matcher asks of a rule. *)
Definition rule_condition_holds (rule : Rule.t) (cartItems : list CartItem)
    (timeContext : TimeContext) : Prop :=
  (Rule.trigger_type rule = "category" /\
   evaluateCategoryConditions (Rule.trigger_conditions rule) cartItems = true) \/
  (Rule.trigger_type rule = "cart_value" /\
   evaluateCartValueConditions (Rule.trigger_conditions rule) cartItems = true) \/
  (Rule.trigger_type rule = "time_based" /\
   evaluateTimeConditions (Rule.trigger_conditions rule) timeContext = true).

(** The same store with another answer to the insert of evaluation
    records. *)
Definition with_insert (supabase : Supabase)
    (insert : string -> option string -> QueryResult unit) : Supabase :=
  {| select_rules := select_rules supabase;
     get_rule_target_products := get_rule_target_products supabase;
     select_campaigns := select_campaigns supabase;
     get_campaign_trigger_products := get_campaign_trigger_products supabase;
     get_campaign_upsell_products := get_campaign_upsell_products supabase;
     insert_evaluation := insert |}.

(** The target products the store answers with for a rule row: the rpc's
    data, and nothing when it has none or fails. *)
Definition fetched_target_products (supabase : Supabase) (rule : Rule.t)
    : list string :=
  match get_rule_target_products supabase (Rule.id rule) with
  | QData data => data
  | _ => []
  end.

Module Orchestrator.
(** [ProductionOrchestrator.evaluateUpsells]
    (integration-bridge/production/production-orchestrator.js);
    [upsellManager] is the [evaluateUpsells] of [this.upsellManager]. *)
Definition evaluateUpsells
    (upsellManager : list CartItem -> string -> string -> TimeContext ->
                     Eff Log (option Offer.t))
    (cartItems : list CartItem) (sessionId user_id : string)
    (timeContext : TimeContext) : Eff Log (option Offer.t) :=
  try_catch
    (log LDebug "Evaluating upsells in real-time" sessionId ≫= fun _ =>
     offer ← upsellManager cartItems sessionId user_id timeContext;
     mret offer)
    (fun error =>
       log LError "Real-time upsell evaluation failed" error ≫= fun _ =>
       throw error).
End Orchestrator.

(** A second item, and the cart in both orders. *)
Definition speaker_item : CartItem :=
  {| product_id := "P2"; title := "Bluetooth Speaker"; price := 45; quantity := 2 |}.

Definition mug_item : CartItem :=
  {| product_id := "P1"; title := "Coffee Mug"; price := 10; quantity := 1 |}.

(** Three items priced in decimals, and a rule for carts above 60. *)
Definition beans_item : CartItem :=
  {| product_id := "P3"; title := "Organic Beans"; price := 9.99; quantity := 1 |}.

Definition grinder_item : CartItem :=
  {| product_id := "P4"; title := "Hand Grinder"; price := 45.02; quantity := 1 |}.

Definition filter_item : CartItem :=
  {| product_id := "P5"; title := "Paper Filters"; price := 4.99; quantity := 1 |}.

Definition above_sixty_rule : Rule.t :=
  {| Rule.id := "r6"; Rule.name := "Above sixty"; Rule.description := None;
     Rule.trigger_type := "cart_value";
     Rule.trigger_conditions :=
       {| category := None; category_operator := None;
          cart_value_operator := Some "greater_than"; cart_value := Some 60%float;
          cart_value_min := None; cart_value_max := None;
          time_on_site_min := None; time_on_site_max := None;
          active_time_on_site_min := None |};
     Rule.target_products := ["P9"];
     Rule.display_type := None; Rule.display_settings := None;
     Rule.priority := 20 |}.

(** ** Further notions for the resolver and the selector *)

(** A rule with its priority left out of the comparison. *)
Definition erase_priority (rule : Rule.t) : Rule.t := Rule.with_priority rule 0.

(** The sum of the boosts of a sequence of overrides, [priority_boost || 0]
    each. *)
Definition total_boost (overrides : list Override.t) : Z :=
  foldr (fun override acc => num_or_zero (Override.priority_boost override) + acc)
        0 overrides.

(** An override that cannot change the rule list: its type is neither
    enhance nor suppress, or it names no rule of the list. *)
Definition without_effect (rules : list Rule.t) (override : Override.t) : Prop :=
  (Override.override_type override <> "enhance" /\
   Override.override_type override <> "suppress") \/
  Override.rule_id override ∉ Rule.id <$> rules.

(** Two boosts of rule r2, and a campaign that replaces rule r1. *)
Definition double_boost_campaign : Campaign.t :=
  with_overrides flash_campaign
    [ {| Override.rule_id := "r2"; Override.override_type := "enhance";
         Override.priority_boost := Some 60 |};
      {| Override.rule_id := "r2"; Override.override_type := "enhance";
         Override.priority_boost := Some 50 |} ].

Definition replace_campaign : Campaign.t :=
  with_overrides flash_campaign
    [ {| Override.rule_id := "r1"; Override.override_type := "replace";
         Override.priority_boost := None |};
      {| Override.rule_id := "r9"; Override.override_type := "suppress";
         Override.priority_boost := None |} ].

(** ** Rule and campaign management

    The functions of the manager that write rules: what they log and what
    they send to the store is kept, in order, in a trace. *)

Inductive Event :=
  | EInfo (message detail : string)
  | EDebug (message detail : string)
  | EWarn (message detail : string)
  | EError (message detail : string)
  (** [.from('upsell_rules').update({priority, updated_at}).eq('id', ..).eq('user_id', ..)] *)
  | EUpdatePriority (rule_id user_id : string) (priority : Z)
  (** [.from('upsell_rules').insert(rule)] *)
  | EInsertRule (rule_id user_id : string)
  (** [.from('upsell_rule_products').insert(junctionData)] *)
  | EInsertRuleProducts (rule_id : string) (product_ids : list string).

Abbreviation Trace := (list Event).

Definition emit (e : Event) : Eff Trace unit :=
  fun trace => (Returned tt, (trace ++ [e])%list).

(** [const { data, error } = await q], a rejected promise being thrown. *)
Definition await_pair {S A} (q : QueryResult A) : Eff S (option A * option string) :=
  match q with
  | QData data => mret (Some data, None)
  | QError error => mret (None, Some error)
  | QRejected error => throw error
  end.

(** *** Product ids *)

(** The product table: [select('id').eq('id', ..).eq('user_id', ..).single()],
    whose data is a row or [null]. *)
Record Catalog := {
  select_product : string -> string -> QueryResult (option string)
}.

(** The body of the loop of [validateProductIds] for a non-empty id. *)
Definition validateProductId (catalog : Catalog) (user_id productId : string)
    (validIds : list string) : Eff Trace (list string) :=
  try_catch
    (answer ← await_pair (select_product catalog productId user_id);
     match answer with
     | (Some (Some _), None) =>
       emit (EDebug "Validated product ID" productId) ≫= fun _ =>
       mret (validIds ++ [productId])%list
     | _ =>
       emit (EWarn "Product ID not found in database" productId) ≫= fun _ =>
       mret validIds
     end)
    (fun error =>
       emit (EWarn "Error validating product ID" error) ≫= fun _ => mret validIds).

Fixpoint validateEach (catalog : Catalog) (user_id : string)
    (productIds validIds : list string) : Eff Trace (list string) :=
  match productIds with
  | [] => mret validIds
  | productId :: rest =>
    if negb (truthy_str (Some productId)) then
      validateEach catalog user_id rest validIds
    else
      validIds' ← validateProductId catalog user_id productId validIds;
      validateEach catalog user_id rest validIds'
  end.

Definition validateProductIds (catalog : Catalog) (productIds : option (list string))
    (user_id : string) : Eff Trace (list string) :=
  match productIds with
  | None => mret []
  | Some ids =>
    if Nat.eqb (length ids) 0 then mret []
    else validateEach catalog user_id ids []
  end.

(** The store knows the product: a row and no error. *)
Definition product_found (catalog : Catalog) (user_id productId : string) : bool :=
  match select_product catalog productId user_id with
  | QData (Some _) => true
  | _ => false
  end.

(** [[0-9a-f]] under the flag [i]. *)
Definition is_hex (c : ascii) : bool :=
  let n := nat_of_ascii c in
  (Nat.leb 48 n && Nat.leb n 57) || (Nat.leb 97 n && Nat.leb n 102)
  || (Nat.leb 65 n && Nat.leb n 70).

(** [[0-9a-f]{n}] at the head of [s]: what follows the [n] digits. *)
Fixpoint hex_digits (n : nat) (s : string) : option string :=
  match n with
  | O => Some s
  | S n' =>
    match s with
    | String c s' => if is_hex c then hex_digits n' s' else None
    | EmptyString => None
    end
  end.

Definition dash (s : string) : option string :=
  match s with
  | String "-" s' => Some s'
  | _ => None
  end.

(** [/^[0-9a-f]{8}-[0-9a-f]{4}-[0-9a-f]{4}-[0-9a-f]{4}-[0-9a-f]{12}$/i.test(s)] *)
Definition isUuid (s : string) : bool :=
  match (r1 ← hex_digits 8 s; r2 ← dash r1;
         r3 ← hex_digits 4 r2; r4 ← dash r3;
         r5 ← hex_digits 4 r4; r6 ← dash r5;
         r7 ← hex_digits 4 r6; r8 ← dash r7;
         hex_digits 12 r8) with
  | Some EmptyString => true
  | _ => false
  end.

Definition isValidProductId (productId : string) : bool :=
  if negb (truthy_str (Some productId)) then false
  else if negb (isUuid productId) then true
  else false.

Fixpoint all_hex (s : string) : bool :=
  match s with
  | EmptyString => true
  | String c s' => is_hex c && all_hex s'
  end.

(** Eight, four, four, four and twelve hexadecimal digits, dashes between
    the groups. *)
Definition uuid_form (s : string) : Prop :=
  exists a b c d e,
    s = (a ++ "-" ++ b ++ "-" ++ c ++ "-" ++ d ++ "-" ++ e)%string /\
    String.length a = 8%nat /\ String.length b = 4%nat /\
    String.length c = 4%nat /\ String.length d = 4%nat /\
    String.length e = 12%nat /\
    all_hex a = true /\ all_hex b = true /\ all_hex c = true /\
    all_hex d = true /\ all_hex e = true.

(** *** Rule data from the Coral agent *)

Record RuleActions := {
  action_type : string;
  action_target_products : list string;
  action_message : string;
  action_template_id : option string
}.

Module RuleData.
(** The fields of [ruleData] that [normalizeRuleData] and [createRule] read
    or write, and the others as [rest].  An [id] or a [user_id] that the
    data carries is copied into the rule object by its spread. *)
Record t := {
  id : option string;
  user_id : option string;
  name : option string;
  description : option string;
  trigger_type : option string;
  rule_type : option string;
  trigger_conditions : option TriggerConditions;
  conditions : option TriggerConditions;
  target_products : option (list string);
  actions : option RuleActions;
  rest : Json
}.

Definition with_rule_type (d : t) (v : string) : t :=
  {| id := id d; user_id := user_id d;
     name := name d; description := description d;
     trigger_type := trigger_type d; rule_type := Some v;
     trigger_conditions := trigger_conditions d; conditions := conditions d;
     target_products := target_products d; actions := actions d;
     rest := rest d |}.

Definition with_conditions (d : t) (v : TriggerConditions) : t :=
  {| id := id d; user_id := user_id d;
     name := name d; description := description d;
     trigger_type := trigger_type d; rule_type := rule_type d;
     trigger_conditions := trigger_conditions d; conditions := Some v;
     target_products := target_products d; actions := actions d;
     rest := rest d |}.

Definition with_actions (d : t) (v : RuleActions) : t :=
  {| id := id d; user_id := user_id d;
     name := name d; description := description d;
     trigger_type := trigger_type d; rule_type := rule_type d;
     trigger_conditions := trigger_conditions d; conditions := conditions d;
     target_products := target_products d; actions := Some v;
     rest := rest d |}.
End RuleData.

(** [{ cart_value_operator: 'greater_than', cart_value: 100 }] *)
Definition default_conditions : TriggerConditions :=
  {| category := None; category_operator := None;
     cart_value_operator := Some "greater_than"; cart_value := Some 100%float;
     cart_value_min := None; cart_value_max := None;
     time_on_site_min := None; time_on_site_max := None;
     active_time_on_site_min := None |}.

(** The steps of [normalizeRuleData] between its two log lines. *)
Definition normalizedFields (ruleData : RuleData.t) : RuleData.t :=
  let normalized := ruleData in
  let normalized :=
    match RuleData.trigger_type normalized with
    | Some trigger_type =>
      if truthy_str (Some trigger_type)
      then RuleData.with_rule_type normalized trigger_type
      else normalized
    | None => normalized
    end in
  let normalized :=
    match RuleData.trigger_conditions normalized, RuleData.conditions normalized with
    | Some trigger_conditions, None =>
      RuleData.with_conditions normalized trigger_conditions
    | _, _ => normalized
    end in
  let normalized :=
    match RuleData.target_products normalized, RuleData.actions normalized with
    | Some target_products, None =>
      RuleData.with_actions normalized
        {| action_type := "show_popup";
           action_target_products := target_products;
           action_message := str_or (RuleData.description normalized)
                               "Check out these great products!";
           action_template_id := None |}
    | _, _ => normalized
    end in
  let normalized :=
    if negb (truthy_str (RuleData.trigger_type normalized))
       && negb (truthy_str (RuleData.rule_type normalized))
    then RuleData.with_rule_type normalized "cart_value"
    else normalized in
  let normalized :=
    match RuleData.trigger_conditions normalized, RuleData.conditions normalized with
    | None, None => RuleData.with_conditions normalized default_conditions
    | _, _ => normalized
    end in
  let normalized :=
    match RuleData.target_products normalized, RuleData.actions normalized with
    | None, None =>
      RuleData.with_actions normalized
        {| action_type := "show_popup";
           action_target_products := [];
           action_message := "Check out these great products!";
           action_template_id := None |}
    | _, _ => normalized
    end in
  normalized.

Definition normalizeRuleData (ruleData : RuleData.t) : Eff Trace RuleData.t :=
  emit (EInfo "Normalizing rule data" (default EmptyString (RuleData.name ruleData)))
  ≫= fun _ =>
  let normalized := normalizedFields ruleData in
  emit (EInfo "Normalized rule data" (default EmptyString (RuleData.name normalized)))
  ≫= fun _ => mret normalized.

(** *** Priority updates *)

Record ActionResult := {
  created : bool;
  updated : bool;
  result_id : string
}.

(** The rule table as [updateRulePriority] uses it: the priority of the
    owner's rule, and the answer (the row's id) to an update of it. *)
Record RuleTable := {
  fetch_priority : string -> string -> QueryResult Z;
  update_priority : string -> string -> Z -> QueryResult string
}.

Definition updateRulePriority (table : RuleTable) (rule_id : string)
    (priority_boost : Z) (user_id : string) : Eff Trace ActionResult :=
  try_catch
    (currentPriority ← await_or_throw (fetch_priority table rule_id user_id);
     let newPriority := Z.max 1 (Z.min 100 (currentPriority + priority_boost)) in
     emit (EUpdatePriority rule_id user_id newPriority) ≫= fun _ =>
     id ← await_or_throw (update_priority table rule_id user_id newPriority);
     emit (EInfo "Updated rule priority" id) ≫= fun _ =>
     mret {| created := false; updated := true; result_id := id |})
    (fun error =>
       emit (EError "Failed to update rule priority" error) ≫= fun _ => throw error).

(** The priorities sent to the store, in order. *)
Definition priority_updates (trace : Trace) : list Z :=
  omap (fun e => match e with
                 | EUpdatePriority _ _ p => Some p
                 | _ => None
                 end) trace.

(** Rule data as the Coral agent sends it, and the legacy shape. *)
Definition coral_rule_data : RuleData.t :=
  {| RuleData.id := None; RuleData.user_id := None;
     RuleData.name := Some "Mug bundle"; RuleData.description := None;
     RuleData.trigger_type := Some "category"; RuleData.rule_type := Some "cart_value";
     RuleData.trigger_conditions := Some coffee_conditions;
     RuleData.conditions := None;
     RuleData.target_products := Some ["P3"]; RuleData.actions := None;
     RuleData.rest := "{}" |}.

(** A rule table with one rule of priority 95, which accepts updates. *)
Definition one_rule_table : RuleTable :=
  {| fetch_priority := fun _ _ => QData 95;
     update_priority := fun rule_id _ _ => QData rule_id |}.

(** *** Coral insights *)

Module RuleAction.
Record t (D : Type) := { type : string; rule_data : D }.
Arguments type {D} _.
Arguments rule_data {D} _.
End RuleAction.

Module CampaignAction.
Record t (C : Type) := { type : string; campaign_data : C }.
Arguments type {C} _.
Arguments campaign_data {C} _.
End CampaignAction.

Module Insight.
(** [rules] is [insight.upsell_engine_actions?.rules] and [campaigns] is
    [insight.upsell_engine_actions?.campaigns]; [None] when the actions or
    the list are missing. *)
Record t (D C : Type) := {
  id : string;
  rules : option (list (RuleAction.t D));
  campaigns : option (list (CampaignAction.t C))
}.
Arguments id {D C} _.
Arguments rules {D C} _.
Arguments campaigns {D C} _.
End Insight.

Module Handlers.
(** The five operations an action is dispatched to, each with the action's
    data, the owner and the insight. *)
Record t (D C : Type) := {
  createRule : D -> string -> Insight.t D C -> Eff Trace ActionResult;
  updateRule : D -> string -> Insight.t D C -> Eff Trace ActionResult;
  updateRulePriority : D -> string -> Insight.t D C -> Eff Trace ActionResult;
  createCampaign : C -> string -> Insight.t D C -> Eff Trace ActionResult;
  updateCampaign : C -> string -> Insight.t D C -> Eff Trace ActionResult
}.
Arguments createRule {D C} _.
Arguments updateRule {D C} _.
Arguments updateRulePriority {D C} _.
Arguments createCampaign {D C} _.
Arguments updateCampaign {D C} _.
End Handlers.

Module Counts.
(** The [results] of [processInsight]. *)
Record t := {
  rules_created : Z;
  rules_updated : Z;
  campaigns_created : Z;
  campaigns_updated : Z
}.
Definition zero : t :=
  {| rules_created := 0; rules_updated := 0;
     campaigns_created := 0; campaigns_updated := 0 |}.
End Counts.

Module Results.
(** The [results] of [processCoralInsights]. *)
Record t := {
  rules_created : Z;
  rules_updated : Z;
  campaigns_created : Z;
  campaigns_updated : Z;
  errors : list (string * string)
}.
Definition zero : t :=
  {| rules_created := 0; rules_updated := 0;
     campaigns_created := 0; campaigns_updated := 0; errors := [] |}.
End Results.

(** [for (const x of xs) { results = body(results, x) }] *)
Fixpoint forOf {S A B} (body : B -> A -> Eff S B) (xs : list A) (results : B)
    : Eff S B :=
  match xs with
  | [] => mret results
  | x :: rest => results' ← body results x; forOf body rest results'
  end.

Definition processRuleAction {D C} (h : Handlers.t D C) (action : RuleAction.t D)
    (user_id : string) (insight : Insight.t D C) : Eff Trace ActionResult :=
  let type := RuleAction.type action in
  let rule_data := RuleAction.rule_data action in
  if String.eqb type "create_rule" then
    Handlers.createRule h rule_data user_id insight
  else if String.eqb type "update_rule" then
    Handlers.updateRule h rule_data user_id insight
  else if String.eqb type "update_rule_priority" then
    Handlers.updateRulePriority h rule_data user_id insight
  else throw ("Unknown rule action type: " ++ type)%string.

Definition processCampaignAction {D C} (h : Handlers.t D C)
    (action : CampaignAction.t C) (user_id : string) (insight : Insight.t D C)
    : Eff Trace ActionResult :=
  let type := CampaignAction.type action in
  let campaign_data := CampaignAction.campaign_data action in
  if String.eqb type "create_campaign" then
    Handlers.createCampaign h campaign_data user_id insight
  else if String.eqb type "update_campaign" then
    Handlers.updateCampaign h campaign_data user_id insight
  else throw ("Unknown campaign action type: " ++ type)%string.

(** The body of the loop over the rule actions. *)
Definition countRuleAction {D C} (h : Handlers.t D C) (user_id : string)
    (insight : Insight.t D C) (results : Counts.t) (ruleAction : RuleAction.t D)
    : Eff Trace Counts.t :=
  try_catch
    (ruleResult ← processRuleAction h ruleAction user_id insight;
     let results :=
       if created ruleResult then
         {| Counts.rules_created := Counts.rules_created results + 1;
            Counts.rules_updated := Counts.rules_updated results;
            Counts.campaigns_created := Counts.campaigns_created results;
            Counts.campaigns_updated := Counts.campaigns_updated results |}
       else results in
     let results :=
       if updated ruleResult then
         {| Counts.rules_created := Counts.rules_created results;
            Counts.rules_updated := Counts.rules_updated results + 1;
            Counts.campaigns_created := Counts.campaigns_created results;
            Counts.campaigns_updated := Counts.campaigns_updated results |}
       else results in
     mret results)
    (fun error =>
       emit (EError "Failed to process rule action" error) ≫= fun _ => mret results).

(** The body of the loop over the campaign actions. *)
Definition countCampaignAction {D C} (h : Handlers.t D C) (user_id : string)
    (insight : Insight.t D C) (results : Counts.t)
    (campaignAction : CampaignAction.t C) : Eff Trace Counts.t :=
  try_catch
    (campaignResult ← processCampaignAction h campaignAction user_id insight;
     let results :=
       if created campaignResult then
         {| Counts.rules_created := Counts.rules_created results;
            Counts.rules_updated := Counts.rules_updated results;
            Counts.campaigns_created := Counts.campaigns_created results + 1;
            Counts.campaigns_updated := Counts.campaigns_updated results |}
       else results in
     let results :=
       if updated campaignResult then
         {| Counts.rules_created := Counts.rules_created results;
            Counts.rules_updated := Counts.rules_updated results;
            Counts.campaigns_created := Counts.campaigns_created results;
            Counts.campaigns_updated := Counts.campaigns_updated results + 1 |}
       else results in
     mret results)
    (fun error =>
       emit (EError "Failed to process campaign action" error) ≫= fun _ =>
       mret results).

Definition processInsight {D C} (h : Handlers.t D C) (insight : Insight.t D C)
    (user_id : string) : Eff Trace Counts.t :=
  let results := Counts.zero in
  results ←
    match Insight.rules insight with
    | Some actions => forOf (countRuleAction h user_id insight) actions results
    | None => mret results
    end;
  results ←
    match Insight.campaigns insight with
    | Some actions => forOf (countCampaignAction h user_id insight) actions results
    | None => mret results
    end;
  mret results.

(** The body of the loop of [processCoralInsights]. *)
Definition addInsight {D C} (h : Handlers.t D C) (user_id : string)
    (results : Results.t) (insight : Insight.t D C) : Eff Trace Results.t :=
  try_catch
    (insightResults ← processInsight h insight user_id;
     mret {| Results.rules_created :=
               Results.rules_created results + Counts.rules_created insightResults;
             Results.rules_updated :=
               Results.rules_updated results + Counts.rules_updated insightResults;
             Results.campaigns_created :=
               Results.campaigns_created results + Counts.campaigns_created insightResults;
             Results.campaigns_updated :=
               Results.campaigns_updated results + Counts.campaigns_updated insightResults;
             Results.errors := Results.errors results |})
    (fun error =>
       emit (EError "Failed to process insight" error) ≫= fun _ =>
       mret {| Results.rules_created := Results.rules_created results;
               Results.rules_updated := Results.rules_updated results;
               Results.campaigns_created := Results.campaigns_created results;
               Results.campaigns_updated := Results.campaigns_updated results;
               Results.errors :=
                 (Results.errors results ++ [(Insight.id insight, error)])%list |}).

Definition processCoralInsights {D C} (h : Handlers.t D C)
    (insights : list (Insight.t D C)) (user_id : string) : Eff Trace Results.t :=
  try_catch
    (emit (EInfo "Processing Coral insights" user_id) ≫= fun _ =>
     results ← forOf (addInsight h user_id) insights Results.zero;
     emit (EInfo "Insight processing completed" user_id) ≫= fun _ =>
     mret results)
    (fun error =>
       emit (EError "Failed to process Coral insights" error) ≫= fun _ =>
       throw error).

(** The number of rule actions and of campaign actions of an insight. *)
Definition rule_action_count {D C} (insight : Insight.t D C) : Z :=
  Z.of_nat (length (default [] (Insight.rules insight))).

Definition campaign_action_count {D C} (insight : Insight.t D C) : Z :=
  Z.of_nat (length (default [] (Insight.campaigns insight))).

Definition known_rule_action (type : string) : bool :=
  String.eqb type "create_rule" || String.eqb type "update_rule"
  || String.eqb type "update_rule_priority".

Definition known_campaign_action (type : string) : bool :=
  String.eqb type "create_campaign" || String.eqb type "update_campaign".

(** Handlers over priority data [(rule_id, priority_boost)]: priority
    updates go to the rule table, every other operation fails. *)
Definition priority_handlers (table : RuleTable) : Handlers.t (string * Z) unit :=
  {| Handlers.createRule := fun _ _ _ => throw "Invalid rule data";
     Handlers.updateRule := fun _ _ _ => throw "not found";
     Handlers.updateRulePriority := fun data user_id _ =>
       updateRulePriority table (fst data) (snd data) user_id;
     Handlers.createCampaign := fun _ _ _ => throw "Invalid campaign data";
     Handlers.updateCampaign := fun _ _ _ => throw "not found" |}.

Definition boost_insight : Insight.t (string * Z) unit :=
  {| Insight.id := "i1";
     Insight.rules := Some
       [ {| RuleAction.type := "update_rule_priority"; RuleAction.rule_data := ("r1", 20) |};
         {| RuleAction.type := "archive_rule"; RuleAction.rule_data := ("r2", 0) |} ];
     Insight.campaigns := None |}.

Definition unknown_insight : Insight.t (string * Z) unit :=
  {| Insight.id := "i2";
     Insight.rules := Some
       [ {| RuleAction.type := "archive_rule"; RuleAction.rule_data := ("r2", 0) |} ];
     Insight.campaigns := Some
       [ {| CampaignAction.type := "pause_campaign"; CampaignAction.campaign_data := tt |} ] |}.

(** The rule actions and the campaign actions of a list of insights. *)
Definition total_rule_actions {D C} (insights : list (Insight.t D C)) : Z :=
  foldr (fun insight acc => rule_action_count insight + acc) 0 insights.

Definition total_campaign_actions {D C} (insights : list (Insight.t D C)) : Z :=
  foldr (fun insight acc => campaign_action_count insight + acc) 0 insights.

(** What is logged for an action of unknown type. *)
Definition unknown_rule_event {D} (action : RuleAction.t D) : Event :=
  EError "Failed to process rule action"
         ("Unknown rule action type: " ++ RuleAction.type action)%string.

Definition unknown_campaign_event {C} (action : CampaignAction.t C) : Event :=
  EError "Failed to process campaign action"
         ("Unknown campaign action type: " ++ CampaignAction.type action)%string.

(** *** Duplicate search *)

(** A row of [select('id, name, trigger_type')]. *)
Record ExistingRule := {
  existing_id : string;
  existing_name : string;
  existing_trigger_type : string
}.

(** The store as [findSimilarRule] uses it: the owner's active rules of a
    trigger type, and the target products of a rule. *)
Record RuleIndex := {
  select_active_rules : string -> option string -> QueryResult (list ExistingRule);
  existing_target_products : string -> QueryResult (list string)
}.

(** The fields of the new rule that [findSimilarRule] reads. *)
Record NewRule := {
  new_trigger_type : option string;
  new_trigger_conditions : option TriggerConditions;
  new_target_products : option (list string)
}.

Fixpoint strings_eqb (a b : list string) : bool :=
  match a, b with
  | [], [] => true
  | x :: a', y :: b' => String.eqb x y && strings_eqb a' b'
  | _, _ => false
  end.

Definition option_eqb {A} (eqb : A -> A -> bool) (a b : option A) : bool :=
  match a, b with
  | Some x, Some y => eqb x y
  | None, None => true
  | _, _ => false
  end.

(** The JSON texts of two doubles agree: they are the same double, or both
    are a zero (the text [0]), or neither is finite (the text [null]). *)
Definition same_number_json (x y : float) : bool :=
  PrimFloat.Leibniz.eqb x y
  || (is_zero x && is_zero y)
  || (negb (is_finite x) && negb (is_finite y)).

(** [JSON.stringify(a) === JSON.stringify(b)] for two condition objects:
    the fields of the record are serialised in one order and missing fields
    are left out, so the texts agree when the fields do. *)
Definition same_conditions_json (a b : option TriggerConditions) : bool :=
  option_eqb (fun x y =>
    option_eqb String.eqb (category x) (category y)
    && option_eqb String.eqb (category_operator x) (category_operator y)
    && option_eqb String.eqb (cart_value_operator x) (cart_value_operator y)
    && option_eqb same_number_json (cart_value x) (cart_value y)
    && option_eqb same_number_json (cart_value_min x) (cart_value_min y)
    && option_eqb same_number_json (cart_value_max x) (cart_value_max y)
    && option_eqb Z.eqb (time_on_site_min x) (time_on_site_min y)
    && option_eqb Z.eqb (time_on_site_max x) (time_on_site_max y)
    && option_eqb Z.eqb (active_time_on_site_min x) (active_time_on_site_min y)) a b.

(** [JSON.stringify(a) === JSON.stringify(b)] for [a] an array of strings or
    undefined and [b] an array of strings or null: the text of an array
    determines the array and is neither the text [null] nor undefined, which
    is what undefined serialises to. *)
Definition same_products_json (a b : option (list string)) : bool :=
  match a, b with
  | Some x, Some y => strings_eqb x y
  | _, _ => false
  end.

(** [const { data } = await q], the data being [null] beside an error. *)
Definition await_data_or_null {S A} (q : QueryResult A) : Eff S (option A) :=
  match q with
  | QData data => mret (Some data)
  | QError _ => mret None
  | QRejected error => throw error
  end.

(** The body of the loop of [findSimilarRule]: whether [existingRule] is
    returned. *)
Definition isSimilarRule (index : RuleIndex) (rule : NewRule)
    (existingRule : ExistingRule) : Eff Trace bool :=
  try_catch
    (existingProducts ← await_data_or_null
       (existing_target_products index (existing_id existingRule));
     let sameTrigger :=
       same_conditions_json (new_trigger_conditions rule) (new_trigger_conditions rule) in
     let sameTargets :=
       same_products_json (new_target_products rule) existingProducts in
     mret (sameTrigger && sameTargets))
    (fun error =>
       emit (EWarn "Failed to get products for existing rule" error) ≫= fun _ =>
       mret false).

Fixpoint findSimilarIn (index : RuleIndex) (rule : NewRule)
    (data : list ExistingRule) : Eff Trace (option ExistingRule) :=
  match data with
  | [] => mret None
  | existingRule :: rest =>
    isSimilarRule index rule existingRule ≫= fun similar : bool =>
    if similar then mret (Some existingRule)
    else findSimilarIn index rule rest
  end.

Definition findSimilarRule (index : RuleIndex) (rule : NewRule) (user_id : string)
    : Eff Trace (option ExistingRule) :=
  try_catch
    (data ← await_or_throw (select_active_rules index user_id (new_trigger_type rule));
     findSimilarIn index rule data)
    (fun error =>
       emit (EError "Failed to find similar rule" error) ≫= fun _ => mret None).

(** The stored target products of [existingRule] are the new rule's. *)
Definition same_targets (index : RuleIndex) (rule : NewRule)
    (existingRule : ExistingRule) : bool :=
  match new_target_products rule,
        existing_target_products index (existing_id existingRule) with
  | Some wanted, QData stored => strings_eqb wanted stored
  | _, _ => false
  end.

(** Two active cart-value rules, the second with target product P9. *)
Definition two_rule_index : RuleIndex :=
  {| select_active_rules := fun _ _ =>
       QData [ {| existing_id := "r7"; existing_name := "Small cart";
                  existing_trigger_type := "cart_value" |};
               {| existing_id := "r1"; existing_name := "Big cart";
                  existing_trigger_type := "cart_value" |} ];
     existing_target_products := fun rid =>
       if String.eqb rid "r1" then QData ["P9"] else QError "no rows" |}.

(** *** Rule creation *)

(** [delete normalizedRuleData.target_products] *)
Definition without_target_products (d : RuleData.t) : RuleData.t :=
  {| RuleData.id := RuleData.id d; RuleData.user_id := RuleData.user_id d;
     RuleData.name := RuleData.name d; RuleData.description := RuleData.description d;
     RuleData.trigger_type := RuleData.trigger_type d;
     RuleData.rule_type := RuleData.rule_type d;
     RuleData.trigger_conditions := RuleData.trigger_conditions d;
     RuleData.conditions := RuleData.conditions d;
     RuleData.target_products := None; RuleData.actions := RuleData.actions d;
     RuleData.rest := RuleData.rest d |}.

(** The object [{ id: ruleId, user_id, ...normalizedRuleData, created_at,
    updated_at }]: [row_id] and [row_user_id] are its [id] and [user_id]
    once the rule data is spread over them; the two dates play no part in
    what follows. *)
Record RuleRow := {
  row_id : string;
  row_user_id : string;
  row_data : RuleData.t
}.

(** What [createRule] needs around it: the product table, the rule index
    of the duplicate search, the verdict of [validateData(UpsellRuleSchema,
    rule)] (the errors, if any), and the answers of the store to the insert
    of the rule (the id of the new row) and of its products. *)
Record RuleWriter := {
  writer_catalog : Catalog;
  writer_index : RuleIndex;
  validate_rule : RuleRow -> option string;
  insert_rule : RuleRow -> QueryResult string;
  insert_rule_products : string -> list string -> QueryResult unit
}.

(** The fields of [rule] that [findSimilarRule] reads. *)
Definition rule_for_search (rule : RuleRow) : NewRule :=
  {| new_trigger_type := RuleData.trigger_type (row_data rule);
     new_trigger_conditions := RuleData.trigger_conditions (row_data rule);
     new_target_products := RuleData.target_products (row_data rule) |}.

(** The first half of [createRule], up to the rule object: the
    normalisation, the validation of the target products and the choice of
    the id; [uuid] is the value of [uuidv4()]. *)
Definition prepareRule (w : RuleWriter) (uuid : string) (ruleData : RuleData.t)
    (user_id : string) : Eff Trace (RuleRow * list string) :=
  normalizedRuleData ← normalizeRuleData ruleData;
  let targetProducts := default [] (RuleData.target_products normalizedRuleData) in
  let normalizedRuleData := without_target_products normalizedRuleData in
  validatedProducts ←
    (if Nat.ltb 0 (length targetProducts) then
       validated ← validateProductIds (writer_catalog w) (Some targetProducts) user_id;
       (if negb (Nat.eqb (length validated) (length targetProducts)) then
          emit (EWarn "Some product IDs could not be validated" user_id)
        else mret tt) ≫= fun _ => mret validated
     else mret []);
  let ruleId :=
    match validatedProducts with
    | firstTargetProduct :: _ =>
      if truthy_str (Some firstTargetProduct) && isValidProductId firstTargetProduct
      then ("rule_" ++ firstTargetProduct)%string
      else uuid
    | [] => uuid
    end in
  let rule := {| row_id := default ruleId (RuleData.id normalizedRuleData);
                 row_user_id := default user_id (RuleData.user_id normalizedRuleData);
                 row_data := normalizedRuleData |} in
  emit (EInfo "Rule before validation"
          (default EmptyString (RuleData.name normalizedRuleData))) ≫= fun _ =>
  mret (rule, validatedProducts).

(** The second half: the insert of the rule and of its products. *)
Definition insertRule (w : RuleWriter) (rule : RuleRow)
    (validatedProducts : list string) : Eff Trace ActionResult :=
  emit (EInsertRule (row_id rule) (row_user_id rule)) ≫= fun _ =>
  id ← await_or_throw (insert_rule w rule);
  (if Nat.ltb 0 (length validatedProducts) then
     emit (EInsertRuleProducts id validatedProducts) ≫= fun _ =>
     answer ← await_pair (insert_rule_products w id validatedProducts);
     match snd answer with
     | Some junctionError =>
       emit (EError "Failed to insert rule products" junctionError)
     | None => mret tt
     end
   else mret tt) ≫= fun _ =>
  emit (EInfo "Created upsell rule" id) ≫= fun _ =>
  mret {| created := true; updated := false; result_id := id |}.

Definition createRule (w : RuleWriter) (uuid : string) (ruleData : RuleData.t)
    (user_id : string) : Eff Trace ActionResult :=
  try_catch
    (emit (EInfo "Creating rule with data"
             (default EmptyString (RuleData.name ruleData))) ≫= fun _ =>
     prepared ← prepareRule w uuid ruleData user_id;
     let rule := fst prepared in
     let validatedProducts := snd prepared in
     match validate_rule w rule with
     | Some errors =>
       emit (EError "Rule validation failed" errors) ≫= fun _ =>
       throw ("Invalid rule data: " ++ errors)%string
     | None =>
       existingRule ← findSimilarRule (writer_index w) (rule_for_search rule) user_id;
       match existingRule with
       | Some existing =>
         emit (EWarn "Similar rule already exists" (existing_id existing)) ≫= fun _ =>
         mret {| created := false; updated := false;
                 result_id := existing_id existing |}
       | None => insertRule w rule validatedProducts
       end
     end)
    (fun error =>
       emit (EError "Failed to create rule" error) ≫= fun _ => throw error).

(** What reaches the store: updates and inserts. *)
Definition is_write (e : Event) : bool :=
  match e with
  | EUpdatePriority _ _ _ | EInsertRule _ _ | EInsertRuleProducts _ _ => true
  | _ => false
  end.

Definition writes (trace : Trace) : list Event := List.filter is_write trace.

(** The target products of the rule data that the product table confirms. *)
Definition validated_targets (w : RuleWriter) (ruleData : RuleData.t)
    (user_id : string) : list string :=
  List.filter (fun productId =>
      truthy_str (Some productId) && product_found (writer_catalog w) user_id productId)
    (default [] (RuleData.target_products ruleData)).

(** The id [createRule] chooses for the rule: the first confirmed target
    product behind the prefix [rule_] unless it is written as a UUID, else
    the fresh uuid. *)
Definition chosen_rule_id (w : RuleWriter) (uuid : string) (ruleData : RuleData.t)
    (user_id : string) : string :=
  match validated_targets w ruleData user_id with
  | first :: _ => if isValidProductId first then ("rule_" ++ first)%string else uuid
  | [] => uuid
  end.

(** The row [createRule] validates and inserts: the chosen id and the given
    owner, unless the rule data carries an [id] or a [user_id] of its own. *)
Definition new_rule_row (w : RuleWriter) (uuid : string) (ruleData : RuleData.t)
    (user_id : string) : RuleRow :=
  {| row_id := default (chosen_rule_id w uuid ruleData user_id) (RuleData.id ruleData);
     row_user_id := default user_id (RuleData.user_id ruleData);
     row_data := without_target_products (normalizedFields ruleData) |}.

(** A writer whose product table knows every product, whose schema accepts
    every rule, and whose inserts of products fail. *)
Definition lenient_writer : RuleWriter :=
  {| writer_catalog := {| select_product := fun productId _ => QData (Some productId) |};
     writer_index := two_rule_index;
     validate_rule := fun _ => None;
     insert_rule := fun rule => QData (row_id rule);
     insert_rule_products := fun _ _ => QError "foreign key violation" |}.

(** A writer whose schema rejects every rule. *)
Definition strict_writer : RuleWriter :=
  {| writer_catalog := {| select_product := fun productId _ => QData (Some productId) |};
     writer_index := two_rule_index;
     validate_rule := fun _ => Some "[id: Invalid uuid]";
     insert_rule := fun rule => QData (row_id rule);
     insert_rule_products := fun _ _ => QData tt |}.

(** Rule data with the target product of the existing rule r1. *)
Definition duplicate_rule_data : RuleData.t :=
  {| RuleData.id := None; RuleData.user_id := None;
     RuleData.name := Some "Big cart again"; RuleData.description := None;
     RuleData.trigger_type := Some "cart_value"; RuleData.rule_type := None;
     RuleData.trigger_conditions := Some greater_than_conditions;
     RuleData.conditions := None;
     RuleData.target_products := Some ["P9"]; RuleData.actions := None;
     RuleData.rest := "{}" |}.

(** Rule data that carries an id and an owner of its own. *)
Definition legacy_rule_data : RuleData.t :=
  {| RuleData.id := Some "r-legacy"; RuleData.user_id := Some "u9";
     RuleData.name := Some "Big cart again"; RuleData.description := None;
     RuleData.trigger_type := Some "cart_value"; RuleData.rule_type := None;
     RuleData.trigger_conditions := Some greater_than_conditions;
     RuleData.conditions := None;
     RuleData.target_products := Some ["P9"]; RuleData.actions := None;
     RuleData.rest := "{}" |}.

(** What [createRule] comes to: the outcome and the writes it sends, read
    off the verdict of the schema and the answers of the store. *)
Definition createRule_outcome (w : RuleWriter) (uuid : string)
    (ruleData : RuleData.t) (user_id : string)
    : Outcome ActionResult * list Event :=
  let rule := new_rule_row w uuid ruleData user_id in
  let validated := validated_targets w ruleData user_id in
  match validate_rule w rule with
  | Some errors => (Thrown ("Invalid rule data: " ++ errors)%string, [])
  | None =>
    match insert_rule w rule with
    | QData id =>
      let result := {| created := true; updated := false; result_id := id |} in
      match validated with
      | [] => (Returned result, [EInsertRule (row_id rule) (row_user_id rule)])
      | _ :: _ =>
        (match insert_rule_products w id validated with
         | QRejected error => Thrown error
         | _ => Returned result
         end,
         [EInsertRule (row_id rule) (row_user_id rule); EInsertRuleProducts id validated])
      end
    | QError error | QRejected error =>
      (Thrown error, [EInsertRule (row_id rule) (row_user_id rule)])
    end
  end.

(** The data of an rpc answer, [data || []]. *)
Definition data_or_empty (q : QueryResult (list string)) : list string :=
  match q with
  | QData data => data
  | _ => []
  end.

Definition rejected {A} (q : QueryResult A) : bool :=
  match q with
  | QRejected _ => true
  | _ => false
  end.

(** A campaign row with the products the store answers with: both lists
    are empty as soon as one of the two rpcs is rejected. *)
Definition fetched_campaign (supabase : Supabase) (row : Campaign.t) : Campaign.t :=
  let trigger := get_campaign_trigger_products supabase (Campaign.id row) in
  let upsell := get_campaign_upsell_products supabase (Campaign.id row) in
  if rejected trigger || rejected upsell then with_products row [] []
  else with_products row (data_or_empty trigger) (data_or_empty upsell).

(** * Properties *)

Example extractCategory_coffee_mug : extractCategory "Coffee Mug" = "coffee".
Proof. reflexivity. Qed.

Example extractCategory_bt : extractCategory "Bluetooth Speaker" = "electronics".
Proof. reflexivity. Qed.

Example extractCategory_other : extractCategory "T-Shirt" = "general".
Proof. reflexivity. Qed.

(** ** Operators *)

Lemma num_or_zero_default (a : option Z) : num_or_zero a = default 0 a.
Proof.
  destruct a as [v|]; [|reflexivity].
  unfold num_or_zero, or_num, truthy_num.
  destruct (Z.eqb_spec v 0) as [->|]; reflexivity.
Qed.

Lemma or_double_coalesce (a b : option float) :
  (forall v, a = Some v -> truthy_double (Some v) = true) ->
  or_double a b = coalesce a b.
Proof.
  intros Ha. destruct a as [v|]; [|reflexivity].
  unfold or_double. now rewrite (Ha v eq_refl).
Qed.

Lemma or_double_falsy (a b : option float) :
  truthy_double a = false -> or_double a b = b.
Proof. unfold or_double. now intros ->. Qed.

Lemma Prim2SF_zero : Prim2SF 0 = S754_zero false.
Proof. reflexivity. Qed.

Lemma SFeqb_refl_finite (s : bool) (m : positive) (e : Z) :
  SFeqb (S754_finite s m e) (S754_finite s m e) = true.
Proof.
  unfold SFeqb, SFcompare. rewrite Z.compare_refl.
  change (PosDef.Pos.compare_cont Eq m m) with (Pos.compare m m).
  rewrite Pos.compare_refl. now destruct s.
Qed.

(** A double above 0 is not below 0, is not 0, and is truthy. *)
Lemma positive_double (v : float) :
  (0 <? v)%float = true ->
  (v <? 0)%float = false /\ (0 =? v)%float = false /\ (v <=? 0)%float = false /\
  truthy_double (Some v) = true.
Proof.
  unfold truthy_double, is_zero, is_nan.
  rewrite FloatAxioms.ltb_spec, (FloatAxioms.ltb_spec v), !FloatAxioms.eqb_spec,
    !FloatAxioms.leb_spec.
  change (Prim2SF zero) with (Prim2SF 0). rewrite Prim2SF_zero.
  destruct (Prim2SF v) as [[|]|[|]| |[|] m e]; intros H; cbn in H;
    try discriminate H; rewrite ?SFeqb_refl_finite; repeat split; reflexivity.
Qed.

Lemma truthy_num_true (a : option Z) :
  truthy_num a = true <-> exists v, a = Some v /\ v <> 0.
Proof.
  destruct a as [v|]; simpl.
  - destruct (Z.eqb_spec v 0); simpl; split.
    + discriminate.
    + intros (w & [= <-] & Hw). congruence.
    + eauto.
    + reflexivity.
  - split; [discriminate | intros (v & [=] & _)].
Qed.

Lemma cartTotal_nil : cartTotal [] = 0%float.
Proof. reflexivity. Qed.

Lemma cartTotal_snoc (cartItems : list CartItem) (item : CartItem) :
  cartTotal (cartItems ++ [item]) =
  (cartTotal cartItems + price item * quantity item)%float.
Proof. unfold cartTotal. now rewrite fold_left_app. Qed.

Lemma extractCategory_cases (t : string) :
  extractCategory t = "coffee" \/ extractCategory t = "electronics" \/
  extractCategory t = "kitchenware" \/ extractCategory t = "food" \/
  extractCategory t = "general".
Proof.
  unfold extractCategory, categories. cbn [List.find snd fst].
  repeat match goal with
  | |- context [if ?b then _ else _] => destruct b
  end; cbn; tauto.
Qed.

Lemma extractCategory_nonempty (t : string) : extractCategory t <> EmptyString.
Proof.
  destruct (extractCategory_cases t) as [H|[H|[H|[H|H]]]]; rewrite H; discriminate.
Qed.

Lemma existsb_eqb_In (c : string) (l : list string) :
  existsb (fun cat => String.eqb cat c) l = true <-> In c l.
Proof.
  rewrite existsb_exists. split.
  - intros (x & Hx & Heq). apply String.eqb_eq in Heq. now subst.
  - intros H. exists c. split; [assumption | apply String.eqb_refl].
Qed.

(** ** Cart-value conditions *)

(** C7, as stated, fails: a [cart_value] given as 0 is not used as the bound
    of [greater_than]; the cart total 10 is compared with the missing
    [cart_value_min] instead of 0. *)
Lemma cart_value_zero_counterexample :
  evaluateCartValueConditions gt_zero_conditions one_item_cart = false /\
  spec_cart_value gt_zero_conditions one_item_cart = true.
Proof. split; reflexivity. Qed.

(** C7 (amended): the cart-value evaluator agrees with the specification's
    operator table (greater_than, less_than, equals, between, false for an
    unknown operator) whenever [cart_value] is absent or truthy; a
    [cart_value] that is falsy (0, as well as -0 and NaN) counts as absent
    for greater_than and less_than, which then compare with
    [cart_value_min] and [cart_value_max].  The cart total that is compared
    is the one the code computes: 0 for the empty cart, and each further
    item adds the double product of its price and quantity to the total of
    the items before it, so it is a sum of doubles taken in cart order and
    not the exact sum. *)
Theorem evaluateCartValueConditions_spec (conditions : TriggerConditions)
    (cartItems : list CartItem) :
  ((forall v, cart_value conditions = Some v -> truthy_double (Some v) = true) ->
   evaluateCartValueConditions conditions cartItems =
   spec_cart_value conditions cartItems) /\
  (truthy_double (cart_value conditions) = false ->
   forall op, cart_value_operator conditions = Some op ->
     (op = "greater_than" ->
      evaluateCartValueConditions conditions cartItems =
      double_gt (cartTotal cartItems) (cart_value_min conditions)) /\
     (op = "less_than" ->
      evaluateCartValueConditions conditions cartItems =
      double_lt (cartTotal cartItems) (cart_value_max conditions)) /\
     (op <> "greater_than" -> op <> "less_than" ->
      evaluateCartValueConditions conditions cartItems =
      spec_cart_value conditions cartItems)) /\
  (cartTotal [] = 0%float /\
   forall items item,
     cartTotal (items ++ [item]) =
     (cartTotal items + price item * quantity item)%float).
Proof.
  unfold evaluateCartValueConditions, spec_cart_value. split; [|split].
  - intros Hcv. destruct (cart_value_operator conditions) as [op|]; [|reflexivity].
    now rewrite !or_double_coalesce.
  - intros Hcv op ->. rewrite !or_double_falsy by assumption. repeat split.
    + now intros ->.
    + now intros ->.
    + intros Hgt Hlt.
      destruct (String.eqb_spec op "greater_than"); [contradiction|].
      destruct (String.eqb_spec op "less_than"); [contradiction|].
      reflexivity.
  - split; [apply cartTotal_nil | apply cartTotal_snoc].
Qed.

Lemma evaluateCartValueConditions_spec_witness :
  evaluateCartValueConditions between_conditions one_item_cart =
  spec_cart_value between_conditions one_item_cart.
Proof.
  apply (proj1 (evaluateCartValueConditions_spec between_conditions one_item_cart)).
  simpl. discriminate.
Defined.

(** The total is the sum of doubles in cart order: the items priced 9.99,
    45.02 and 4.99 total 60.000000000000007, which is above 60, and in the
    order 9.99, 4.99, 45.02 they total 60, which is not. *)
Example evaluateCartValueConditions_doubles :
  let above_sixty := Rule.trigger_conditions above_sixty_rule in
  evaluateCartValueConditions above_sixty [beans_item; grinder_item; filter_item] = true /\
  evaluateCartValueConditions above_sixty [beans_item; filter_item; grinder_item] = false.
Proof. split; reflexivity. Qed.

(** C8, as stated, fails: a [less_than] rule does not look at
    [cart_value_min], and the empty cart (total 0) is below its bound. *)
Lemma empty_cart_less_than_counterexample :
  cart_value_min less_than_conditions = Some 10%float /\
  cartTotal [] = 0%float /\
  evaluateCartValueConditions less_than_conditions [] = true.
Proof. repeat split. Qed.

(** C8 (amended): on the empty cart, a cart-value condition with
    [cart_value_min > 0] (and [cart_value], when given, positive as the rule
    schema requires) is false under every operator but [less_than], and so
    the rule matcher drops the rule; under [less_than] the empty cart is
    compared with [cart_value], else [cart_value_max], and
    [cart_value_min] plays no part. *)
Theorem empty_cart_cart_value_min (conditions : TriggerConditions) (m : float) :
  cart_value_min conditions = Some m -> (0 <? m)%float = true ->
  (forall v, cart_value conditions = Some v -> (0 <? v)%float = true) ->
  (cart_value_operator conditions <> Some "less_than" ->
   evaluateCartValueConditions conditions [] = false /\
   forall rule timeContext,
     Rule.trigger_type rule = "cart_value" ->
     Rule.trigger_conditions rule = conditions ->
     evaluateRules [rule] [] timeContext = []) /\
  (cart_value_operator conditions = Some "less_than" ->
   evaluateCartValueConditions conditions [] =
   double_lt 0 (coalesce (cart_value conditions) (cart_value_max conditions))).
Proof.
  intros Hmin Hm Hcv.
  assert (Htruthy : forall v, cart_value conditions = Some v ->
                              truthy_double (Some v) = true).
  { intros v Hv. now apply positive_double, Hcv. }
  destruct (positive_double m Hm) as (Hm_lt & _ & Hm_le & _).
  assert (Heval : cart_value_operator conditions <> Some "less_than" ->
                  evaluateCartValueConditions conditions [] = false).
  { intros Hop. unfold evaluateCartValueConditions. rewrite cartTotal_nil.
    destruct (cart_value_operator conditions) as [op|]; [|reflexivity].
    destruct (String.eqb_spec op "greater_than").
    - rewrite or_double_coalesce by assumption.
      destruct (cart_value conditions) as [v|] eqn:Ev; cbn [coalesce].
      + unfold double_gt. now apply positive_double, Hcv.
      + rewrite Hmin. exact Hm_lt.
    - destruct (String.eqb_spec op "less_than"); [congruence|].
      destruct (String.eqb_spec op "equals").
      + destruct (cart_value conditions) as [v|] eqn:Ev; [|reflexivity].
        unfold double_seq. now apply positive_double, Hcv.
      + destruct (String.eqb_spec op "between"); [|reflexivity].
        rewrite Hmin. unfold double_ge. now rewrite Hm_le. }
  split.
  - intros Hop. split; [auto|].
    intros rule tc Hty Hconds. unfold evaluateRules. simpl.
    rewrite Hty, Hconds. simpl. now rewrite Heval.
  - intros Hop. unfold evaluateCartValueConditions. rewrite Hop, cartTotal_nil. simpl.
    now rewrite or_double_coalesce.
Qed.

Lemma empty_cart_cart_value_min_witness :
  evaluateCartValueConditions greater_than_conditions [] = false.
Proof.
  refine (proj1 (proj1 (empty_cart_cart_value_min greater_than_conditions 50 _ _ _) _)).
  - reflexivity.
  - reflexivity.
  - simpl. discriminate.
  - simpl. discriminate.
Defined.

(** ** Time conditions *)

(** C9, as stated, fails: with [time_on_site_max] given as 0 and 30 seconds
    on site the threshold does not hold, yet the evaluator returns true. *)
Lemma time_threshold_zero_counterexample :
  evaluateTimeConditions max_zero_conditions thirty_seconds = true /\
  ~ spec_time max_zero_conditions thirty_seconds.
Proof.
  split; [reflexivity|].
  intros (_ & Hmax & _). specialize (Hmax 0 eq_refl). simpl in Hmax. lia.
Qed.

Lemma time_check_lt (threshold : option Z) (t : Z) :
  truthy_num threshold && js_lt t threshold = false <->
  (forall m, threshold = Some m -> m <> 0 -> m <= t).
Proof.
  destruct threshold as [m|]; unfold truthy_num, js_lt.
  - destruct (Z.eqb_spec m 0) as [->|Hm]; simpl.
    + split; [intros _ m [= <-] Hm; congruence | reflexivity].
    + split.
      * intros H k [= <-] _. lia.
      * intros H. specialize (H m eq_refl Hm). lia.
  - simpl. split; [intros _ m [=] | reflexivity].
Qed.

Lemma time_check_gt (threshold : option Z) (t : Z) :
  truthy_num threshold && js_gt t threshold = false <->
  (forall m, threshold = Some m -> m <> 0 -> t <= m).
Proof.
  destruct threshold as [m|]; unfold truthy_num, js_gt.
  - destruct (Z.eqb_spec m 0) as [->|Hm]; simpl.
    + split; [intros _ m [= <-] Hm; congruence | reflexivity].
    + split.
      * intros H k [= <-] _. lia.
      * intros H. specialize (H m eq_refl Hm). lia.
  - simpl. split; [intros _ m [=] | reflexivity].
Qed.

(** C9 (amended): the time evaluator returns true exactly when every
    threshold that is given with a non-zero value holds; a threshold that is
    absent, or given as 0, is taken as satisfied, and a condition without
    thresholds is true.  When no threshold is 0 (the rule schema admits
    positive thresholds only) this is the specification's condition. *)
Theorem evaluateTimeConditions_spec (conditions : TriggerConditions)
    (timeContext : TimeContext) :
  let t := default 0 (timeOnSite timeContext) in
  let a := default 0 (activeTimeOnSite timeContext) in
  (evaluateTimeConditions conditions timeContext = true <->
     (forall m, time_on_site_min conditions = Some m -> m <> 0 -> m <= t) /\
     (forall m, time_on_site_max conditions = Some m -> m <> 0 -> t <= m) /\
     (forall m, active_time_on_site_min conditions = Some m -> m <> 0 -> m <= a)) /\
  (time_on_site_min conditions = None ->
   time_on_site_max conditions = None ->
   active_time_on_site_min conditions = None ->
   evaluateTimeConditions conditions timeContext = true) /\
  (time_on_site_min conditions <> Some 0 ->
   time_on_site_max conditions <> Some 0 ->
   active_time_on_site_min conditions <> Some 0 ->
   (evaluateTimeConditions conditions timeContext = true <->
    spec_time conditions timeContext)).
Proof.
  intros t a.
  assert (Hiff : evaluateTimeConditions conditions timeContext = true <->
     (forall m, time_on_site_min conditions = Some m -> m <> 0 -> m <= t) /\
     (forall m, time_on_site_max conditions = Some m -> m <> 0 -> t <= m) /\
     (forall m, active_time_on_site_min conditions = Some m -> m <> 0 -> m <= a)).
  { unfold evaluateTimeConditions. rewrite !num_or_zero_default. fold t a.
    rewrite <- time_check_lt, <- time_check_gt, <- time_check_lt.
    destruct (truthy_num (time_on_site_min conditions) && _);
      [split; [discriminate | intros (H & _); discriminate]|].
    destruct (truthy_num (time_on_site_max conditions) && _);
      [split; [discriminate | intros (_ & H & _); discriminate]|].
    destruct (truthy_num (active_time_on_site_min conditions) && _);
      [split; [discriminate | intros (_ & _ & H); discriminate]|].
    tauto. }
  split; [exact Hiff|]. split.
  - intros H1 H2 H3. apply Hiff. rewrite H1, H2, H3.
    repeat split; intros m [=].
  - intros H1 H2 H3. rewrite Hiff. unfold spec_time. fold t a.
    repeat split; intros; try match goal with
    | H : _ /\ _ /\ _ |- _ => destruct H as (Ha & Hb & Hc)
    end; eauto; try congruence.
    + apply Ha; congruence.
    + apply Hb; congruence.
    + apply Hc; congruence.
Qed.

Lemma evaluateTimeConditions_spec_witness :
  evaluateTimeConditions two_minutes_conditions thirty_seconds = true <->
  spec_time two_minutes_conditions thirty_seconds.
Proof.
  apply (proj2 (proj2 (evaluateTimeConditions_spec two_minutes_conditions thirty_seconds)));
    simpl; discriminate.
Defined.

(** ** Category conditions *)

Lemma evaluateCategoryConditions_contains (c : string) (conditions : TriggerConditions)
    (cartItems : list CartItem) :
  category conditions = Some c ->
  default "contains" (category_operator conditions) = "contains" ->
  (evaluateCategoryConditions conditions cartItems = true <->
   exists item, In item cartItems /\ extractCategory (title item) = c).
Proof.
  intros Hc Hop. unfold evaluateCategoryConditions. rewrite Hc, Hop. simpl.
  destruct (String.eqb_spec c EmptyString) as [->|Hne]; simpl.
  - split; [discriminate|].
    intros (item & _ & H). now apply extractCategory_nonempty in H.
  - rewrite existsb_eqb_In, in_map_iff. split.
    + intros (item & H & Hin). eauto.
    + intros (item & Hin & H). eauto.
Qed.

(** C10: a category condition that gives a category and no
    [category_operator] is evaluated as [contains]: it holds, and the rule
    matcher keeps a category rule carrying it, exactly when some cart item's
    extracted category equals the category.  On the empty cart, for a
    non-empty category, [equals] and [not_contains] are true and [contains]
    is false. *)
Theorem category_operator_default (c : string) (conditions : TriggerConditions)
    (cartItems : list CartItem) :
  category conditions = Some c ->
  (category_operator conditions = None ->
     (evaluateCategoryConditions conditions cartItems = true <->
      exists item, In item cartItems /\ extractCategory (title item) = c) /\
     (forall rule timeContext,
        Rule.trigger_type rule = "category" ->
        Rule.trigger_conditions rule = conditions ->
        (In rule (evaluateRules [rule] cartItems timeContext) <->
         exists item, In item cartItems /\ extractCategory (title item) = c))) /\
  (c <> EmptyString ->
     (category_operator conditions = Some "equals" ->
      evaluateCategoryConditions conditions [] = true) /\
     (category_operator conditions = Some "not_contains" ->
      evaluateCategoryConditions conditions [] = true)) /\
  (category_operator conditions = Some "contains" \/
   category_operator conditions = None ->
   evaluateCategoryConditions conditions [] = false).
Proof.
  intros Hc. split; [|split].
  - intros Hop.
    assert (Hd : default "contains" (category_operator conditions) = "contains")
      by now rewrite Hop.
    split; [now apply evaluateCategoryConditions_contains|].
    intros rule tc Hty Hconds.
    rewrite <- (evaluateCategoryConditions_contains c conditions cartItems Hc Hd).
    unfold evaluateRules. simpl. rewrite Hty, Hconds. simpl.
    destruct (evaluateCategoryConditions conditions cartItems); simpl.
    + split; auto.
    + split; [contradiction | discriminate].
  - intros Hne. unfold evaluateCategoryConditions. rewrite Hc. simpl.
    destruct (String.eqb_spec c EmptyString); [contradiction|]. simpl.
    split; intros ->; reflexivity.
  - intros Hop. unfold evaluateCategoryConditions. rewrite Hc. simpl.
    destruct (String.eqb c EmptyString); simpl; [reflexivity|].
    destruct Hop as [-> | ->]; reflexivity.
Qed.

Lemma category_operator_default_witness :
  evaluateCategoryConditions coffee_conditions one_item_cart = true <->
  exists item, In item one_item_cart /\ extractCategory (title item) = "coffee".
Proof.
  refine (proj1 (proj1 (category_operator_default "coffee" coffee_conditions
                          one_item_cart _) _)); reflexivity.
Defined.

(** ** Campaign matcher *)

(** C2: the code diverges from the claim.  A campaign that is active by its
    status and whose window ended at time 2000 is not a candidate at time
    5000 under the claim; the campaign matcher keeps it, since a trigger
    product is in the cart, and [evaluateUpsells] serves its offer from a
    store that holds it.  No code of the engine compares [start_date] or
    [end_date] with a current time, although the engine is documented to
    fetch the active campaigns within their date range. *)
Theorem evaluateCampaigns_keeps_ended_campaign :
  let ended := summer_sale "active" (Some 2000) in
  let context := {| timeOnSite := Some 30; activeTimeOnSite := None |} in
  spec_campaign_matches 5000 ended one_item_cart = false /\
  evaluateCampaigns [ended] one_item_cart context = [ended] /\
  exists offer,
    fst (evaluateUpsells ended_campaign_store one_item_cart "s1" "u1" context [])
      = Returned (Some offer) /\
    Offer.type offer = "campaign" /\ Offer.id offer = "c1".
Proof.
  split; [reflexivity|]. split; [reflexivity|].
  eexists. split; [reflexivity|]. split; reflexivity.
Qed.

Lemma hasTriggerProducts_iff (campaign : Campaign.t) (cartItems : list CartItem) :
  hasTriggerProducts campaign cartItems = true <->
  exists triggerId item,
    In triggerId (Campaign.trigger_products campaign) /\
    In item cartItems /\ product_id item = triggerId.
Proof.
  unfold hasTriggerProducts. rewrite existsb_exists. split.
  - intros (tid & Htid & Hex). apply existsb_exists in Hex as (item & Hitem & Heq).
    apply String.eqb_eq in Heq. eauto.
  - intros (tid & item & Htid & Hitem & Heq). exists tid. split; [assumption|].
    apply existsb_exists. exists item. split; [assumption|].
    now apply String.eqb_eq.
Qed.

(** What the campaign matcher does: it keeps, in their order, the campaigns
    with a trigger product in the cart. *)
Theorem evaluateCampaigns_spec (campaigns : list Campaign.t)
    (cartItems : list CartItem) (timeContext : TimeContext) :
  (forall campaign,
     In campaign (evaluateCampaigns campaigns cartItems timeContext) <->
     In campaign campaigns /\
     exists triggerId item,
       In triggerId (Campaign.trigger_products campaign) /\
       In item cartItems /\ product_id item = triggerId) /\
  evaluateCampaigns campaigns cartItems timeContext =
  List.filter (fun campaign => hasTriggerProducts campaign cartItems) campaigns.
Proof.
  assert (Heq : evaluateCampaigns campaigns cartItems timeContext =
    List.filter (fun campaign => hasTriggerProducts campaign cartItems) campaigns).
  { unfold evaluateCampaigns. apply filter_ext. intros c.
    destruct (hasTriggerProducts c cartItems); [|reflexivity].
    now destruct (Campaign.target_audience c). }
  split; [|exact Heq].
  intros c. rewrite Heq, filter_In, hasTriggerProducts_iff. reflexivity.
Qed.

(** ** Offer selector: what the sort does *)

Lemma insertOffer_Permutation (x : Candidate.t) (l : list Candidate.t) :
  Permutation (x :: l) (insertOffer x l).
Proof.
  induction l as [|y l IH]; simpl; [reflexivity|].
  destruct (compareOffers y x <? 0); [|reflexivity].
  rewrite <- IH. apply perm_swap.
Qed.

Lemma sortOffers_Permutation (l : list Candidate.t) : Permutation l (sortOffers l).
Proof.
  induction l as [|x l IH]; simpl; [reflexivity|].
  rewrite <- insertOffer_Permutation. now constructor.
Qed.

Lemma insertOffer_sorted (x : Candidate.t) (l : list Candidate.t) :
  StronglySorted precedes l -> StronglySorted precedes (insertOffer x l).
Proof.
  induction 1 as [|y l Hl IH Hy]; simpl.
  - repeat constructor.
  - unfold compareOffers.
    destruct (Z.ltb_spec (Candidate.priority x - Candidate.priority y) 0).
    + constructor; [assumption|].
      rewrite <- insertOffer_Permutation. constructor; [unfold precedes; lia | assumption].
    + constructor; [now constructor|].
      constructor; [unfold precedes; lia|].
      eapply Forall_impl; [exact Hy|]. unfold precedes. intros; lia.
Qed.

Lemma sortOffers_sorted (l : list Candidate.t) : StronglySorted precedes (sortOffers l).
Proof.
  induction l as [|x l IH]; simpl; [constructor | now apply insertOffer_sorted].
Qed.

Lemma insertOffer_stable (p : Z) (x : Candidate.t) (l : list Candidate.t) :
  List.filter (fun c => Candidate.priority c =? p) (insertOffer x l) =
  List.filter (fun c => Candidate.priority c =? p) (x :: l).
Proof.
  induction l as [|y l IH]; [reflexivity|].
  cbn [insertOffer]. unfold compareOffers.
  destruct (Z.ltb_spec (Candidate.priority x - Candidate.priority y) 0); [|reflexivity].
  cbn [List.filter] in *.
  destruct (Z.eqb_spec (Candidate.priority y) p).
  - rewrite IH. destruct (Z.eqb_spec (Candidate.priority x) p); [lia | reflexivity].
  - exact IH.
Qed.

Lemma sortOffers_stable (p : Z) (l : list Candidate.t) :
  List.filter (fun c => Candidate.priority c =? p) (sortOffers l) =
  List.filter (fun c => Candidate.priority c =? p) l.
Proof.
  induction l as [|x l IH]; [reflexivity|].
  cbn [sortOffers foldr]. rewrite insertOffer_stable. cbn [List.filter].
  fold (sortOffers l). now rewrite IH.
Qed.

Lemma insertOffer_head (x : Candidate.t) (l : list Candidate.t) :
  head (insertOffer x l) =
  match head l with
  | Some y => if compareOffers y x <? 0 then Some y else Some x
  | None => Some x
  end.
Proof.
  destruct l as [|y l]; simpl; [reflexivity|].
  now destruct (compareOffers y x <? 0).
Qed.

(** The first element of the sorted list is the first candidate of maximal
    priority in insertion order. *)
Lemma sortOffers_head (l : list Candidate.t) (best : Candidate.t) :
  head (sortOffers l) = Some best ->
  exists pre post,
    l = (pre ++ best :: post)%list /\
    Forall (fun x => Candidate.priority x < Candidate.priority best) pre /\
    Forall (fun x => Candidate.priority x <= Candidate.priority best) post.
Proof.
  revert best. induction l as [|x l IH]; intros best; simpl; [discriminate|].
  rewrite insertOffer_head.
  destruct (head (sortOffers l)) as [y|] eqn:Hy.
  - destruct (IH y eq_refl) as (pre & post & -> & Hpre & Hpost).
    unfold compareOffers. destruct (Z.ltb_spec (Candidate.priority x - Candidate.priority y) 0).
    + intros [= <-]. exists (x :: pre), post. repeat split; [|assumption].
      constructor; [lia | assumption].
    + intros [= <-]. exists [], (pre ++ y :: post)%list. repeat split; [constructor|].
      apply Forall_app. split.
      * eapply Forall_impl; [exact Hpre|]. simpl. intros; lia.
      * constructor; [lia|]. eapply Forall_impl; [exact Hpost|]. simpl. intros; lia.
  - intros [= <-]. exists [], l. repeat split; [constructor|].
    assert (Hl : l = []).
    { apply Permutation_nil. rewrite (sortOffers_Permutation l).
      now destruct (sortOffers l). }
    subst. constructor.
Qed.

Lemma sortOffers_nil (l : list Candidate.t) : sortOffers l = [] <-> l = [].
Proof.
  split; [|now intros ->].
  intros H. apply Permutation_nil. now rewrite (sortOffers_Permutation l), H.
Qed.

Lemma selectBestUpsell_first_max (campaigns : list Campaign.t) (rules : list Rule.t)
    (cartItems : list CartItem) (offer : Offer.t) :
  selectBestUpsell campaigns rules cartItems = Some offer ->
  exists pre best post,
    (map campaignCandidate campaigns ++ map ruleCandidate rules)%list
      = (pre ++ best :: post)%list /\
    offer = toOffer best /\
    Forall (fun x => Candidate.priority x < Candidate.priority best) pre /\
    Forall (fun x => Candidate.priority x <= Candidate.priority best) post.
Proof.
  unfold selectBestUpsell.
  destruct (sortOffers (allOffers campaigns rules)) as [|best rest] eqn:Hs; [discriminate|].
  intros [= <-].
  destruct (sortOffers_head (allOffers campaigns rules) best) as (pre & post & H & Hpre & Hpost).
  { now rewrite Hs. }
  exists pre, best, post. auto.
Qed.

Lemma selectBestUpsell_None (campaigns : list Campaign.t) (rules : list Rule.t)
    (cartItems : list CartItem) :
  selectBestUpsell campaigns rules cartItems = None <-> campaigns = [] /\ rules = [].
Proof.
  unfold selectBestUpsell.
  destruct (sortOffers (allOffers campaigns rules)) as [|best rest] eqn:Hs.
  - apply (proj1 (sortOffers_nil _)) in Hs. unfold allOffers in Hs.
    apply app_eq_nil in Hs as [Hc Hr].
    apply map_eq_nil in Hc, Hr. tauto.
  - split; [discriminate|]. intros [-> ->]. discriminate.
Qed.

(** ** Offer selector: campaigns and rules *)

(** C1 on the code: a campaign with [override_existing_rules = true] and
    [campaign_priority] 10 meets a rule of priority 40, and the selector
    returns the rule; the flag is never read. *)
Theorem selectBestUpsell_ignores_override_flag :
  Campaign.override_existing_rules flash_campaign = true /\
  selectBestUpsell [flash_campaign] [big_cart_rule] one_item_cart =
  Some {| Offer.type := "rule"; Offer.id := "r1"; Offer.title := "Big cart";
          Offer.description := None; Offer.target_products := ["P9"];
          Offer.display_type := "cart"; Offer.display_settings := "{}";
          Offer.pricing_rules := "[]" |}.
Proof. split; reflexivity. Qed.

Lemma toOffer_type_campaign (campaign : Campaign.t) :
  Offer.type (toOffer (campaignCandidate campaign)) = "campaign".
Proof. reflexivity. Qed.

Lemma toOffer_type_rule (rule : Rule.t) :
  Offer.type (toOffer (ruleCandidate rule)) = "rule".
Proof. reflexivity. Qed.

Lemma selectBestUpsell_tie (campaign : Campaign.t) (rule : Rule.t)
    (cartItems : list CartItem) :
  Candidate.priority (campaignCandidate campaign) =
  Candidate.priority (ruleCandidate rule) ->
  selectBestUpsell [campaign] [rule] cartItems =
  Some (toOffer (campaignCandidate campaign)).
Proof.
  intros Heq. unfold selectBestUpsell, allOffers. simpl.
  unfold compareOffers. rewrite Heq, Z.sub_diag. reflexivity.
Qed.

(** C6, as stated, fails: no rule is ever selected over a campaign of equal
    priority. *)
Lemma rule_before_campaign_counterexample :
  ~ exists campaign rule cartItems,
      Candidate.priority (campaignCandidate campaign) =
      Candidate.priority (ruleCandidate rule) /\
      selectBestUpsell [campaign] [rule] cartItems =
      Some (toOffer (ruleCandidate rule)).
Proof.
  intros (c & r & cart & Heq & Hsel).
  rewrite (selectBestUpsell_tie c r cart Heq) in Hsel.
  injection Hsel as Hty _. discriminate.
Qed.

(** C6 (amended): the candidate list holds the campaigns first and the rules
    after them; the selected offer comes from the first candidate of maximal
    priority in that list, so between candidates of equal priority the one
    inserted earlier wins, and a campaign is selected over a rule of equal
    priority. *)
Theorem selectBestUpsell_tie_break (campaigns : list Campaign.t)
    (rules : list Rule.t) (cartItems : list CartItem) :
  allOffers campaigns rules =
    (map campaignCandidate campaigns ++ map ruleCandidate rules)%list /\
  (forall offer,
     selectBestUpsell campaigns rules cartItems = Some offer ->
     exists pre best post,
       allOffers campaigns rules = (pre ++ best :: post)%list /\
       offer = toOffer best /\
       Forall (fun x => Candidate.priority x < Candidate.priority best) pre /\
       Forall (fun x => Candidate.priority x <= Candidate.priority best) post) /\
  (forall campaign rule,
     Candidate.priority (campaignCandidate campaign) =
     Candidate.priority (ruleCandidate rule) ->
     selectBestUpsell [campaign] [rule] cartItems =
     Some (toOffer (campaignCandidate campaign))).
Proof.
  split; [reflexivity|]. split.
  - intros offer. apply selectBestUpsell_first_max.
  - intros c r. apply selectBestUpsell_tie.
Qed.

Lemma selectBestUpsell_tie_break_witness :
  selectBestUpsell [flash_campaign] [tied_rule] one_item_cart =
  Some (toOffer (campaignCandidate flash_campaign)).
Proof.
  apply (proj2 (proj2 (selectBestUpsell_tie_break [flash_campaign] [tied_rule]
                         one_item_cart)) flash_campaign tied_rule).
  reflexivity.
Defined.

(** ** Override resolver: suppression *)

Lemma applyRuleOverrides_flat (campaigns : list Campaign.t) (rules : list Rule.t) :
  applyRuleOverrides rules campaigns =
  fold_left applyOverride (allOverrides campaigns) rules.
Proof.
  unfold applyRuleOverrides, allOverrides. revert rules.
  induction campaigns as [|c cs IH]; intros rules; [reflexivity|].
  cbn [fold_left map concat]. rewrite fold_left_app, IH.
  unfold applyCampaignOverrides. now destruct (Campaign.rule_overrides c).
Qed.

Lemma elem_of_allOverrides (campaigns : list Campaign.t) (campaign : Campaign.t)
    (overrides : list Override.t) (override : Override.t) :
  campaign ∈ campaigns ->
  Campaign.rule_overrides campaign = Some overrides ->
  override ∈ overrides ->
  override ∈ allOverrides campaigns.
Proof.
  intros Hc Hovs Ho. unfold allOverrides.
  apply list_elem_of_In, in_concat. exists overrides. split.
  - apply in_map_iff. exists campaign. rewrite Hovs. split; [reflexivity|].
    now apply list_elem_of_In.
  - now apply list_elem_of_In.
Qed.

Lemma findIndex_Some (rid : string) (rules : list Rule.t) (i : nat) :
  findIndex rid rules = Some i ->
  exists rule, rules !! i = Some rule /\ Rule.id rule = rid.
Proof.
  revert i. induction rules as [|r rules IH]; intros i; simpl; [discriminate|].
  destruct (String.eqb_spec (Rule.id r) rid) as [Heq|Hne].
  - intros [= <-]. eauto.
  - destruct (findIndex rid rules) as [j|]; simpl; [|discriminate].
    intros [= <-]. apply (IH j eq_refl).
Qed.

Lemma findIndex_None (rid : string) (rules : list Rule.t) :
  findIndex rid rules = None <-> rid ∉ Rule.id <$> rules.
Proof.
  induction rules as [|r rules IH]; simpl.
  - split; [intros _ H; inversion H | reflexivity].
  - rewrite not_elem_of_cons.
    destruct (String.eqb_spec (Rule.id r) rid) as [Heq|Hne].
    + split; [discriminate | intros [H _]; congruence].
    + destruct (findIndex rid rules) as [j|]; simpl.
      * split; [discriminate|]. intros [_ H]. now apply IH in H.
      * split; [|reflexivity]. intros _. split; [congruence | now apply IH].
Qed.

(** No override adds a rule or changes an [id]. *)
Lemma applyOverride_ids (rules : list Rule.t) (override : Override.t) :
  (Rule.id <$> applyOverride rules override) `sublist_of` (Rule.id <$> rules).
Proof.
  unfold applyOverride.
  destruct (findIndex (Override.rule_id override) rules) as [i|] eqn:Hi; [|reflexivity].
  destruct (String.eqb (Override.override_type override) "enhance").
  - destruct (rules !! i) as [rule|] eqn:Hrule; [|reflexivity].
    rewrite list_fmap_insert. cbn [Rule.with_priority Rule.id].
    rewrite list_insert_id; [reflexivity|].
    now rewrite list_lookup_fmap, Hrule.
  - destruct (String.eqb (Override.override_type override) "suppress"); [|reflexivity].
    rewrite list_fmap_delete. apply sublist_delete.
Qed.

Lemma fold_applyOverride_ids (overrides : list Override.t) (rules : list Rule.t) :
  (Rule.id <$> fold_left applyOverride overrides rules) `sublist_of` (Rule.id <$> rules).
Proof.
  revert rules. induction overrides as [|o ovs IH]; intros rules; simpl; [reflexivity|].
  etransitivity; [apply IH | apply applyOverride_ids].
Qed.

Lemma NoDup_delete_lookup {A} (l : list A) (i : nat) (x : A) :
  NoDup l -> l !! i = Some x -> x ∉ delete i l.
Proof.
  intros Hnd Hi Hin. apply list_elem_of_lookup in Hin as [j Hj].
  destruct (Nat.lt_ge_cases j i) as [Hlt|Hge].
  - rewrite list_lookup_delete_lt in Hj by assumption.
    pose proof (NoDup_lookup _ _ _ _ Hnd Hi Hj). lia.
  - rewrite list_lookup_delete_ge in Hj by assumption.
    pose proof (NoDup_lookup _ _ _ _ Hnd Hi Hj). lia.
Qed.

Lemma applyOverride_suppress (rules : list Rule.t) (override : Override.t) :
  NoDup (Rule.id <$> rules) ->
  Override.override_type override = "suppress" ->
  Override.rule_id override ∉ Rule.id <$> applyOverride rules override.
Proof.
  intros Hnd Hty. unfold applyOverride.
  destruct (findIndex (Override.rule_id override) rules) as [i|] eqn:Hi.
  - rewrite Hty. cbn.
    destruct (findIndex_Some _ _ _ Hi) as (rule & Hrule & Hid).
    rewrite list_fmap_delete. apply NoDup_delete_lookup; [assumption|].
    now rewrite list_lookup_fmap, Hrule, <- Hid.
  - now apply findIndex_None.
Qed.

Lemma applyOverride_absent (rules : list Rule.t) (override : Override.t) :
  Override.rule_id override ∉ Rule.id <$> rules ->
  applyOverride rules override = rules.
Proof.
  intros Habs. apply findIndex_None in Habs. unfold applyOverride. now rewrite Habs.
Qed.

Lemma fold_applyOverride_suppress (overrides : list Override.t) (rules : list Rule.t)
    (suppress : Override.t) :
  NoDup (Rule.id <$> rules) ->
  suppress ∈ overrides ->
  Override.override_type suppress = "suppress" ->
  Override.rule_id suppress ∉ Rule.id <$> fold_left applyOverride overrides rules.
Proof.
  intros Hnd Hin Hty. revert rules Hnd.
  induction overrides as [|o ovs IH]; intros rules Hnd; [inversion Hin|].
  cbn [fold_left]. apply elem_of_cons in Hin as [<- | Hin].
  - intros H. eapply applyOverride_suppress; [exact Hnd | exact Hty |].
    eapply elem_of_sublist; [exact H | apply fold_applyOverride_ids].
  - apply IH; [exact Hin|].
    eapply sublist_NoDup; [exact Hnd | apply applyOverride_ids].
Qed.

(** The rule matcher keeps the ids of the stored rules distinct. *)
Lemma evaluateRules_NoDup (rules : list Rule.t) (cartItems : list CartItem)
    (timeContext : TimeContext) :
  NoDup (Rule.id <$> rules) ->
  NoDup (Rule.id <$> evaluateRules rules cartItems timeContext).
Proof.
  intros Hnd. eapply sublist_NoDup; [exact Hnd|].
  unfold evaluateRules. clear Hnd.
  induction rules as [|r rules IH]; cbn [List.filter fmap list_fmap]; [constructor|].
  match goal with
  | |- context [if ?b then _ else _] => destruct b
  end.
  - now apply sublist_skip.
  - now apply sublist_cons.
Qed.

(** C3: with rule ids distinct (they are the primary key of the rule
    table), a rule named by a [suppress] override of a matched campaign is
    absent from the resolved rule list, so the selected offer is never that
    rule; and an override naming the same rule later in the sequence has no
    effect: the resolved list is the one obtained without it. *)
Theorem suppress_removes_rule (rules : list Rule.t) (campaigns : list Campaign.t)
    (campaign : Campaign.t) (overrides : list Override.t)
    (suppress : Override.t) (cartItems : list CartItem) :
  NoDup (Rule.id <$> rules) ->
  campaign ∈ campaigns ->
  Campaign.rule_overrides campaign = Some overrides ->
  suppress ∈ overrides ->
  Override.override_type suppress = "suppress" ->
  (forall rule, rule ∈ applyRuleOverrides rules campaigns ->
     Rule.id rule <> Override.rule_id suppress) /\
  (forall offer,
     selectBestUpsell campaigns (applyRuleOverrides rules campaigns) cartItems
       = Some offer ->
     ~ (Offer.type offer = "rule" /\ Offer.id offer = Override.rule_id suppress)) /\
  (forall before enhance after,
     allOverrides campaigns = (before ++ enhance :: after)%list ->
     suppress ∈ before ->
     Override.rule_id enhance = Override.rule_id suppress ->
     applyRuleOverrides rules campaigns =
     fold_left applyOverride (before ++ after)%list rules).
Proof.
  intros Hnd Hc Hovs Hs Hty.
  assert (Habs : forall rule, rule ∈ applyRuleOverrides rules campaigns ->
                   Rule.id rule <> Override.rule_id suppress).
  { intros rule Hin Heq.
    apply (fold_applyOverride_suppress (allOverrides campaigns) rules suppress Hnd);
      [eauto using elem_of_allOverrides | assumption |].
    rewrite <- applyRuleOverrides_flat, <- Heq. now apply list_elem_of_fmap_2. }
  split; [exact Habs|]. split.
  - intros offer Hsel [Htype Hid].
    apply selectBestUpsell_first_max in Hsel as (pre & best & post & Hall & -> & _).
    assert (Hin : In best (map campaignCandidate campaigns ++
                           map ruleCandidate (applyRuleOverrides rules campaigns))).
    { rewrite Hall. apply in_elt. }
    apply in_app_or in Hin as [Hin|Hin]; apply in_map_iff in Hin as (x & <- & Hx).
    + discriminate Htype.
    + apply (Habs x); [now apply list_elem_of_In | exact Hid].
  - intros before enhance after Hall Hbefore Hid.
    rewrite applyRuleOverrides_flat, Hall, !fold_left_app. cbn [fold_left].
    rewrite applyOverride_absent; [reflexivity|].
    rewrite Hid. now apply fold_applyOverride_suppress.
Qed.

Example suppress_then_enhance :
  applyRuleOverrides [premium_rule; tied_rule] [takeover_campaign] = [tied_rule].
Proof. reflexivity. Qed.

Example enhance_then_suppress :
  applyRuleOverrides [premium_rule; tied_rule]
    [with_overrides flash_campaign [enhance_r1; suppress_r1]] = [tied_rule].
Proof. reflexivity. Qed.

Example enhance_boost :
  Rule.priority <$> applyRuleOverrides [premium_rule; tied_rule]
    [with_overrides flash_campaign [enhance_r1]] = [120; 10].
Proof. reflexivity. Qed.

Lemma suppress_removes_rule_witness :
  applyRuleOverrides [premium_rule; tied_rule] [takeover_campaign] =
  fold_left applyOverride ([suppress_r1] ++ [])%list [premium_rule; tied_rule].
Proof.
  refine (proj2 (proj2 (suppress_removes_rule [premium_rule; tied_rule]
            [takeover_campaign] takeover_campaign [suppress_r1; enhance_r1]
            suppress_r1 [] _ _ _ _ _)) [suppress_r1] enhance_r1 [] _ _ _).
  - apply NoDup_cons. split; [|apply NoDup_singleton].
    simpl. intros H. apply list_elem_of_singleton in H. discriminate H.
  - apply list_elem_of_here.
  - reflexivity.
  - apply list_elem_of_here.
  - reflexivity.
  - reflexivity.
  - apply list_elem_of_here.
  - reflexivity.
Defined.

(** ** Store failures in [evaluateUpsells] *)

Lemma bind_returned {S A B} (m : Eff S A) (k : A -> Eff S B) (s s' : S) (a : A) :
  m s = (Returned a, s') -> (m ≫= k) s = k a s'.
Proof. intros H. unfold mbind, Eff_bind. now rewrite H. Qed.

Lemma try_catch_returned {S A} (body : Eff S A) (handler : string -> Eff S A)
    (s s' : S) (a : A) :
  body s = (Returned a, s') -> try_catch body handler s = (Returned a, s').
Proof. intros H. unfold try_catch. now rewrite H. Qed.

Lemma try_catch_thrown {S A} (body : Eff S A) (handler : string -> Eff S A)
    (s s' : S) (e : string) :
  body s = (Thrown e, s') -> try_catch body handler s = handler e s'.
Proof. intros H. unfold try_catch. now rewrite H. Qed.

Lemma mapAll_total {S A B} (f : A -> Eff S B) (xs : list A) :
  (forall x s, exists y s', f x s = (Returned y, s')) ->
  forall s, exists ys s', mapAll f xs s = (Returned ys, s').
Proof.
  intros Hf. induction xs as [|x xs IH]; intros s; cbn [mapAll].
  - now exists [], s.
  - destruct (Hf x s) as (y & s1 & Hy). destruct (IH s1) as (ys & s2 & Hys).
    exists (y :: ys), s2.
    rewrite (bind_returned _ _ _ _ _ Hy), (bind_returned _ _ _ _ _ Hys).
    reflexivity.
Qed.

Lemma rule_products_total (supabase : Supabase) (rule : Rule.t) (entries : Log) :
  exists rule' entries',
    try_catch
      (products ← await_data_or_empty (get_rule_target_products supabase (Rule.id rule));
       mret (with_target_products rule products))
      (fun error =>
         log LWarn "Failed to get target products for rule" error ≫= fun _ =>
         mret (with_target_products rule [])) entries
    = (Returned rule', entries').
Proof.
  unfold try_catch, mbind, Eff_bind, mret, Eff_ret, await_data_or_empty, throw, log.
  destruct (get_rule_target_products supabase (Rule.id rule)); eauto.
Qed.

Lemma campaign_products_total (supabase : Supabase) (campaign : Campaign.t)
    (entries : Log) :
  exists campaign' entries',
    try_catch
      (triggerProducts ← await_data_or_empty
         (get_campaign_trigger_products supabase (Campaign.id campaign));
       upsellProducts ← await_data_or_empty
         (get_campaign_upsell_products supabase (Campaign.id campaign));
       mret (with_products campaign triggerProducts upsellProducts))
      (fun error =>
         log LWarn "Failed to get products for campaign" error ≫= fun _ =>
         mret (with_products campaign [] [])) entries
    = (Returned campaign', entries').
Proof.
  unfold try_catch, mbind, Eff_bind, mret, Eff_ret, await_data_or_empty, throw, log.
  destruct (get_campaign_trigger_products supabase (Campaign.id campaign));
    destruct (get_campaign_upsell_products supabase (Campaign.id campaign)); eauto.
Qed.

(** A failed read of the rules is logged and answered with the empty
    list. *)
Lemma getActiveRules_total (supabase : Supabase) (user_id : string) (entries : Log) :
  exists rules entries',
    getActiveRules supabase user_id entries = (Returned rules, entries') /\
    (query_failed (select_rules supabase user_id) ->
     rules = [] /\
     exists error, entries' =
       (entries ++ [{| level := LError; message := "Failed to get active rules";
                       detail := error |}])%list).
Proof.
  unfold getActiveRules.
  destruct (select_rules supabase user_id) as [data|error|error] eqn:Hq; cbn [query_failed].
  - match goal with
    | |- context [mapAll ?f] =>
      destruct (mapAll_total f data (rule_products_total supabase) entries)
        as (rules & entries' & Hmap)
    end.
    exists rules, entries'. split; [|contradiction].
    apply try_catch_returned.
    erewrite bind_returned; [exact Hmap | reflexivity].
  - eexists [], _. split; [reflexivity | eauto].
  - eexists [], _. split; [reflexivity | eauto].
Qed.

Lemma getActiveCampaigns_total (supabase : Supabase) (user_id : string)
    (entries : Log) :
  exists campaigns entries',
    getActiveCampaigns supabase user_id entries = (Returned campaigns, entries') /\
    (query_failed (select_campaigns supabase user_id) ->
     campaigns = [] /\
     exists error, entries' =
       (entries ++ [{| level := LError; message := "Failed to get active campaigns";
                       detail := error |}])%list).
Proof.
  unfold getActiveCampaigns.
  destruct (select_campaigns supabase user_id) as [data|error|error] eqn:Hq; cbn [query_failed].
  - match goal with
    | |- context [mapAll ?f] =>
      destruct (mapAll_total f data (campaign_products_total supabase) entries)
        as (campaigns & entries' & Hmap)
    end.
    exists campaigns, entries'. split; [|contradiction].
    apply try_catch_returned.
    erewrite bind_returned; [exact Hmap | reflexivity].
  - eexists [], _. split; [reflexivity | eauto].
  - eexists [], _. split; [reflexivity | eauto].
Qed.

Lemma trackUpsellEvaluation_total (supabase : Supabase) (sessionId : string)
    (cartItems : list CartItem) (offer : option Offer.t) (user_id : string)
    (entries : Log) :
  exists entries',
    trackUpsellEvaluation supabase sessionId cartItems offer user_id entries =
    (Returned tt, entries').
Proof.
  unfold trackUpsellEvaluation, try_catch, await_or_throw, throw, log, mret, Eff_ret.
  destruct (insert_evaluation supabase sessionId (Offer.id <$> offer)) as [[]| |]; eauto.
Qed.

(** On rows and cart items of the shapes above, [evaluateUpsells] returns:
    every failure of the store is caught before it reaches the outer
    handler. *)
Lemma evaluateUpsells_total (supabase : Supabase) (cartItems : list CartItem)
    (sessionId user_id : string) (timeContext : TimeContext) (entries : Log) :
  exists activeRules activeCampaigns entries0 entries1 entries2 entries3,
    log LDebug "Evaluating upsells" sessionId entries = (Returned tt, entries0) /\
    getActiveRules supabase user_id entries0 = (Returned activeRules, entries1) /\
    getActiveCampaigns supabase user_id entries1 = (Returned activeCampaigns, entries2) /\
    evaluateUpsells supabase cartItems sessionId user_id timeContext entries =
    (Returned
       (resolveAndSelect (evaluateCampaigns activeCampaigns cartItems timeContext)
          (evaluateRules activeRules cartItems timeContext) cartItems),
     entries3).
Proof.
  set (entries0 := (entries ++ [{| level := LDebug; message := "Evaluating upsells";
                                   detail := sessionId |}])%list).
  destruct (getActiveRules_total supabase user_id entries0) as (rs & e1 & Hr & _).
  destruct (getActiveCampaigns_total supabase user_id e1) as (cs & e2 & Hc & _).
  set (offer := resolveAndSelect (evaluateCampaigns cs cartItems timeContext)
                  (evaluateRules rs cartItems timeContext) cartItems).
  destruct (trackUpsellEvaluation_total supabase sessionId cartItems offer user_id e2)
    as (e3 & Ht).
  exists rs, cs, entries0, e1, e2, e3. repeat split; try assumption.
  unfold evaluateUpsells. apply try_catch_returned.
  erewrite bind_returned by reflexivity. fold entries0.
  rewrite (bind_returned _ _ _ _ _ Hr), (bind_returned _ _ _ _ _ Hc).
  fold offer. unfold resolveAndSelect in offer. fold offer.
  now rewrite (bind_returned _ _ _ _ _ Ht).
Qed.

(** C5, as stated, fails: with both reads failing [evaluateUpsells] returns
    [null] to its caller, and with the rule read failing it returns the
    campaign offer chosen without any rule; nothing is thrown. *)
Lemma read_failure_counterexample :
  query_failed (select_rules unreachable_store "u1") /\
  query_failed (select_campaigns unreachable_store "u1") /\
  fst (evaluateUpsells unreachable_store one_item_cart "s1" "u1" thirty_seconds [])
    = Returned None /\
  query_failed (select_rules half_store "u1") /\
  fst (evaluateUpsells half_store one_item_cart "s1" "u1" thirty_seconds [])
    = Returned (Some (toOffer (campaignCandidate flash_campaign))).
Proof. repeat split. Qed.

(** C5 (amended): when the read of the active rules or of the active
    campaigns fails, the reader logs the failure and answers with the empty
    list, and [evaluateUpsells] does not throw: it returns the offer
    selected from the lists the two readers answered with, the empty list
    standing for each failed read. *)
Theorem evaluateUpsells_read_failure (supabase : Supabase)
    (cartItems : list CartItem) (sessionId user_id : string)
    (timeContext : TimeContext) (entries : Log) :
  query_failed (select_rules supabase user_id) \/
  query_failed (select_campaigns supabase user_id) ->
  exists activeRules activeCampaigns entries0 entries1 entries2 entries3,
    log LDebug "Evaluating upsells" sessionId entries = (Returned tt, entries0) /\
    getActiveRules supabase user_id entries0 = (Returned activeRules, entries1) /\
    getActiveCampaigns supabase user_id entries1 = (Returned activeCampaigns, entries2) /\
    (query_failed (select_rules supabase user_id) ->
     activeRules = [] /\
     exists error, entries1 =
       (entries0 ++ [{| level := LError; message := "Failed to get active rules";
                        detail := error |}])%list) /\
    (query_failed (select_campaigns supabase user_id) ->
     activeCampaigns = [] /\
     exists error, entries2 =
       (entries1 ++ [{| level := LError; message := "Failed to get active campaigns";
                        detail := error |}])%list) /\
    evaluateUpsells supabase cartItems sessionId user_id timeContext entries =
    (Returned
       (resolveAndSelect (evaluateCampaigns activeCampaigns cartItems timeContext)
          (evaluateRules activeRules cartItems timeContext) cartItems),
     entries3).
Proof.
  intros _.
  destruct (evaluateUpsells_total supabase cartItems sessionId user_id timeContext entries)
    as (rs & cs & e0 & e1 & e2 & e3 & H0 & Hr & Hc & Heval).
  exists rs, cs, e0, e1, e2, e3. repeat split; try assumption.
  - destruct (getActiveRules_total supabase user_id e0) as (rs' & e1' & Hr' & Hfail).
    rewrite Hr in Hr'. injection Hr' as <- <-. now apply Hfail.
  - destruct (getActiveRules_total supabase user_id e0) as (rs' & e1' & Hr' & Hfail).
    rewrite Hr in Hr'. injection Hr' as <- <-. now apply Hfail.
  - destruct (getActiveCampaigns_total supabase user_id e1) as (cs' & e2' & Hc' & Hfail).
    rewrite Hc in Hc'. injection Hc' as <- <-. now apply Hfail.
  - destruct (getActiveCampaigns_total supabase user_id e1) as (cs' & e2' & Hc' & Hfail).
    rewrite Hc in Hc'. injection Hc' as <- <-. now apply Hfail.
Qed.

Lemma evaluateUpsells_read_failure_witness :
  exists activeRules activeCampaigns entries0 entries1 entries2 entries3,
    log LDebug "Evaluating upsells" "s1" [] = (Returned tt, entries0) /\
    getActiveRules half_store "u1" entries0 = (Returned activeRules, entries1) /\
    getActiveCampaigns half_store "u1" entries1 = (Returned activeCampaigns, entries2) /\
    (query_failed (select_rules half_store "u1") ->
     activeRules = [] /\
     exists error, entries1 =
       (entries0 ++ [{| level := LError; message := "Failed to get active rules";
                        detail := error |}])%list) /\
    (query_failed (select_campaigns half_store "u1") ->
     activeCampaigns = [] /\
     exists error, entries2 =
       (entries1 ++ [{| level := LError; message := "Failed to get active campaigns";
                        detail := error |}])%list) /\
    evaluateUpsells half_store one_item_cart "s1" "u1" thirty_seconds [] =
    (Returned
       (resolveAndSelect (evaluateCampaigns activeCampaigns one_item_cart thirty_seconds)
          (evaluateRules activeRules one_item_cart thirty_seconds) one_item_cart),
     entries3).
Proof.
  apply (evaluateUpsells_read_failure half_store one_item_cart "s1" "u1"
           thirty_seconds []).
  left. simpl. exact I.
Defined.

(** ** The resolver on shared objects *)

Lemma frame_refl (arr : loc) (h : Heap) : frame arr h h.
Proof. split; [lia | reflexivity]. Qed.

Lemma frame_trans (arr : loc) (h1 h2 h3 : Heap) :
  frame arr h1 h2 -> frame arr h2 h3 -> frame arr h1 h3.
Proof.
  intros [Hlen1 H1] [Hlen2 H2]. split; [lia|].
  intros l Hne Hlt. rewrite H2 by (auto; lia). now apply H1.
Qed.

Lemma findIndexH_spec (rid : string) (h : Heap) (elems : list loc)
    (rules : list Rule.t) :
  Forall2 (fun l rule => h !! l = Some (CRule rule)) elems rules ->
  findIndexH rid elems h = (Returned (findIndex rid rules), h).
Proof.
  induction 1 as [|l rule elems rules Hl _ IH]; [reflexivity|].
  cbn [findIndexH findIndex].
  erewrite bind_returned by (unfold read_rule; now rewrite Hl).
  destruct (String.eqb (Rule.id rule) rid); [reflexivity|].
  now rewrite (bind_returned _ _ _ _ _ IH).
Qed.

Lemma mapAll_read_rule (h : Heap) (elems : list loc) (rules : list Rule.t) :
  Forall2 (fun l rule => h !! l = Some (CRule rule)) elems rules ->
  mapAll read_rule elems h = (Returned rules, h).
Proof.
  induction 1 as [|l rule elems rules Hl _ IH]; [reflexivity|].
  cbn [mapAll].
  erewrite bind_returned by (unfold read_rule; now rewrite Hl).
  now rewrite (bind_returned _ _ _ _ _ IH).
Qed.

Lemma rules_at_write (h : Heap) (arr : loc) (old elems : list loc)
    (rules : list Rule.t) :
  h !! arr = Some (CArray old) ->
  Forall2 (fun l rule => h !! l = Some (CRule rule)) elems rules ->
  rules_at (<[arr := CArray elems]> h) arr rules.
Proof.
  intros Harr Hall. exists elems. split.
  - apply list_lookup_insert_eq. now apply lookup_lt_Some in Harr.
  - eapply Forall2_impl; [exact Hall|]. intros l rule Hl. cbv beta in *.
    rewrite list_lookup_insert_ne; [assumption | congruence].
Qed.

Lemma frame_write (h : Heap) (arr : loc) (c : Cell) : frame arr h (<[arr := c]> h).
Proof.
  split; [now rewrite length_insert|].
  intros l Hne _. now apply list_lookup_insert_ne.
Qed.

Lemma frame_alloc (arr : loc) (h : Heap) (c : Cell) : frame arr h (h ++ [c]).
Proof.
  split; [rewrite length_app; lia|].
  intros l _ Hlt. now apply lookup_app_l.
Qed.

(** One override on the heap does to the working array what [applyOverride]
    does to the list of rule values, and writes nothing else. *)
Lemma applyOverrideH_spec (arr : loc) (override : Override.t) (h : Heap)
    (rules : list Rule.t) :
  rules_at h arr rules ->
  exists h',
    applyOverrideH arr override h = (Returned tt, h') /\
    rules_at h' arr (applyOverride rules override) /\
    frame arr h h'.
Proof.
  intros (elems & Harr & Hall). unfold applyOverrideH, applyOverride.
  erewrite bind_returned by (unfold read_array; now rewrite Harr).
  rewrite (bind_returned _ _ _ _ _ (findIndexH_spec _ _ _ _ Hall)).
  destruct (findIndex (Override.rule_id override) rules) as [i|] eqn:Hi.
  2: { exists h. split; [reflexivity|]. split; [now exists elems | apply frame_refl]. }
  destruct (findIndex_Some _ _ _ Hi) as (rule & Hrule & _).
  destruct (Forall2_lookup_r _ _ _ _ _ Hall Hrule) as (l & Hl & Hpt).
  destruct (String.eqb (Override.override_type override) "enhance").
  - rewrite Hl, Hrule.
    erewrite bind_returned by (unfold read_rule; now rewrite Hpt).
    erewrite bind_returned by reflexivity.
    eexists. split; [reflexivity|].
    assert (Hlt : (arr < length h)%nat) by now apply lookup_lt_Some in Harr.
    split.
    + eapply rules_at_write.
      * rewrite lookup_app_l by assumption. exact Harr.
      * apply Forall2_insert.
        -- eapply Forall2_impl; [exact Hall|]. cbn. intros l' r' Hl'.
           rewrite lookup_app_l; [assumption | now apply lookup_lt_Some in Hl'].
        -- now rewrite list_lookup_middle.
    + eapply frame_trans; [apply frame_alloc | apply frame_write].
  - destruct (String.eqb (Override.override_type override) "suppress").
    + eexists. split; [reflexivity|]. split; [|apply frame_write].
      eapply rules_at_write; [exact Harr|]. now apply Forall2_delete.
    + exists h. split; [reflexivity|]. split; [now exists elems | apply frame_refl].
Qed.

Lemma forEach_spec {A} (arr : loc) (body : A -> Eff Heap unit)
    (g : list Rule.t -> A -> list Rule.t) :
  (forall x h rules, rules_at h arr rules ->
     exists h', body x h = (Returned tt, h') /\
                rules_at h' arr (g rules x) /\ frame arr h h') ->
  forall xs h rules, rules_at h arr rules ->
    exists h', forEach body xs h = (Returned tt, h') /\
               rules_at h' arr (fold_left g xs rules) /\ frame arr h h'.
Proof.
  intros Hbody xs. induction xs as [|x xs IH]; intros h rules Hat; cbn [forEach fold_left].
  - exists h. split; [reflexivity|]. split; [assumption | apply frame_refl].
  - destruct (Hbody x h rules Hat) as (h1 & Hrun1 & Hat1 & Hfr1).
    destruct (IH h1 (g rules x) Hat1) as (h2 & Hrun2 & Hat2 & Hfr2).
    exists h2. rewrite (bind_returned _ _ _ _ _ Hrun1).
    split; [assumption|]. split; [assumption | eapply frame_trans; eassumption].
Qed.

Lemma applyCampaignOverridesH_spec (arr : loc) (campaign : Campaign.t) (h : Heap)
    (rules : list Rule.t) :
  rules_at h arr rules ->
  exists h',
    applyCampaignOverridesH arr campaign h = (Returned tt, h') /\
    rules_at h' arr (applyCampaignOverrides rules campaign) /\
    frame arr h h'.
Proof.
  intros Hat. unfold applyCampaignOverridesH, applyCampaignOverrides.
  destruct (Campaign.rule_overrides campaign) as [overrides|].
  - apply (forEach_spec arr (applyOverrideH arr) applyOverride); [|assumption].
    intros o h0 rs. apply applyOverrideH_spec.
  - exists h. split; [reflexivity|]. split; [assumption | apply frame_refl].
Qed.

(** The resolver on the heap computes [applyRuleOverrides] in a fresh array
    and leaves every cell that existed before as it was. *)
Lemma applyRuleOverridesH_spec (a : loc) (campaigns : list Campaign.t) (h : Heap)
    (rules : list Rule.t) :
  rules_at h a rules ->
  exists h',
    applyRuleOverridesH a campaigns h = (Returned (length h), h') /\
    rules_at h' (length h) (applyRuleOverrides rules campaigns) /\
    (length h <= length h')%nat /\
    (forall l, (l < length h)%nat -> h' !! l = h !! l).
Proof.
  intros (elems & Ha & Hall). unfold applyRuleOverridesH.
  erewrite bind_returned by (unfold read_array; now rewrite Ha).
  erewrite bind_returned by reflexivity.
  assert (Hat : rules_at (h ++ [CArray elems]) (length h) rules).
  { exists elems. split; [now rewrite list_lookup_middle|].
    eapply Forall2_impl; [exact Hall|]. intros l r Hl. cbv beta in *.
    rewrite lookup_app_l; [assumption | now apply lookup_lt_Some in Hl]. }
  destruct (forEach_spec (length h) (applyCampaignOverridesH (length h))
              applyCampaignOverrides
              (fun c h0 rs => applyCampaignOverridesH_spec (length h) c h0 rs)
              campaigns _ _ Hat) as (h' & Hrun & Hat' & Hlen & Hfr).
  exists h'. rewrite (bind_returned _ _ _ _ _ Hrun).
  split; [reflexivity|]. split; [exact Hat'|].
  rewrite length_app in Hlen, Hfr. cbn in Hlen, Hfr. split; [lia|].
  intros l Hlt. rewrite Hfr by lia. now apply lookup_app_l.
Qed.

Lemma selectBestUpsellH_spec (campaigns : list Campaign.t) (a : loc)
    (cartItems : list CartItem) (h : Heap) (rules : list Rule.t) :
  rules_at h a rules ->
  selectBestUpsellH campaigns a cartItems h =
  (Returned (selectBestUpsell campaigns rules cartItems), h).
Proof.
  intros (elems & Ha & Hall). unfold selectBestUpsellH.
  erewrite bind_returned by (unfold read_array; now rewrite Ha).
  now rewrite (bind_returned _ _ _ _ _ (mapAll_read_rule _ _ _ Hall)).
Qed.

Lemma rules_at_preserved (h h' : Heap) (a : loc) (rules : list Rule.t) :
  (forall l, (l < length h)%nat -> h' !! l = h !! l) ->
  rules_at h a rules -> rules_at h' a rules.
Proof.
  intros Hsame (elems & Ha & Hall). exists elems. split.
  - rewrite Hsame; [assumption | now apply lookup_lt_Some in Ha].
  - eapply Forall2_impl; [exact Hall|]. intros l r Hl. cbv beta in *.
    rewrite Hsame; [assumption | now apply lookup_lt_Some in Hl].
Qed.

Lemma resolveAndSelectH_spec (campaigns : list Campaign.t) (a : loc)
    (cartItems : list CartItem) (h : Heap) (rules : list Rule.t) :
  rules_at h a rules ->
  exists h',
    resolveAndSelectH campaigns a cartItems h =
      (Returned (resolveAndSelect campaigns rules cartItems), h') /\
    (forall l, (l < length h)%nat -> h' !! l = h !! l).
Proof.
  intros Hat. unfold resolveAndSelectH, resolveAndSelect.
  destruct (applyRuleOverridesH_spec a campaigns h rules Hat)
    as (h' & Hrun & Hat' & _ & Hsame).
  exists h'. rewrite (bind_returned _ _ _ _ _ Hrun).
  split; [|exact Hsame]. now apply selectBestUpsellH_spec.
Qed.

(** ** Repeated evaluation *)

Example resolveAndSelectH_run :
  resolveAndSelectH [boost_campaign] 2%nat one_item_cart shop_heap =
  (Returned (Some (toOffer (ruleCandidate tied_rule))),
   (shop_heap ++ [CArray [0%nat; 4%nat]; CRule (Rule.with_priority tied_rule 105)])%list).
Proof. reflexivity. Qed.

(** C4: resolving and selecting over a rule array on the heap returns the
    offer that the pure functions compute from the rule values, and leaves
    the array and every rule object as they were: the working copy and the
    boosted rules are new cells.  A second evaluation therefore starts from
    the same rules and priorities and returns the identical offer, the
    same winner among candidates of equal priority included. *)
Theorem evaluation_repeatable (campaigns : list Campaign.t) (a : loc)
    (cartItems : list CartItem) (h : Heap) (rules : list Rule.t) :
  rules_at h a rules ->
  exists offer h1 h2,
    resolveAndSelectH campaigns a cartItems h = (Returned offer, h1) /\
    resolveAndSelectH campaigns a cartItems h1 = (Returned offer, h2) /\
    offer = resolveAndSelect campaigns rules cartItems /\
    (forall l, (l < length h)%nat -> h1 !! l = h !! l) /\
    (forall l, (l < length h)%nat -> h2 !! l = h !! l) /\
    rules_at h1 a rules /\ rules_at h2 a rules.
Proof.
  intros Hat.
  destruct (resolveAndSelectH_spec campaigns a cartItems h rules Hat)
    as (h1 & Hrun1 & Hsame1).
  pose proof (rules_at_preserved h h1 a rules Hsame1 Hat) as Hat1.
  destruct (resolveAndSelectH_spec campaigns a cartItems h1 rules Hat1)
    as (h2 & Hrun2 & Hsame2).
  assert (Hlen : (length h <= length h1)%nat).
  { destruct (Nat.le_gt_cases (length h) (length h1)) as [|Hlt]; [assumption|].
    assert (Hl : (length h1 < length h)%nat) by lia.
    pose proof (Hsame1 _ Hl) as Heq.
    rewrite (lookup_ge_None_2 h1 (length h1)) in Heq by lia.
    symmetry in Heq. apply lookup_ge_None in Heq. lia. }
  assert (Hsame : forall l, (l < length h)%nat -> h2 !! l = h !! l).
  { intros l Hl. rewrite Hsame2 by lia. now apply Hsame1. }
  exists (resolveAndSelect campaigns rules cartItems), h1, h2.
  repeat split; try assumption.
  now apply (rules_at_preserved h h2).
Qed.

Lemma evaluation_repeatable_witness :
  exists offer h1 h2,
    resolveAndSelectH [boost_campaign] 2%nat one_item_cart shop_heap = (Returned offer, h1) /\
    resolveAndSelectH [boost_campaign] 2%nat one_item_cart h1 = (Returned offer, h2) /\
    offer = resolveAndSelect [boost_campaign] [premium_rule; tied_rule] one_item_cart /\
    (forall l, (l < length shop_heap)%nat -> h1 !! l = shop_heap !! l) /\
    (forall l, (l < length shop_heap)%nat -> h2 !! l = shop_heap !! l) /\
    rules_at h1 2%nat [premium_rule; tied_rule] /\
    rules_at h2 2%nat [premium_rule; tied_rule].
Proof.
  apply (evaluation_repeatable [boost_campaign] 2%nat one_item_cart shop_heap
           [premium_rule; tied_rule]).
  exists [0%nat; 1%nat]. split; [reflexivity|].
  repeat constructor.
Defined.

(** * Further properties of the engine *)

(** ** Rule matcher *)

Lemma filter_sublist {A} (f : A -> bool) (l : list A) : List.filter f l `sublist_of` l.
Proof.
  induction l as [|x l IH]; cbn [List.filter]; [constructor|].
  destruct (f x); [now apply sublist_skip | now apply sublist_cons].
Qed.

(** X1: the rule matcher returns a sublist of its input, in the same order,
    and keeps a rule exactly when its [trigger_type] is one of category,
    cart_value and time_based and the evaluator of that type holds; a rule
    of any other type is never kept. *)
Theorem evaluateRules_keeps (rules : list Rule.t) (cartItems : list CartItem)
    (timeContext : TimeContext) :
  evaluateRules rules cartItems timeContext `sublist_of` rules /\
  forall rule,
    In rule (evaluateRules rules cartItems timeContext) <->
    In rule rules /\ rule_condition_holds rule cartItems timeContext.
Proof.
  split; [apply filter_sublist|].
  intros rule. unfold evaluateRules. rewrite filter_In.
  unfold rule_condition_holds.
  destruct (String.eqb_spec (Rule.trigger_type rule) "category") as [Hc|Hc].
  { rewrite Hc. intuition discriminate. }
  destruct (String.eqb_spec (Rule.trigger_type rule) "cart_value") as [Hv|Hv].
  { rewrite Hv. intuition discriminate. }
  destruct (String.eqb_spec (Rule.trigger_type rule) "time_based") as [Ht|Ht].
  { rewrite Ht. intuition discriminate. }
  intuition discriminate.
Qed.

(** ** The order of the cart items *)

Lemma existsb_Permutation {A} (f : A -> bool) (l l' : list A) :
  Permutation l l' -> existsb f l = existsb f l'.
Proof.
  intros Hp. apply Bool.eq_iff_eq_true. rewrite !existsb_exists.
  split; intros (x & Hx & Hf); exists x; split; try assumption.
  - now apply (Permutation_in _ Hp).
  - now apply (Permutation_in _ (Permutation_sym Hp)).
Qed.

Lemma forallb_Permutation {A} (f : A -> bool) (l l' : list A) :
  Permutation l l' -> forallb f l = forallb f l'.
Proof.
  intros Hp. apply Bool.eq_iff_eq_true. rewrite !forallb_forall.
  split; intros H x Hx; apply H.
  - now apply (Permutation_in _ (Permutation_sym Hp)).
  - now apply (Permutation_in _ Hp).
Qed.

Lemma evaluateCategoryConditions_Permutation (conditions : TriggerConditions)
    (cart cart' : list CartItem) :
  Permutation cart cart' ->
  evaluateCategoryConditions conditions cart =
  evaluateCategoryConditions conditions cart'.
Proof.
  intros Hp. unfold evaluateCategoryConditions.
  destruct (category conditions) as [c|]; [|reflexivity].
  assert (Hm : Permutation (map (fun item => extractCategory (title item)) cart)
                           (map (fun item => extractCategory (title item)) cart'))
    by now apply Permutation_map.
  now rewrite (existsb_Permutation _ _ _ Hm), (forallb_Permutation _ _ _ Hm).
Qed.

Lemma evaluateCartValueConditions_total (conditions : TriggerConditions)
    (cart cart' : list CartItem) :
  cartTotal cart = cartTotal cart' ->
  evaluateCartValueConditions conditions cart =
  evaluateCartValueConditions conditions cart'.
Proof. intros Ht. unfold evaluateCartValueConditions. now rewrite Ht. Qed.

Lemma existsb_ext_in {A} (f g : A -> bool) (l : list A) :
  (forall x, f x = g x) -> existsb f l = existsb g l.
Proof.
  intros H. induction l as [|x l IH]; cbn [existsb]; [reflexivity|].
  now rewrite H, IH.
Qed.

Lemma hasTriggerProducts_Permutation (campaign : Campaign.t)
    (cart cart' : list CartItem) :
  Permutation cart cart' ->
  hasTriggerProducts campaign cart = hasTriggerProducts campaign cart'.
Proof.
  intros Hp. unfold hasTriggerProducts. apply existsb_ext_in.
  intros triggerId. now apply existsb_Permutation.
Qed.

Example cartTotal_in_cart_order :
  cartTotal [beans_item; grinder_item; filter_item] = 60.000000000000007%float /\
  cartTotal [beans_item; filter_item; grinder_item] = 60%float.
Proof. split; reflexivity. Qed.

(** X2: two carts with the same items in another order match the same
    campaigns and the same rules of every type but cart_value; the
    cart-value rules depend on the cart through its total only, and the
    total, a sum of doubles taken in cart order, does depend on the order:
    some cart-value rule matches a cart and does not match the same items
    in another order. *)
Theorem matchers_cart_order (rules : list Rule.t) (campaigns : list Campaign.t)
    (cart cart' : list CartItem) (timeContext : TimeContext) :
  Permutation cart cart' ->
  evaluateCampaigns campaigns cart timeContext =
  evaluateCampaigns campaigns cart' timeContext /\
  (Forall (fun rule => Rule.trigger_type rule <> "cart_value") rules ->
   evaluateRules rules cart timeContext = evaluateRules rules cart' timeContext) /\
  (cartTotal cart = cartTotal cart' ->
   evaluateRules rules cart timeContext = evaluateRules rules cart' timeContext) /\
  (exists rule items items',
     Permutation items items' /\
     evaluateRules [rule] items timeContext = [rule] /\
     evaluateRules [rule] items' timeContext = []).
Proof.
  intros Hp. split; [|split; [|split]].
  - unfold evaluateCampaigns. apply filter_ext. intros campaign.
    now rewrite (hasTriggerProducts_Permutation _ _ _ Hp).
  - intros Hty. unfold evaluateRules.
    induction Hty as [|rule rest Hrule _ IH]; [reflexivity|].
    cbn [List.filter]. rewrite IH.
    rewrite (evaluateCategoryConditions_Permutation _ _ _ Hp).
    destruct (String.eqb_spec (Rule.trigger_type rule) "cart_value");
      [contradiction | reflexivity].
  - intros Ht. unfold evaluateRules. apply filter_ext. intros rule.
    now rewrite (evaluateCategoryConditions_Permutation _ _ _ Hp),
                (evaluateCartValueConditions_total _ _ _ Ht).
  - exists above_sixty_rule, [beans_item; grinder_item; filter_item],
      [beans_item; filter_item; grinder_item].
    split; [|split]; [| reflexivity | reflexivity].
    apply perm_skip, perm_swap.
Qed.

Lemma matchers_cart_order_witness :
  evaluateCampaigns [flash_campaign] [mug_item; speaker_item] thirty_seconds =
  evaluateCampaigns [flash_campaign] [speaker_item; mug_item] thirty_seconds.
Proof.
  refine (proj1 (matchers_cart_order [tied_rule] [flash_campaign]
                   [mug_item; speaker_item] [speaker_item; mug_item]
                   thirty_seconds _)).
  apply perm_swap.
Defined.

(** ** Category conditions: the operators *)

Lemma forallb_eqb_all (c : string) (l : list string) :
  forallb (fun cat => String.eqb cat c) l = true <-> forall x, In x l -> x = c.
Proof.
  rewrite forallb_forall. split; intros H x Hx.
  - now apply String.eqb_eq, H.
  - now apply String.eqb_eq, H.
Qed.

(** X3: a category condition without category, or with the empty string as
    category, is false under every operator; with a category, [equals] holds
    exactly when every cart item is of that category, [not_contains] exactly
    when none is, and any operator other than contains, equals and
    not_contains is false. *)
Theorem evaluateCategoryConditions_operators (conditions : TriggerConditions)
    (cartItems : list CartItem) :
  (category conditions = None \/ category conditions = Some EmptyString ->
   evaluateCategoryConditions conditions cartItems = false) /\
  (forall c, category conditions = Some c -> c <> EmptyString ->
     (category_operator conditions = Some "equals" ->
      (evaluateCategoryConditions conditions cartItems = true <->
       forall item, In item cartItems -> extractCategory (title item) = c)) /\
     (category_operator conditions = Some "not_contains" ->
      (evaluateCategoryConditions conditions cartItems = true <->
       forall item, In item cartItems -> extractCategory (title item) <> c)) /\
     (forall op, category_operator conditions = Some op ->
        op <> "contains" -> op <> "equals" -> op <> "not_contains" ->
        evaluateCategoryConditions conditions cartItems = false)).
Proof.
  unfold evaluateCategoryConditions. split.
  - intros [-> | ->]; reflexivity.
  - intros c -> Hne. cbn [truthy_str].
    destruct (String.eqb_spec c EmptyString); [contradiction|]. cbn [negb].
    split; [|split].
    + intros ->. cbn. rewrite forallb_eqb_all. split.
      * intros H item Hin. apply H, in_map_iff. eauto.
      * intros H x Hx. apply in_map_iff in Hx as (item & <- & Hin). auto.
    + intros ->. cbn. rewrite negb_true_iff, <- not_true_iff_false, existsb_eqb_In.
      split.
      * intros H item Hin Heq. apply H, in_map_iff. eauto.
      * intros H Hin. apply in_map_iff in Hin as (item & Heq & Hin). now apply (H item).
    + intros op -> H1 H2 H3. unfold default, from_option, id.
      destruct (String.eqb_spec op "contains"); [contradiction|].
      destruct (String.eqb_spec op "equals"); [contradiction|].
      destruct (String.eqb_spec op "not_contains"); [contradiction|].
      reflexivity.
Qed.

Lemma evaluateCategoryConditions_operators_witness :
  evaluateCategoryConditions
    {| category := Some "coffee"; category_operator := Some "equals";
       cart_value_operator := None; cart_value := None;
       cart_value_min := None; cart_value_max := None;
       time_on_site_min := None; time_on_site_max := None;
       active_time_on_site_min := None |} [mug_item] = true <->
  forall item, In item [mug_item] -> extractCategory (title item) = "coffee".
Proof.
  refine (proj1 (proj2 (evaluateCategoryConditions_operators _ [mug_item])
                   "coffee" _ _) _).
  - reflexivity.
  - discriminate.
  - reflexivity.
Defined.

(** ** Category extraction *)

Lemma lower_ascii_idempotent (c : ascii) : lower_ascii (lower_ascii c) = lower_ascii c.
Proof. destruct c as [[] [] [] [] [] [] [] []]; reflexivity. Qed.

Lemma toLowerCase_idempotent (s : string) : toLowerCase (toLowerCase s) = toLowerCase s.
Proof.
  induction s as [|c s IH]; [reflexivity|].
  cbn [toLowerCase]. now rewrite lower_ascii_idempotent, IH.
Qed.

(** X4: category extraction does not depend on letter case (ASCII): a title
    and its lower-case form fall into the same category. *)
Theorem extractCategory_case (title : string) :
  extractCategory (toLowerCase title) = extractCategory title.
Proof. unfold extractCategory. now rewrite toLowerCase_idempotent. Qed.

(** The keyword table, searched in order. *)
Lemma extractCategory_table (t : string) :
  let coffee := mentions t "coffee" || mentions t "mug" || mentions t "beans"
                || mentions t "grinder" in
  let electronics := mentions t "headphones" || mentions t "speaker"
                     || mentions t "wireless" || mentions t "bluetooth" in
  extractCategory t =
    if coffee then "coffee"
    else if electronics then "electronics"
    else if mentions t "kitchen" then "kitchenware"
    else if mentions t "organic" then "food"
    else "general".
Proof.
  unfold extractCategory, categories, mentions.
  cbn [List.find snd fst existsb].
  destruct (includes (toLowerCase t) "coffee"); [reflexivity|].
  destruct (includes (toLowerCase t) "mug"); [reflexivity|].
  destruct (includes (toLowerCase t) "beans"); [reflexivity|].
  destruct (includes (toLowerCase t) "grinder"); [reflexivity|].
  destruct (includes (toLowerCase t) "headphones"); [reflexivity|].
  destruct (includes (toLowerCase t) "speaker"); [reflexivity|].
  destruct (includes (toLowerCase t) "wireless"); [reflexivity|].
  destruct (includes (toLowerCase t) "bluetooth"); [reflexivity|].
  destruct (includes (toLowerCase t) "kitchen"); [reflexivity|].
  destruct (includes (toLowerCase t) "organic"); reflexivity.
Qed.

(** ** Time conditions: more time on site *)

(** X5: a time condition without (non-zero) [time_on_site_max] that holds
    keeps holding as the time on site and the active time grow. *)
Theorem evaluateTimeConditions_monotone (conditions : TriggerConditions)
    (earlier later : TimeContext) :
  truthy_num (time_on_site_max conditions) = false ->
  num_or_zero (timeOnSite earlier) <= num_or_zero (timeOnSite later) ->
  num_or_zero (activeTimeOnSite earlier) <= num_or_zero (activeTimeOnSite later) ->
  evaluateTimeConditions conditions earlier = true ->
  evaluateTimeConditions conditions later = true.
Proof.
  intros Hmax Ht Ha. unfold evaluateTimeConditions. rewrite Hmax. cbn [andb].
  destruct (truthy_num (time_on_site_min conditions) && _) eqn:H1; [discriminate|].
  destruct (truthy_num (active_time_on_site_min conditions) && _) eqn:H2; [discriminate|].
  intros _.
  pose proof (proj1 (time_check_lt _ _) H1) as H1p.
  pose proof (proj1 (time_check_lt _ _) H2) as H2p.
  assert (H1' : truthy_num (time_on_site_min conditions) &&
                js_lt (num_or_zero (timeOnSite later)) (time_on_site_min conditions) = false).
  { apply time_check_lt. intros m Hm Hnz. specialize (H1p m Hm Hnz). lia. }
  assert (H2' : truthy_num (active_time_on_site_min conditions) &&
                js_lt (num_or_zero (activeTimeOnSite later))
                  (active_time_on_site_min conditions) = false).
  { apply time_check_lt. intros m Hm Hnz. specialize (H2p m Hm Hnz). lia. }
  now rewrite H1', H2'.
Qed.

Lemma evaluateTimeConditions_monotone_witness :
  evaluateTimeConditions
    {| category := None; category_operator := None;
       cart_value_operator := None; cart_value := None;
       cart_value_min := None; cart_value_max := None;
       time_on_site_min := Some 20; time_on_site_max := None;
       active_time_on_site_min := Some 10 |}
    {| timeOnSite := Some 90; activeTimeOnSite := Some 40 |} = true.
Proof.
  refine (evaluateTimeConditions_monotone _ thirty_seconds _ _ _ _ _).
  - reflexivity.
  - vm_compute. discriminate.
  - vm_compute. discriminate.
  - reflexivity.
Defined.

(** X6: of the keywords listed under two categories only the first listing
    counts: a title that mentions coffee, mug, beans or grinder is coffee,
    so kitchenware is reached through the keyword kitchen alone and food
    through the keyword organic alone. *)
Theorem extractCategory_shadowing (t : string) :
  (mentions t "coffee" = true \/ mentions t "mug" = true \/
   mentions t "beans" = true \/ mentions t "grinder" = true ->
   extractCategory t = "coffee") /\
  (extractCategory t = "kitchenware" ->
   mentions t "kitchen" = true /\ mentions t "mug" = false /\
   mentions t "grinder" = false) /\
  (extractCategory t = "food" ->
   mentions t "organic" = true /\ mentions t "beans" = false).
Proof.
  rewrite extractCategory_table.
  destruct (mentions t "coffee"), (mentions t "mug"), (mentions t "beans"),
    (mentions t "grinder"); cbn [orb];
  (split; [intros; reflexivity || (intuition discriminate)|]);
  try (split; discriminate).
  destruct (mentions t "headphones" || mentions t "speaker"
            || mentions t "wireless" || mentions t "bluetooth");
    [split; discriminate|].
  destruct (mentions t "kitchen"); [split; [auto | discriminate]|].
  destruct (mentions t "organic"); split; (discriminate || auto).
Qed.

Lemma extractCategory_shadowing_witness : extractCategory "Travel Mug" = "coffee".
Proof.
  apply (proj1 (extractCategory_shadowing "Travel Mug")).
  right. left. reflexivity.
Defined.

(** ** Override resolver: what it changes *)

Lemma erase_with_priority (rule : Rule.t) (p : Z) :
  erase_priority (Rule.with_priority rule p) = erase_priority rule.
Proof. reflexivity. Qed.

Lemma applyOverride_erase (rules : list Rule.t) (override : Override.t) :
  (erase_priority <$> applyOverride rules override) `sublist_of`
  (erase_priority <$> rules).
Proof.
  unfold applyOverride.
  destruct (findIndex (Override.rule_id override) rules) as [i|] eqn:Hi; [|reflexivity].
  destruct (String.eqb (Override.override_type override) "enhance").
  - destruct (rules !! i) as [rule|] eqn:Hrule; [|reflexivity].
    rewrite list_fmap_insert, erase_with_priority.
    rewrite list_insert_id; [reflexivity|].
    now rewrite list_lookup_fmap, Hrule.
  - destruct (String.eqb (Override.override_type override) "suppress"); [|reflexivity].
    rewrite list_fmap_delete. apply sublist_delete.
Qed.

(** X7: the resolver only removes rules and changes priorities: the
    resolved list, priorities aside, is a sublist of the matched rules (no
    rule is added, duplicated or moved, no other field is touched), and it
    is never longer. *)
Theorem applyRuleOverrides_shape (rules : list Rule.t) (campaigns : list Campaign.t) :
  (erase_priority <$> applyRuleOverrides rules campaigns) `sublist_of`
  (erase_priority <$> rules) /\
  (length (applyRuleOverrides rules campaigns) <= length rules)%nat.
Proof.
  assert (H : (erase_priority <$> applyRuleOverrides rules campaigns) `sublist_of`
              (erase_priority <$> rules)).
  { rewrite applyRuleOverrides_flat. generalize (allOverrides campaigns) as overrides.
    intros overrides. revert rules.
    induction overrides as [|o ovs IH]; intros rules; cbn [fold_left]; [reflexivity|].
    etransitivity; [apply IH | apply applyOverride_erase]. }
  split; [exact H|].
  apply sublist_length in H. now rewrite !length_fmap in H.
Qed.

Lemma findIndex_NoDup (rules : list Rule.t) (i : nat) (rule : Rule.t) :
  NoDup (Rule.id <$> rules) -> rules !! i = Some rule ->
  findIndex (Rule.id rule) rules = Some i.
Proof.
  revert i. induction rules as [|r rules IH]; intros i Hnd Hi; [discriminate|].
  cbn [fmap list_fmap] in Hnd. apply NoDup_cons in Hnd as [Hr Hnd].
  cbn [findIndex]. destruct i as [|j]; cbn in Hi.
  - injection Hi as ->. now rewrite String.eqb_refl.
  - destruct (String.eqb_spec (Rule.id r) (Rule.id rule)) as [Heq|Hne].
    + exfalso. apply Hr. rewrite Heq. apply list_elem_of_fmap_2.
      apply list_elem_of_lookup. eauto.
    + now rewrite (IH j Hnd Hi).
Qed.

Lemma with_priority_same (rule : Rule.t) :
  Rule.with_priority rule (Rule.priority rule) = rule.
Proof. now destruct rule. Qed.

Lemma fold_enhance (overrides : list Override.t) (rules : list Rule.t) (i : nat)
    (rule : Rule.t) :
  NoDup (Rule.id <$> rules) -> rules !! i = Some rule ->
  Forall (fun o => Override.override_type o = "enhance" /\
                   Override.rule_id o = Rule.id rule) overrides ->
  fold_left applyOverride overrides rules =
  <[i := Rule.with_priority rule (Rule.priority rule + total_boost overrides)]> rules.
Proof.
  revert rules rule. induction overrides as [|o ovs IH]; intros rules rule Hnd Hi Hall.
  - cbn. rewrite Z.add_0_r, with_priority_same. symmetry. now apply list_insert_id.
  - apply Forall_cons in Hall as [[Hty Hid] Hall]. cbn [fold_left total_boost foldr].
    assert (Hstep : applyOverride rules o =
              <[i := Rule.with_priority rule
                       (Rule.priority rule + num_or_zero (Override.priority_boost o))]> rules).
    { unfold applyOverride. now rewrite Hid, (findIndex_NoDup rules i rule Hnd Hi), Hty, Hi. }
    rewrite Hstep.
    set (rule' := Rule.with_priority rule
                    (Rule.priority rule + num_or_zero (Override.priority_boost o))).
    rewrite (IH (<[i := rule']> rules) rule').
    + rewrite list_insert_insert_eq. subst rule'. cbn [Rule.with_priority Rule.priority].
      fold (total_boost ovs). f_equal. unfold Rule.with_priority. cbn. f_equal. lia.
    + rewrite list_fmap_insert. rewrite list_insert_id; [assumption|].
      now rewrite list_lookup_fmap, Hi.
    + apply list_lookup_insert_eq. now apply lookup_lt_Some in Hi.
    + exact Hall.
Qed.

(** X8: boosts add up and are not capped: when every override of the
    matched campaigns enhances one and the same rule of a list with distinct
    ids, the resolved list is the matched list with that rule's priority
    raised by the sum of the boosts, whatever the sum (also beyond 100). *)
Theorem enhance_accumulates (rules : list Rule.t) (campaigns : list Campaign.t)
    (i : nat) (rule : Rule.t) :
  NoDup (Rule.id <$> rules) -> rules !! i = Some rule ->
  Forall (fun o => Override.override_type o = "enhance" /\
                   Override.rule_id o = Rule.id rule) (allOverrides campaigns) ->
  applyRuleOverrides rules campaigns =
  <[i := Rule.with_priority rule
           (Rule.priority rule + total_boost (allOverrides campaigns))]> rules.
Proof.
  intros Hnd Hi Hall. rewrite applyRuleOverrides_flat. now apply fold_enhance.
Qed.

Lemma enhance_accumulates_witness :
  applyRuleOverrides [premium_rule; tied_rule] [double_boost_campaign] =
  <[1%nat := Rule.with_priority tied_rule
               (Rule.priority tied_rule + total_boost (allOverrides [double_boost_campaign]))]>
    [premium_rule; tied_rule].
Proof.
  apply (enhance_accumulates [premium_rule; tied_rule] [double_boost_campaign]
           1%nat tied_rule).
  - apply NoDup_cons. split; [|apply NoDup_singleton].
    simpl. intros H. apply list_elem_of_singleton in H. discriminate H.
  - reflexivity.
  - repeat constructor.
Defined.

Example double_boost_priorities :
  Rule.priority <$> applyRuleOverrides [premium_rule; tied_rule] [double_boost_campaign]
  = [100; 120].
Proof. reflexivity. Qed.

Lemma applyOverride_without_effect (rules : list Rule.t) (override : Override.t) :
  without_effect rules override -> applyOverride rules override = rules.
Proof.
  intros [[He Hs] | Habs]; [|now apply applyOverride_absent].
  unfold applyOverride.
  destruct (findIndex (Override.rule_id override) rules); [|reflexivity].
  destruct (String.eqb_spec (Override.override_type override) "enhance"); [contradiction|].
  destruct (String.eqb_spec (Override.override_type override) "suppress"); [contradiction|].
  reflexivity.
Qed.

(** X9: overrides of type replace (or of any type other than enhance and
    suppress) and overrides that name no matched rule leave the rule list
    as it is: when the matched campaigns carry only such overrides, the
    resolved list is the matched list. *)
Theorem overrides_without_effect (rules : list Rule.t) (campaigns : list Campaign.t) :
  Forall (without_effect rules) (allOverrides campaigns) ->
  applyRuleOverrides rules campaigns = rules.
Proof.
  rewrite applyRuleOverrides_flat. generalize (allOverrides campaigns) as overrides.
  induction overrides as [|o ovs IH]; intros Hall; [reflexivity|].
  apply Forall_cons in Hall as [Ho Hall]. cbn [fold_left].
  rewrite (applyOverride_without_effect _ _ Ho). now apply IH.
Qed.

Lemma overrides_without_effect_witness :
  applyRuleOverrides [premium_rule; tied_rule] [replace_campaign] =
  [premium_rule; tied_rule].
Proof.
  apply (overrides_without_effect [premium_rule; tied_rule] [replace_campaign]).
  constructor; [|constructor; [|constructor]].
  - left. split; discriminate.
  - right. simpl. intros H.
    apply elem_of_cons in H as [H|H]; [discriminate H|].
    apply list_elem_of_singleton in H. discriminate H.
Defined.

(** ** Offer selector: the winner *)

Lemma ruleCandidate_priority (rule : Rule.t) :
  Candidate.priority (ruleCandidate rule) = Rule.priority rule.
Proof. cbn. now rewrite num_or_zero_default. Qed.

(** X10: the selector returns [null] exactly when there is neither a
    matched campaign nor a resolved rule; with at least one candidate it
    always returns an offer. *)
Theorem selectBestUpsell_null (campaigns : list Campaign.t) (rules : list Rule.t)
    (cartItems : list CartItem) :
  (selectBestUpsell campaigns rules cartItems = None <->
   campaigns = [] /\ rules = []) /\
  (campaigns <> [] \/ rules <> [] ->
   exists offer, selectBestUpsell campaigns rules cartItems = Some offer).
Proof.
  split; [apply selectBestUpsell_None|].
  intros Hne. destruct (selectBestUpsell campaigns rules cartItems) as [offer|] eqn:Hs.
  - eauto.
  - apply selectBestUpsell_None in Hs as [-> ->]. destruct Hne; contradiction.
Qed.

Lemma selectBestUpsell_null_witness :
  exists offer, selectBestUpsell [] [tied_rule] [mug_item] = Some offer.
Proof.
  apply (proj2 (selectBestUpsell_null [] [tied_rule] [mug_item])).
  right. discriminate.
Defined.

(** X11: the selected offer is a matched campaign of highest priority
    (missing priority counting 0) that no rule exceeds, or else a resolved
    rule of highest priority that is strictly above every matched campaign:
    a rule never wins against a campaign of the same or a higher priority,
    and the offer carries the type and the id of its source. *)
Theorem selectBestUpsell_winner (campaigns : list Campaign.t) (rules : list Rule.t)
    (cartItems : list CartItem) (offer : Offer.t) :
  selectBestUpsell campaigns rules cartItems = Some offer ->
  (exists campaign,
     In campaign campaigns /\
     offer = toOffer (campaignCandidate campaign) /\
     Offer.type offer = "campaign" /\ Offer.id offer = Campaign.id campaign /\
     (forall c, In c campaigns ->
        num_or_zero (Campaign.campaign_priority c)
        <= num_or_zero (Campaign.campaign_priority campaign)) /\
     (forall r, In r rules ->
        Rule.priority r <= num_or_zero (Campaign.campaign_priority campaign))) \/
  (exists rule,
     In rule rules /\
     offer = toOffer (ruleCandidate rule) /\
     Offer.type offer = "rule" /\ Offer.id offer = Rule.id rule /\
     (forall c, In c campaigns ->
        num_or_zero (Campaign.campaign_priority c) < Rule.priority rule) /\
     (forall r, In r rules -> Rule.priority r <= Rule.priority rule)).
Proof.
  intros Hsel.
  apply selectBestUpsell_first_max in Hsel as (pre & best & post & Hall & -> & Hpre & Hpost).
  assert (Hle : forall x, In x (map campaignCandidate campaigns ++ map ruleCandidate rules) ->
                  Candidate.priority x <= Candidate.priority best).
  { intros x Hx. rewrite Hall in Hx. apply in_app_or in Hx as [Hx|[<-|Hx]].
    - apply list_elem_of_In in Hx. rewrite Forall_forall in Hpre.
      specialize (Hpre x Hx). cbv beta in Hpre. lia.
    - lia.
    - apply list_elem_of_In in Hx. rewrite Forall_forall in Hpost.
      now apply Hpost. }
  assert (Hbest : (map campaignCandidate campaigns ++ map ruleCandidate rules)%list
                    !! length pre = Some best).
  { rewrite Hall. now rewrite list_lookup_middle. }
  destruct (Nat.lt_ge_cases (length pre) (length (map campaignCandidate campaigns)))
    as [Hlt|Hge].
  - left. rewrite lookup_app_l in Hbest by assumption.
    apply list_elem_of_lookup_2, list_elem_of_In, in_map_iff in Hbest
      as (campaign & <- & Hin).
    exists campaign. repeat split; try assumption.
    + intros c Hc. apply (Hle (campaignCandidate c)).
      apply in_or_app. left. now apply in_map.
    + intros r Hr. rewrite <- ruleCandidate_priority.
      apply (Hle (ruleCandidate r)). apply in_or_app. right. now apply in_map.
  - right. rewrite lookup_app_r in Hbest by assumption.
    apply list_elem_of_lookup_2, list_elem_of_In, in_map_iff in Hbest
      as (rule & <- & Hin).
    exists rule. repeat split; try assumption.
    + intros c Hc. rewrite <- ruleCandidate_priority.
      apply list_elem_of_In, (list_elem_of_fmap_2 campaignCandidate) in Hc.
      apply list_elem_of_lookup in Hc as [j Hj].
      assert (Hjlt : (j < length (map campaignCandidate campaigns))%nat)
        by now apply lookup_lt_Some in Hj.
      assert (Hpj : pre !! j = Some (campaignCandidate c)).
      { rewrite <- (lookup_app_l pre (ruleCandidate rule :: post)) by lia.
        rewrite <- Hall. now rewrite lookup_app_l. }
      apply list_elem_of_lookup_2 in Hpj. rewrite Forall_forall in Hpre.
      apply (Hpre _ Hpj).
    + intros r Hr. rewrite <- !ruleCandidate_priority.
      apply (Hle (ruleCandidate r)). apply in_or_app. right. now apply in_map.
Qed.

Lemma selectBestUpsell_winner_witness :
  (exists campaign,
     In campaign [flash_campaign] /\
     toOffer (campaignCandidate flash_campaign) = toOffer (campaignCandidate campaign) /\
     Offer.type (toOffer (campaignCandidate flash_campaign)) = "campaign" /\
     Offer.id (toOffer (campaignCandidate flash_campaign)) = Campaign.id campaign /\
     (forall c, In c [flash_campaign] ->
        num_or_zero (Campaign.campaign_priority c)
        <= num_or_zero (Campaign.campaign_priority campaign)) /\
     (forall r, In r [tied_rule] ->
        Rule.priority r <= num_or_zero (Campaign.campaign_priority campaign))) \/
  (exists rule,
     In rule [tied_rule] /\
     toOffer (campaignCandidate flash_campaign) = toOffer (ruleCandidate rule) /\
     Offer.type (toOffer (campaignCandidate flash_campaign)) = "rule" /\
     Offer.id (toOffer (campaignCandidate flash_campaign)) = Rule.id rule /\
     (forall c, In c [flash_campaign] ->
        num_or_zero (Campaign.campaign_priority c) < Rule.priority rule) /\
     (forall r, In r [tied_rule] -> Rule.priority r <= Rule.priority rule)).
Proof.
  apply (selectBestUpsell_winner [flash_campaign] [tied_rule] [mug_item]).
  reflexivity.
Defined.

(** ** The store readers and the entry point *)

Lemma mapAll_pure {S A B} (f : A -> Eff S B) (g : A -> B) (xs : list A) :
  (forall x s, exists s', f x s = (Returned (g x), s')) ->
  forall s, exists s', mapAll f xs s = (Returned (map g xs), s').
Proof.
  intros Hf. induction xs as [|x xs IH]; intros s; cbn [mapAll map].
  - now exists s.
  - destruct (Hf x s) as (s1 & Hx). destruct (IH s1) as (s2 & Hxs).
    exists s2. now rewrite (bind_returned _ _ _ _ _ Hx), (bind_returned _ _ _ _ _ Hxs).
Qed.

(** X12: when the rule query succeeds, [getActiveRules] returns one rule
    per row, in the order of the rows and with every field of the row but
    [target_products], which is what the store's rpc answers for the rule:
    a rule whose rpc fails or has no data is still returned, with an empty
    [target_products]. *)
Theorem getActiveRules_rows (supabase : Supabase) (user_id : string)
    (rows : list Rule.t) (entries : Log) :
  select_rules supabase user_id = QData rows ->
  fst (getActiveRules supabase user_id entries) =
  Returned (map (fun row =>
                   with_target_products row (fetched_target_products supabase row))
                rows).
Proof.
  intros Hq. unfold getActiveRules. rewrite Hq.
  match goal with
  | |- context [mapAll ?f] =>
    destruct (mapAll_pure f
      (fun row => with_target_products row (fetched_target_products supabase row))
      rows) with (s := entries) as (entries' & Hmap)
  end.
  { intros row s. unfold try_catch, mbind, Eff_bind, mret, Eff_ret,
      await_data_or_empty, throw, log, fetched_target_products.
    destruct (get_rule_target_products supabase (Rule.id row)); eauto. }
  erewrite try_catch_returned; [reflexivity|].
  erewrite bind_returned; [exact Hmap | reflexivity].
Qed.

Lemma getActiveRules_rows_witness :
  fst (getActiveRules
         {| select_rules := fun _ => QData [premium_rule; tied_rule];
            get_rule_target_products := fun rid =>
              if String.eqb rid "r1" then QRejected "timeout" else QData ["P3"; "P4"];
            select_campaigns := fun _ => QData [];
            get_campaign_trigger_products := fun _ => QData [];
            get_campaign_upsell_products := fun _ => QData [];
            insert_evaluation := fun _ _ => QData tt |} "u1" []) =
  Returned [with_target_products premium_rule [];
            with_target_products tied_rule ["P3"; "P4"]].
Proof.
  refine (getActiveRules_rows _ "u1" [premium_rule; tied_rule] [] _).
  reflexivity.
Defined.



Example evaluateUpsells_unrecorded :
  evaluateUpsells (with_insert ended_campaign_store (fun _ _ => QRejected "timeout"))
    one_item_cart "s1" "u1" thirty_seconds [] =
  (fst (evaluateUpsells ended_campaign_store one_item_cart "s1" "u1" thirty_seconds []),
   [{| level := LDebug; message := "Evaluating upsells"; detail := "s1" |};
    {| level := LError; message := "Failed to track upsell evaluation";
       detail := "timeout" |}]).
Proof. reflexivity. Qed.

(** X14: the orchestrator's [evaluateUpsells] adds nothing to the manager's
    answer and hides nothing of it: after one debug entry it calls the
    manager, returns the offer the manager returns, and throws again the
    error the manager throws, behind one error entry in the log. *)
Theorem orchestrator_evaluateUpsells
    (upsellManager : list CartItem -> string -> string -> TimeContext ->
                     Eff Log (option Offer.t))
    (cartItems : list CartItem) (sessionId user_id : string)
    (timeContext : TimeContext) (entries : Log) :
  let run :=
    upsellManager cartItems sessionId user_id timeContext
      (entries ++ [{| level := LDebug; message := "Evaluating upsells in real-time";
                      detail := sessionId |}])%list in
  Orchestrator.evaluateUpsells upsellManager cartItems sessionId user_id
    timeContext entries =
  match fst run with
  | Returned offer => (Returned offer, snd run)
  | Thrown error =>
    (Thrown error,
     (snd run ++ [{| level := LError; message := "Real-time upsell evaluation failed";
                     detail := error |}])%list)
  end.
Proof.
  cbv zeta. unfold Orchestrator.evaluateUpsells, try_catch, mbind, Eff_bind, log,
    throw, mret, Eff_ret.
  destruct (upsellManager cartItems sessionId user_id timeContext _)
    as [[offer|error] entries1]; reflexivity.
Qed.

Example orchestrator_with_manager :
  fst (Orchestrator.evaluateUpsells (evaluateUpsells ended_campaign_store)
         one_item_cart "s1" "u1" thirty_seconds []) =
  fst (evaluateUpsells ended_campaign_store one_item_cart "s1" "u1" thirty_seconds []).
Proof. reflexivity. Qed.

(** ** Product ids *)

Lemma validateProductId_run (catalog : Catalog) (user_id productId : string)
    (validIds : list string) (trace : Trace) :
  exists trace',
    validateProductId catalog user_id productId validIds trace =
    (Returned (if product_found catalog user_id productId
               then (validIds ++ [productId])%list else validIds), trace').
Proof.
  unfold validateProductId, product_found, try_catch, mbind, Eff_bind, await_pair,
    throw, emit, mret, Eff_ret.
  destruct (select_product catalog productId user_id) as [[row|]|error|error]; eauto.
Qed.

Lemma validateEach_run (catalog : Catalog) (user_id : string)
    (productIds validIds : list string) (trace : Trace) :
  exists trace',
    validateEach catalog user_id productIds validIds trace =
    (Returned (validIds ++
               List.filter (fun productId =>
                 truthy_str (Some productId) && product_found catalog user_id productId)
                 productIds)%list, trace').
Proof.
  revert validIds trace.
  induction productIds as [|productId rest IH]; intros validIds trace;
    cbn [validateEach List.filter].
  - exists trace. now rewrite app_nil_r.
  - destruct (truthy_str (Some productId)); cbn [negb andb]; [|apply IH].
    destruct (validateProductId_run catalog user_id productId validIds trace)
      as (trace1 & Hrun).
    rewrite (bind_returned _ _ _ _ _ Hrun).
    destruct (product_found catalog user_id productId).
    + destruct (IH (validIds ++ [productId])%list trace1) as (trace2 & Hrest).
      exists trace2. rewrite Hrest. now rewrite <- app_assoc.
    + apply IH.
Qed.

(** X15: [validateProductIds] never throws and returns, in their order and
    with their repetitions, exactly the ids that are non-empty and for which
    the store answers with a row and no error; a store error or a rejected
    query for an id only drops that id.  Without ids it returns the empty
    list. *)
Theorem validateProductIds_filter (catalog : Catalog) (productIds : list string)
    (user_id : string) (trace : Trace) :
  fst (validateProductIds catalog (Some productIds) user_id trace) =
    Returned (List.filter (fun productId =>
                truthy_str (Some productId) && product_found catalog user_id productId)
                productIds) /\
  fst (validateProductIds catalog None user_id trace) = Returned [].
Proof.
  split; [|reflexivity]. unfold validateProductIds.
  destruct productIds as [|productId rest]; [reflexivity|]. cbn [length Nat.eqb].
  destruct (validateEach_run catalog user_id (productId :: rest) [] trace)
    as (trace' & Hrun).
  now rewrite Hrun.
Qed.

Lemma append_nil_r (s : string) : (s ++ EmptyString)%string = s.
Proof. induction s as [|c s IH]; cbn; [reflexivity | now rewrite IH]. Qed.

Lemma hex_digits_Some (n : nat) (s r : string) :
  hex_digits n s = Some r ->
  exists a, s = (a ++ r)%string /\ String.length a = n /\ all_hex a = true.
Proof.
  revert s. induction n as [|n IH]; intros s; cbn [hex_digits].
  - intros [= ->]. now exists EmptyString.
  - destruct s as [|c s]; [discriminate|].
    destruct (is_hex c) eqn:Hc; [|discriminate].
    intros H. destruct (IH s H) as (a & -> & Hlen & Hhex).
    exists (String c a). cbn. rewrite Hlen, Hc, Hhex. auto.
Qed.

Lemma hex_digits_app (n : nat) (a r : string) :
  String.length a = n -> all_hex a = true -> hex_digits n (a ++ r) = Some r.
Proof.
  revert n. induction a as [|c a IH]; intros n Hlen Hhex; cbn in Hlen; subst n.
  - reflexivity.
  - cbn in Hhex. apply andb_true_iff in Hhex as [Hc Ha].
    cbn. rewrite Hc. now apply IH.
Qed.

Lemma dash_Some (s r : string) : dash s = Some r -> s = String "-" r.
Proof.
  unfold dash. destruct s as [|c s]; [discriminate|].
  destruct c as [[] [] [] [] [] [] [] []]; try discriminate.
  now intros [= ->].
Qed.

Lemma isUuid_form (s : string) : isUuid s = true <-> uuid_form s.
Proof.
  unfold isUuid, uuid_form. split.
  - destruct (hex_digits 8 s) as [r1|] eqn:H1; cbn [mbind option_bind]; [|discriminate].
    destruct (dash r1) as [r2|] eqn:D1; cbn [mbind option_bind]; [|discriminate].
    destruct (hex_digits 4 r2) as [r3|] eqn:H2; cbn [mbind option_bind]; [|discriminate].
    destruct (dash r3) as [r4|] eqn:D2; cbn [mbind option_bind]; [|discriminate].
    destruct (hex_digits 4 r4) as [r5|] eqn:H3; cbn [mbind option_bind]; [|discriminate].
    destruct (dash r5) as [r6|] eqn:D3; cbn [mbind option_bind]; [|discriminate].
    destruct (hex_digits 4 r6) as [r7|] eqn:H4; cbn [mbind option_bind]; [|discriminate].
    destruct (dash r7) as [r8|] eqn:D4; cbn [mbind option_bind]; [|discriminate].
    destruct (hex_digits 12 r8) as [[|c r9]|] eqn:H5; try discriminate.
    intros _.
    apply hex_digits_Some in H1 as (a & -> & La & Ha).
    apply dash_Some in D1 as ->.
    apply hex_digits_Some in H2 as (b & -> & Lb & Hb).
    apply dash_Some in D2 as ->.
    apply hex_digits_Some in H3 as (c & -> & Lc & Hc).
    apply dash_Some in D3 as ->.
    apply hex_digits_Some in H4 as (d & -> & Ld & Hd).
    apply dash_Some in D4 as ->.
    apply hex_digits_Some in H5 as (e & -> & Le & He).
    exists a, b, c, d, e. rewrite append_nil_r. repeat split; assumption.
  - intros (a & b & c & d & e & -> & La & Lb & Lc & Ld & Le & Ha & Hb & Hc & Hd & He).
    rewrite (hex_digits_app 8 a _ La Ha). cbn [mbind option_bind append dash].
    rewrite (hex_digits_app 4 b _ Lb Hb). cbn [mbind option_bind append dash].
    rewrite (hex_digits_app 4 c _ Lc Hc). cbn [mbind option_bind append dash].
    rewrite (hex_digits_app 4 d _ Ld Hd). cbn [mbind option_bind append dash].
    rewrite <- (append_nil_r e) at 1.
    now rewrite (hex_digits_app 12 e _ Le He).
Qed.

Lemma length_append (a b : string) :
  String.length (a ++ b) = (String.length a + String.length b)%nat.
Proof. induction a as [|c a IH]; cbn; [reflexivity | now rewrite IH]. Qed.

(** X16: [isValidProductId] rejects the empty id and the ids written as a
    UUID (8-4-4-4-12 hexadecimal digits, in either case) and accepts every
    other id; in particular every non-empty id that is not 36 characters
    long is accepted. *)
Theorem isValidProductId_spec (productId : string) :
  (isValidProductId productId = true <->
   productId <> EmptyString /\ ~ uuid_form productId) /\
  (productId <> EmptyString -> String.length productId <> 36%nat ->
   isValidProductId productId = true).
Proof.
  assert (Hiff : isValidProductId productId = true <->
                 productId <> EmptyString /\ ~ uuid_form productId).
  { unfold isValidProductId. cbn [truthy_str].
    destruct (String.eqb_spec productId EmptyString) as [->|Hne]; cbn [negb].
    - split; [discriminate | intros [H _]; now contradiction H].
    - rewrite <- isUuid_form. destruct (isUuid productId); cbn [negb].
      + split; [discriminate | intros [_ H]; now contradiction H].
      + split; [intros _; split; [assumption | discriminate] | reflexivity]. }
  split; [exact Hiff|].
  intros Hne Hlen. apply Hiff. split; [assumption|].
  intros (a & b & c & d & e & -> & La & Lb & Lc & Ld & Le & _).
  apply Hlen. rewrite !length_append, La, Lb, Lc, Ld, Le. reflexivity.
Qed.

Lemma isValidProductId_spec_witness : isValidProductId "7431209" = true.
Proof.
  apply (proj2 (isValidProductId_spec "7431209")).
  - discriminate.
  - vm_compute. discriminate.
Defined.

Example isValidProductId_uuid :
  isValidProductId "3F2504E0-4f89-11d3-9a0c-0305e82c3301" = false.
Proof. reflexivity. Qed.

(** ** Rule data normalisation *)

Ltac split_string_option o :=
  destruct o as [[|? ?]|].

Lemma normalizeRuleData_run (ruleData : RuleData.t) (trace : Trace) :
  normalizeRuleData ruleData trace =
  (Returned (normalizedFields ruleData),
   ((trace ++ [EInfo "Normalizing rule data"
                 (default EmptyString (RuleData.name ruleData))])
    ++ [EInfo "Normalized rule data"
          (default EmptyString (RuleData.name (normalizedFields ruleData)))])%list).
Proof. reflexivity. Qed.

Lemma normalizedFields_spec (ruleData : RuleData.t) :
  let normalized := normalizedFields ruleData in
  truthy_str (RuleData.rule_type normalized) = true /\
  is_Some (RuleData.conditions normalized) /\
  is_Some (RuleData.actions normalized) /\
  RuleData.name normalized = RuleData.name ruleData /\
  RuleData.description normalized = RuleData.description ruleData /\
  RuleData.trigger_type normalized = RuleData.trigger_type ruleData /\
  RuleData.trigger_conditions normalized = RuleData.trigger_conditions ruleData /\
  RuleData.target_products normalized = RuleData.target_products ruleData /\
  RuleData.rest normalized = RuleData.rest ruleData /\
  RuleData.id normalized = RuleData.id ruleData /\
  RuleData.user_id normalized = RuleData.user_id ruleData /\
  (truthy_str (RuleData.trigger_type ruleData) = true ->
   RuleData.rule_type normalized = RuleData.trigger_type ruleData) /\
  (is_Some (RuleData.conditions ruleData) ->
   RuleData.conditions normalized = RuleData.conditions ruleData) /\
  (is_Some (RuleData.actions ruleData) ->
   RuleData.actions normalized = RuleData.actions ruleData).
Proof.
  destruct ruleData as [rid uid nm ds ty rt tc cs tp ac rs].
  split_string_option ty; split_string_option rt;
    destruct tc as [tc|], cs as [cs|], tp as [tp|], ac as [ac|];
    cbv -[is_Some];
    repeat match goal with
    | |- _ /\ _ => split
    end;
    try reflexivity; try (intros; discriminate); try (now eexists);
    try (intros [? [=]]).
Qed.

Lemma normalizedFields_idempotent (ruleData : RuleData.t) :
  normalizedFields (normalizedFields ruleData) = normalizedFields ruleData.
Proof.
  destruct ruleData as [rid uid nm ds ty rt tc cs tp ac rs].
  split_string_option ty; split_string_option rt;
    destruct tc as [tc|], cs as [cs|], tp as [tp|], ac as [ac|]; reflexivity.
Qed.

(** X17: [normalizeRuleData] never throws; its result always has a
    non-empty [rule_type], [conditions] and [actions], and the same name,
    description, [trigger_type], [trigger_conditions], [target_products],
    [id], [user_id] and remaining fields as its input.  A non-empty [trigger_type] becomes the
    [rule_type], replacing a [rule_type] that was given; [conditions] and
    [actions] that were given are kept. *)
Theorem normalizeRuleData_result (ruleData : RuleData.t) (trace : Trace) :
  exists normalized trace',
    normalizeRuleData ruleData trace = (Returned normalized, trace') /\
    truthy_str (RuleData.rule_type normalized) = true /\
    is_Some (RuleData.conditions normalized) /\
    is_Some (RuleData.actions normalized) /\
    RuleData.name normalized = RuleData.name ruleData /\
    RuleData.description normalized = RuleData.description ruleData /\
    RuleData.trigger_type normalized = RuleData.trigger_type ruleData /\
    RuleData.trigger_conditions normalized = RuleData.trigger_conditions ruleData /\
    RuleData.target_products normalized = RuleData.target_products ruleData /\
    RuleData.rest normalized = RuleData.rest ruleData /\
    RuleData.id normalized = RuleData.id ruleData /\
    RuleData.user_id normalized = RuleData.user_id ruleData /\
    (truthy_str (RuleData.trigger_type ruleData) = true ->
     RuleData.rule_type normalized = RuleData.trigger_type ruleData) /\
    (is_Some (RuleData.conditions ruleData) ->
     RuleData.conditions normalized = RuleData.conditions ruleData) /\
    (is_Some (RuleData.actions ruleData) ->
     RuleData.actions normalized = RuleData.actions ruleData).
Proof.
  exists (normalizedFields ruleData). eexists.
  split; [apply normalizeRuleData_run|]. apply normalizedFields_spec.
Qed.

(** X18: normalising is idempotent: rule data that comes out of
    [normalizeRuleData] goes through it again unchanged. *)
Theorem normalizeRuleData_idempotent (ruleData normalized : RuleData.t)
    (trace trace' : Trace) :
  normalizeRuleData ruleData trace = (Returned normalized, trace') ->
  forall trace2, fst (normalizeRuleData normalized trace2) = Returned normalized.
Proof.
  rewrite normalizeRuleData_run. intros [= <- _] trace2.
  rewrite normalizeRuleData_run. cbn [fst].
  now rewrite normalizedFields_idempotent.
Qed.

Lemma normalizeRuleData_idempotent_witness :
  fst (normalizeRuleData
         (RuleData.with_actions
            (RuleData.with_conditions
               (RuleData.with_rule_type coral_rule_data "category") coffee_conditions)
            {| action_type := "show_popup"; action_target_products := ["P3"];
               action_message := "Check out these great products!";
               action_template_id := None |}) []) =
  Returned
    (RuleData.with_actions
       (RuleData.with_conditions
          (RuleData.with_rule_type coral_rule_data "category") coffee_conditions)
       {| action_type := "show_popup"; action_target_products := ["P3"];
          action_message := "Check out these great products!";
          action_template_id := None |}).
Proof.
  refine (normalizeRuleData_idempotent coral_rule_data _ []
            [EInfo "Normalizing rule data" "Mug bundle";
             EInfo "Normalized rule data" "Mug bundle"] _ []).
  vm_compute. reflexivity.
Defined.

(** ** Priority updates *)

Lemma priority_updates_app (t1 t2 : Trace) :
  priority_updates (t1 ++ t2) = (priority_updates t1 ++ priority_updates t2)%list.
Proof. unfold priority_updates. apply omap_app. Qed.

(** X19: [updateRulePriority] sends at most one update to the store, and
    its priority is the current priority plus the boost, brought into the
    range 1 to 100; when the sum is within the range it is sent unchanged.
    When the current priority cannot be read, no update is sent and the
    error is thrown to the caller.  A result that is returned is
    [{created: false, updated: true}]. *)
Theorem updateRulePriority_clamps (table : RuleTable) (rule_id : string)
    (priority_boost : Z) (user_id : string) (trace : Trace) :
  let run := updateRulePriority table rule_id priority_boost user_id trace in
  (forall current, fetch_priority table rule_id user_id = QData current ->
     exists sent,
       priority_updates (snd run) = (priority_updates trace ++ [sent])%list /\
       sent = Z.max 1 (Z.min 100 (current + priority_boost)) /\
       1 <= sent <= 100 /\
       (1 <= current + priority_boost <= 100 -> sent = current + priority_boost)) /\
  (query_failed (fetch_priority table rule_id user_id) ->
   priority_updates (snd run) = priority_updates trace /\
   exists error, fst run = Thrown error) /\
  (forall result, fst run = Returned result ->
     created result = false /\ updated result = true).
Proof.
  cbv zeta. unfold updateRulePriority, try_catch, mbind, Eff_bind, await_or_throw,
    throw, emit, mret, Eff_ret.
  destruct (fetch_priority table rule_id user_id) as [current|error|error];
    cbn [query_failed].
  - split; [|split; [contradiction|]].
    + intros c [= <-]. eexists. split; [|split; [reflexivity|split; lia]].
      destruct (update_priority table rule_id user_id _) as [id|error|error];
        cbn [snd]; rewrite !priority_updates_app; cbn; now rewrite ?app_nil_r.
    + intros result.
      destruct (update_priority table rule_id user_id _) as [id|error|error];
        cbn [fst]; [|discriminate..].
      now intros [= <-].
  - split; [intros c [=]|]. split; [|discriminate].
    intros _. cbn [snd fst]. rewrite priority_updates_app. cbn.
    rewrite app_nil_r. eauto.
  - split; [intros c [=]|]. split; [|discriminate].
    intros _. cbn [snd fst]. rewrite priority_updates_app. cbn.
    rewrite app_nil_r. eauto.
Qed.

Lemma updateRulePriority_clamps_witness :
  exists sent,
    priority_updates (snd (updateRulePriority one_rule_table "r1" 20 "u1" [])) =
      (priority_updates [] ++ [sent])%list /\
    sent = Z.max 1 (Z.min 100 (95 + 20)) /\
    1 <= sent <= 100 /\
    (1 <= 95 + 20 <= 100 -> sent = 95 + 20).
Proof.
  apply (proj1 (updateRulePriority_clamps one_rule_table "r1" 20 "u1" []) 95).
  reflexivity.
Defined.

Example updateRulePriority_run :
  updateRulePriority one_rule_table "r1" 20 "u1" [] =
  (Returned {| created := false; updated := true; result_id := "r1" |},
   [EUpdatePriority "r1" "u1" 100; EInfo "Updated rule priority" "r1"]).
Proof. reflexivity. Qed.

(** ** Coral insights *)

Section InsightProperties.
Context {D C : Type}.
Variable h : Handlers.t D C.
Variable user_id : string.

Lemma countRuleAction_step (insight : Insight.t D C) (results : Counts.t)
    (action : RuleAction.t D) (trace : Trace) :
  exists results' trace',
    countRuleAction h user_id insight results action trace = (Returned results', trace') /\
    Counts.rules_created results <= Counts.rules_created results'
      <= Counts.rules_created results + 1 /\
    Counts.rules_updated results <= Counts.rules_updated results'
      <= Counts.rules_updated results + 1 /\
    Counts.campaigns_created results' = Counts.campaigns_created results /\
    Counts.campaigns_updated results' = Counts.campaigns_updated results.
Proof.
  unfold countRuleAction, try_catch, mbind, Eff_bind.
  destruct (processRuleAction h action user_id insight trace) as [[r|e] t].
  - destruct (created r), (updated r); eexists _, _;
      (split; [reflexivity|]); cbn; repeat split; lia.
  - eexists _, _. split; [reflexivity|]. repeat split; lia.
Qed.

Lemma countCampaignAction_step (insight : Insight.t D C) (results : Counts.t)
    (action : CampaignAction.t C) (trace : Trace) :
  exists results' trace',
    countCampaignAction h user_id insight results action trace
      = (Returned results', trace') /\
    Counts.campaigns_created results <= Counts.campaigns_created results'
      <= Counts.campaigns_created results + 1 /\
    Counts.campaigns_updated results <= Counts.campaigns_updated results'
      <= Counts.campaigns_updated results + 1 /\
    Counts.rules_created results' = Counts.rules_created results /\
    Counts.rules_updated results' = Counts.rules_updated results.
Proof.
  unfold countCampaignAction, try_catch, mbind, Eff_bind.
  destruct (processCampaignAction h action user_id insight trace) as [[r|e] t].
  - destruct (created r), (updated r); eexists _, _;
      (split; [reflexivity|]); cbn; repeat split; lia.
  - eexists _, _. split; [reflexivity|]. repeat split; lia.
Qed.

Lemma rule_actions_loop (insight : Insight.t D C) (actions : list (RuleAction.t D))
    (results : Counts.t) (trace : Trace) :
  exists results' trace',
    forOf (countRuleAction h user_id insight) actions results trace
      = (Returned results', trace') /\
    Counts.rules_created results <= Counts.rules_created results'
      <= Counts.rules_created results + Z.of_nat (length actions) /\
    Counts.rules_updated results <= Counts.rules_updated results'
      <= Counts.rules_updated results + Z.of_nat (length actions) /\
    Counts.campaigns_created results' = Counts.campaigns_created results /\
    Counts.campaigns_updated results' = Counts.campaigns_updated results.
Proof.
  revert results trace. induction actions as [|a actions IH]; intros results trace.
  - exists results, trace. cbn. repeat split; lia.
  - destruct (countRuleAction_step insight results a trace)
      as (r1 & t1 & Hrun1 & Hc1 & Hu1 & Hcc1 & Hcu1).
    destruct (IH r1 t1) as (r2 & t2 & Hrun2 & Hc2 & Hu2 & Hcc2 & Hcu2).
    exists r2, t2. cbn [forOf]. rewrite (bind_returned _ _ _ _ _ Hrun1).
    split; [exact Hrun2|]. cbn [length]. repeat split; lia.
Qed.

Lemma campaign_actions_loop (insight : Insight.t D C)
    (actions : list (CampaignAction.t C)) (results : Counts.t) (trace : Trace) :
  exists results' trace',
    forOf (countCampaignAction h user_id insight) actions results trace
      = (Returned results', trace') /\
    Counts.campaigns_created results <= Counts.campaigns_created results'
      <= Counts.campaigns_created results + Z.of_nat (length actions) /\
    Counts.campaigns_updated results <= Counts.campaigns_updated results'
      <= Counts.campaigns_updated results + Z.of_nat (length actions) /\
    Counts.rules_created results' = Counts.rules_created results /\
    Counts.rules_updated results' = Counts.rules_updated results.
Proof.
  revert results trace. induction actions as [|a actions IH]; intros results trace.
  - exists results, trace. cbn. repeat split; lia.
  - destruct (countCampaignAction_step insight results a trace)
      as (r1 & t1 & Hrun1 & Hc1 & Hu1 & Hcc1 & Hcu1).
    destruct (IH r1 t1) as (r2 & t2 & Hrun2 & Hc2 & Hu2 & Hcc2 & Hcu2).
    exists r2, t2. cbn [forOf]. rewrite (bind_returned _ _ _ _ _ Hrun1).
    split; [exact Hrun2|]. cbn [length]. repeat split; lia.
Qed.

(** X20: [processInsight] never throws, whatever the operations it
    dispatches to do: a failing action is logged and skipped.  Each of its
    four counters lies between 0 and the number of actions of its kind. *)
Theorem processInsight_counts (insight : Insight.t D C) (trace : Trace) :
  exists results trace',
    processInsight h insight user_id trace = (Returned results, trace') /\
    0 <= Counts.rules_created results <= rule_action_count insight /\
    0 <= Counts.rules_updated results <= rule_action_count insight /\
    0 <= Counts.campaigns_created results <= campaign_action_count insight /\
    0 <= Counts.campaigns_updated results <= campaign_action_count insight.
Proof.
  unfold processInsight, rule_action_count, campaign_action_count.
  assert (H1 : exists r1 t1,
    match Insight.rules insight with
    | Some actions => forOf (countRuleAction h user_id insight) actions Counts.zero
    | None => mret Counts.zero
    end trace = (Returned r1, t1) /\
    0 <= Counts.rules_created r1 <= Z.of_nat (length (default [] (Insight.rules insight))) /\
    0 <= Counts.rules_updated r1 <= Z.of_nat (length (default [] (Insight.rules insight))) /\
    Counts.campaigns_created r1 = 0 /\ Counts.campaigns_updated r1 = 0).
  { destruct (Insight.rules insight) as [actions|].
    - destruct (rule_actions_loop insight actions Counts.zero trace)
        as (r1 & t1 & Hrun & Hc & Hu & Hcc & Hcu).
      exists r1, t1. cbn in *. repeat split; try assumption; lia.
    - exists Counts.zero, trace. cbn. repeat split; lia. }
  destruct H1 as (r1 & t1 & Hrun1 & Hc1 & Hu1 & Hcc1 & Hcu1).
  rewrite (bind_returned _ _ _ _ _ Hrun1).
  destruct (Insight.campaigns insight) as [actions|].
  - destruct (campaign_actions_loop insight actions r1 t1)
      as (r2 & t2 & Hrun2 & Hc2 & Hu2 & Hcc2 & Hcu2).
    exists r2, t2. rewrite (bind_returned _ _ _ _ _ Hrun2).
    split; [reflexivity|]. cbn [default from_option id] in *.
    repeat split; lia.
  - exists r1, t1. split; [reflexivity|]. cbn [default from_option id length].
    repeat split; lia.
Qed.

Lemma countRuleAction_unknown (insight : Insight.t D C) (results : Counts.t)
    (action : RuleAction.t D) (trace : Trace) :
  known_rule_action (RuleAction.type action) = false ->
  countRuleAction h user_id insight results action trace =
  (Returned results, (trace ++ [unknown_rule_event action])%list).
Proof.
  unfold known_rule_action. intros Hk.
  apply orb_false_iff in Hk as [Hk H3]. apply orb_false_iff in Hk as [H1 H2].
  unfold countRuleAction, processRuleAction, try_catch, mbind, Eff_bind, throw.
  now rewrite H1, H2, H3.
Qed.

Lemma countCampaignAction_unknown (insight : Insight.t D C) (results : Counts.t)
    (action : CampaignAction.t C) (trace : Trace) :
  known_campaign_action (CampaignAction.type action) = false ->
  countCampaignAction h user_id insight results action trace =
  (Returned results, (trace ++ [unknown_campaign_event action])%list).
Proof.
  unfold known_campaign_action. intros Hk. apply orb_false_iff in Hk as [H1 H2].
  unfold countCampaignAction, processCampaignAction, try_catch, mbind, Eff_bind, throw.
  now rewrite H1, H2.
Qed.

Lemma rule_actions_unknown (insight : Insight.t D C) (actions : list (RuleAction.t D))
    (results : Counts.t) (trace : Trace) :
  Forall (fun a => known_rule_action (RuleAction.type a) = false) actions ->
  forOf (countRuleAction h user_id insight) actions results trace =
  (Returned results, (trace ++ map unknown_rule_event actions)%list).
Proof.
  intros Hall. revert trace.
  induction Hall as [|a actions Ha _ IH]; intros trace; cbn [forOf map].
  - now rewrite app_nil_r.
  - rewrite (bind_returned _ _ _ _ _ (countRuleAction_unknown insight results a trace Ha)).
    rewrite IH. now rewrite <- app_assoc.
Qed.

Lemma campaign_actions_unknown (insight : Insight.t D C)
    (actions : list (CampaignAction.t C)) (results : Counts.t) (trace : Trace) :
  Forall (fun a => known_campaign_action (CampaignAction.type a) = false) actions ->
  forOf (countCampaignAction h user_id insight) actions results trace =
  (Returned results, (trace ++ map unknown_campaign_event actions)%list).
Proof.
  intros Hall. revert trace.
  induction Hall as [|a actions Ha _ IH]; intros trace; cbn [forOf map].
  - now rewrite app_nil_r.
  - rewrite (bind_returned _ _ _ _ _
               (countCampaignAction_unknown insight results a trace Ha)).
    rewrite IH. now rewrite <- app_assoc.
Qed.

(** X21: an action whose type is not one of create_rule, update_rule,
    update_rule_priority (for rules) or create_campaign, update_campaign
    (for campaigns) reaches no operation: for an insight with only such
    actions [processInsight] returns four zero counters and does nothing
    but log one error per action, rule actions first. *)
Theorem processInsight_unknown_actions (insight : Insight.t D C) (trace : Trace) :
  Forall (fun a => known_rule_action (RuleAction.type a) = false)
         (default [] (Insight.rules insight)) ->
  Forall (fun a => known_campaign_action (CampaignAction.type a) = false)
         (default [] (Insight.campaigns insight)) ->
  processInsight h insight user_id trace =
  (Returned Counts.zero,
   (trace ++ map unknown_rule_event (default [] (Insight.rules insight))
          ++ map unknown_campaign_event (default [] (Insight.campaigns insight)))%list).
Proof.
  intros Hr Hc. unfold processInsight.
  destruct (Insight.rules insight) as [ractions|];
    destruct (Insight.campaigns insight) as [cactions|];
    cbn [default from_option id map] in *.
  - rewrite (bind_returned _ _ _ _ _
               (rule_actions_unknown insight ractions Counts.zero trace Hr)).
    rewrite (bind_returned _ _ _ _ _
               (campaign_actions_unknown insight cactions Counts.zero _ Hc)).
    cbn. now rewrite <- app_assoc.
  - rewrite (bind_returned _ _ _ _ _
               (rule_actions_unknown insight ractions Counts.zero trace Hr)).
    cbn. now rewrite !app_nil_r.
  - erewrite bind_returned by reflexivity.
    rewrite (bind_returned _ _ _ _ _
               (campaign_actions_unknown insight cactions Counts.zero _ Hc)).
    reflexivity.
  - cbn. now rewrite !app_nil_r.
Qed.

Lemma addInsight_step (results : Results.t) (insight : Insight.t D C) (trace : Trace) :
  exists results' trace',
    addInsight h user_id results insight trace = (Returned results', trace') /\
    Results.errors results' = Results.errors results /\
    Results.rules_created results <= Results.rules_created results'
      <= Results.rules_created results + rule_action_count insight /\
    Results.rules_updated results <= Results.rules_updated results'
      <= Results.rules_updated results + rule_action_count insight /\
    Results.campaigns_created results <= Results.campaigns_created results'
      <= Results.campaigns_created results + campaign_action_count insight /\
    Results.campaigns_updated results <= Results.campaigns_updated results'
      <= Results.campaigns_updated results + campaign_action_count insight.
Proof.
  destruct (processInsight_counts insight trace) as (r & t & Hrun & H1 & H2 & H3 & H4).
  unfold addInsight. eexists _, _. split.
  - apply try_catch_returned. rewrite (bind_returned _ _ _ _ _ Hrun). reflexivity.
  - cbn. repeat split; lia.
Qed.

(** X22: [processCoralInsights] never throws and its [errors] list is
    always empty: [processInsight] catches every failing action itself, so
    no insight is ever reported as failed.  Each total lies between 0 and
    the number of actions of its kind over all insights. *)
Theorem processCoralInsights_totals (insights : list (Insight.t D C)) (trace : Trace) :
  exists results trace',
    processCoralInsights h insights user_id trace = (Returned results, trace') /\
    Results.errors results = [] /\
    0 <= Results.rules_created results <= total_rule_actions insights /\
    0 <= Results.rules_updated results <= total_rule_actions insights /\
    0 <= Results.campaigns_created results <= total_campaign_actions insights /\
    0 <= Results.campaigns_updated results <= total_campaign_actions insights.
Proof.
  assert (Hloop : forall results t0, exists results' t1,
    forOf (addInsight h user_id) insights results t0 = (Returned results', t1) /\
    Results.errors results' = Results.errors results /\
    Results.rules_created results <= Results.rules_created results'
      <= Results.rules_created results + total_rule_actions insights /\
    Results.rules_updated results <= Results.rules_updated results'
      <= Results.rules_updated results + total_rule_actions insights /\
    Results.campaigns_created results <= Results.campaigns_created results'
      <= Results.campaigns_created results + total_campaign_actions insights /\
    Results.campaigns_updated results <= Results.campaigns_updated results'
      <= Results.campaigns_updated results + total_campaign_actions insights).
  { induction insights as [|insight rest IH]; intros results t0.
    - exists results, t0. cbn. repeat split; lia.
    - destruct (addInsight_step results insight t0)
        as (r1 & t1 & Hrun1 & He1 & Ha1 & Hb1 & Hc1 & Hd1).
      destruct (IH r1 t1) as (r2 & t2 & Hrun2 & He2 & Ha2 & Hb2 & Hc2 & Hd2).
      exists r2, t2. cbn [forOf]. rewrite (bind_returned _ _ _ _ _ Hrun1).
      split; [exact Hrun2|]. split; [congruence|].
      unfold total_rule_actions, total_campaign_actions in *. cbn [foldr].
      repeat split; lia. }
  destruct (Hloop Results.zero
              (trace ++ [EInfo "Processing Coral insights" user_id])%list)
    as (results & t1 & Hrun & He & Ha & Hb & Hc & Hd).
  eexists results, _. split.
  - unfold processCoralInsights. apply try_catch_returned.
    erewrite bind_returned by reflexivity.
    rewrite (bind_returned _ _ _ _ _ Hrun).
    erewrite bind_returned by reflexivity. reflexivity.
  - cbn in *. repeat split; try assumption; lia.
Qed.

End InsightProperties.

Lemma processInsight_unknown_actions_witness :
  processInsight (priority_handlers one_rule_table) unknown_insight "u1" [] =
  (Returned Counts.zero,
   ([] ++ map unknown_rule_event (default [] (Insight.rules unknown_insight))
       ++ map unknown_campaign_event (default [] (Insight.campaigns unknown_insight)))%list).
Proof.
  apply (processInsight_unknown_actions (priority_handlers one_rule_table) "u1"
           unknown_insight []).
  - repeat constructor.
  - repeat constructor.
Defined.

Example processCoralInsights_run :
  fst (processCoralInsights (priority_handlers one_rule_table)
         [boost_insight; unknown_insight] "u1" []) =
  Returned {| Results.rules_created := 0; Results.rules_updated := 1;
              Results.campaigns_created := 0; Results.campaigns_updated := 0;
              Results.errors := [] |}.
Proof. reflexivity. Qed.

(** ** Duplicate search *)

Lemma option_eqb_refl {A} (eqb : A -> A -> bool) (a : option A) :
  (forall x, eqb x x = true) -> option_eqb eqb a a = true.
Proof. intros H. destruct a; cbn; auto. Qed.

Lemma same_number_json_refl (x : float) : same_number_json x x = true.
Proof.
  unfold same_number_json.
  now rewrite (proj2 (FloatAxioms.Leibniz.eqb_spec x x) eq_refl).
Qed.

Lemma same_conditions_json_refl (a : option TriggerConditions) :
  same_conditions_json a a = true.
Proof.
  unfold same_conditions_json. apply option_eqb_refl. intros x.
  rewrite !option_eqb_refl;
    auto using String.eqb_refl, Z.eqb_refl, same_number_json_refl.
Qed.

Lemma strings_eqb_eq (a b : list string) : strings_eqb a b = true <-> a = b.
Proof.
  revert b. induction a as [|x a IH]; intros [|y b]; cbn; try (split; congruence).
  rewrite andb_true_iff, String.eqb_eq, IH. split; [intros [-> ->] | intros [= -> ->]]; auto.
Qed.

Lemma isSimilarRule_run (index : RuleIndex) (rule : NewRule)
    (existingRule : ExistingRule) (trace : Trace) :
  exists trace',
    isSimilarRule index rule existingRule trace =
    (Returned (same_targets index rule existingRule), trace').
Proof.
  unfold isSimilarRule, same_targets, try_catch, mbind, Eff_bind, await_data_or_null,
    throw, emit, mret, Eff_ret.
  rewrite same_conditions_json_refl. cbn [andb].
  destruct (existing_target_products index (existing_id existingRule))
    as [stored|error|error]; destruct (new_target_products rule); eauto.
Qed.

Lemma findSimilarIn_run (index : RuleIndex) (rule : NewRule)
    (data : list ExistingRule) (trace : Trace) :
  exists trace',
    findSimilarIn index rule data trace =
    (Returned (List.find (same_targets index rule) data), trace').
Proof.
  revert trace. induction data as [|existingRule rest IH]; intros trace;
    cbn [findSimilarIn List.find].
  - now exists trace.
  - destruct (isSimilarRule_run index rule existingRule trace) as (t1 & Hrun).
    rewrite (bind_returned _ _ _ _ _ Hrun).
    destruct (same_targets index rule existingRule); [now exists t1 | apply IH].
Qed.

(** X23: [findSimilarRule] never throws and answers with the first of the
    owner's active rules of the same trigger type whose stored target
    products are exactly the new rule's [target_products], or with [null]:
    the trigger conditions play no part (they are compared with
    themselves), a failed query gives [null], and so does a new rule
    without [target_products]. *)
Theorem findSimilarRule_spec (index : RuleIndex) (rule : NewRule) (user_id : string)
    (trace : Trace) :
  fst (findSimilarRule index rule user_id trace) =
    Returned match select_active_rules index user_id (new_trigger_type rule) with
             | QData data => List.find (same_targets index rule) data
             | _ => None
             end /\
  (forall found,
     fst (findSimilarRule index rule user_id trace) = Returned (Some found) ->
     exists wanted,
       new_target_products rule = Some wanted /\
       existing_target_products index (existing_id found) = QData wanted) /\
  (new_target_products rule = None ->
   fst (findSimilarRule index rule user_id trace) = Returned None).
Proof.
  assert (Hrun : fst (findSimilarRule index rule user_id trace) =
    Returned match select_active_rules index user_id (new_trigger_type rule) with
             | QData data => List.find (same_targets index rule) data
             | _ => None
             end).
  { unfold findSimilarRule.
    destruct (select_active_rules index user_id (new_trigger_type rule))
      as [data|error|error]; [|reflexivity..].
    destruct (findSimilarIn_run index rule data trace) as (t1 & Hin).
    erewrite try_catch_returned; [reflexivity|].
    erewrite bind_returned; [exact Hin | reflexivity]. }
  split; [exact Hrun|]. rewrite Hrun. split.
  - intros found [= Hfound].
    destruct (select_active_rules index user_id (new_trigger_type rule))
      as [data|error|error]; try discriminate.
    apply find_some in Hfound as [_ Hsame]. unfold same_targets in Hsame.
    destruct (new_target_products rule) as [wanted|]; [|discriminate].
    destruct (existing_target_products index (existing_id found))
      as [stored|error|error]; try discriminate.
    apply strings_eqb_eq in Hsame as ->. eauto.
  - intros Hnone. f_equal. clear Hrun.
    destruct (select_active_rules index user_id (new_trigger_type rule))
      as [data|error|error]; try reflexivity.
    induction data as [|x data IH]; [reflexivity|]. cbn [List.find].
    unfold same_targets at 1. rewrite Hnone. exact IH.
Qed.

Lemma findSimilarRule_spec_witness :
  fst (findSimilarRule two_rule_index
         {| new_trigger_type := Some "cart_value";
            new_trigger_conditions := Some between_conditions;
            new_target_products := None |} "u1" []) = Returned None.
Proof.
  refine (proj2 (proj2 (findSimilarRule_spec two_rule_index _ "u1" [])) _).
  reflexivity.
Defined.

Example findSimilarRule_other_conditions :
  fst (findSimilarRule two_rule_index
         {| new_trigger_type := Some "cart_value";
            new_trigger_conditions := Some between_conditions;
            new_target_products := Some ["P9"] |} "u1" []) =
  Returned (Some {| existing_id := "r1"; existing_name := "Big cart";
                    existing_trigger_type := "cart_value" |}).
Proof. reflexivity. Qed.

(** ** Rule creation *)

Lemma writes_app (t1 t2 : Trace) : writes (t1 ++ t2) = (writes t1 ++ writes t2)%list.
Proof. unfold writes. apply List.filter_app. Qed.

Ltac simpl_writes :=
  repeat rewrite writes_app; cbn [writes List.filter is_write];
  rewrite ?app_nil_r; rewrite <- ?app_assoc; cbn [app].

Lemma validateProductId_writes (catalog : Catalog) (user_id productId : string)
    (validIds : list string) (trace : Trace) :
  writes (snd (validateProductId catalog user_id productId validIds trace)) =
  writes trace.
Proof.
  unfold validateProductId, try_catch, mbind, Eff_bind, await_pair,
    throw, emit, mret, Eff_ret.
  destruct (select_product catalog productId user_id) as [[row|]|error|error];
    cbn [snd]; now simpl_writes.
Qed.

Lemma validateEach_writes (catalog : Catalog) (user_id : string)
    (productIds validIds : list string) (trace : Trace) :
  writes (snd (validateEach catalog user_id productIds validIds trace)) = writes trace.
Proof.
  revert validIds trace.
  induction productIds as [|productId rest IH]; intros validIds trace;
    cbn [validateEach]; [reflexivity|].
  destruct (truthy_str (Some productId)); cbn [negb]; [|apply IH].
  destruct (validateProductId_run catalog user_id productId validIds trace)
    as (trace1 & Hrun).
  rewrite (bind_returned _ _ _ _ _ Hrun), IH.
  rewrite <- (validateProductId_writes catalog user_id productId validIds trace).
  now rewrite Hrun.
Qed.

Lemma validateProductIds_run (catalog : Catalog) (productIds : list string)
    (user_id : string) (trace : Trace) :
  exists trace',
    validateProductIds catalog (Some productIds) user_id trace =
    (Returned (List.filter (fun productId =>
                 truthy_str (Some productId) && product_found catalog user_id productId)
                 productIds), trace') /\
    writes trace' = writes trace.
Proof.
  unfold validateProductIds.
  destruct productIds as [|productId rest]; [now exists trace|]. cbn [length Nat.eqb].
  destruct (validateEach_run catalog user_id (productId :: rest) [] trace)
    as (trace' & Hrun).
  exists trace'. split; [exact Hrun|].
  rewrite <- (validateEach_writes catalog user_id (productId :: rest) [] trace).
  now rewrite Hrun.
Qed.

Lemma isSimilarRule_writes (index : RuleIndex) (rule : NewRule)
    (existingRule : ExistingRule) (trace : Trace) :
  writes (snd (isSimilarRule index rule existingRule trace)) = writes trace.
Proof.
  unfold isSimilarRule, try_catch, mbind, Eff_bind, await_data_or_null,
    throw, emit, mret, Eff_ret.
  destruct (existing_target_products index (existing_id existingRule))
    as [stored|error|error]; cbn [snd]; now simpl_writes.
Qed.

Lemma findSimilarIn_writes (index : RuleIndex) (rule : NewRule)
    (data : list ExistingRule) (trace : Trace) :
  writes (snd (findSimilarIn index rule data trace)) = writes trace.
Proof.
  revert trace. induction data as [|existingRule rest IH]; intros trace;
    cbn [findSimilarIn]; [reflexivity|].
  destruct (isSimilarRule_run index rule existingRule trace) as (t1 & Hrun).
  rewrite (bind_returned _ _ _ _ _ Hrun).
  assert (Hw : writes t1 = writes trace).
  { rewrite <- (isSimilarRule_writes index rule existingRule trace). now rewrite Hrun. }
  destruct (same_targets index rule existingRule); [exact Hw | now rewrite IH].
Qed.

Lemma findSimilarRule_without_targets (index : RuleIndex) (rule : NewRule)
    (user_id : string) (trace : Trace) :
  new_target_products rule = None ->
  exists trace',
    findSimilarRule index rule user_id trace = (Returned None, trace') /\
    writes trace' = writes trace.
Proof.
  intros Hnone. unfold findSimilarRule.
  destruct (select_active_rules index user_id (new_trigger_type rule))
    as [data|error|error].
  - destruct (findSimilarIn_run index rule data trace) as (t1 & Hrun).
    exists t1. split.
    + apply try_catch_returned. erewrite bind_returned by reflexivity.
      rewrite Hrun. do 2 f_equal.
      clear Hrun. induction data as [|x data IH]; [reflexivity|]. cbn [List.find].
      unfold same_targets at 1. rewrite Hnone. exact IH.
    + rewrite <- (findSimilarIn_writes index rule data trace). now rewrite Hrun.
  - eexists. split; [reflexivity|]. now simpl_writes.
  - eexists. split; [reflexivity|]. now simpl_writes.
Qed.

Lemma filter_head_holds {A} (f : A -> bool) (l : list A) (x : A) (rest : list A) :
  List.filter f l = x :: rest -> f x = true.
Proof.
  intros H. assert (Hin : In x (List.filter f l)) by (rewrite H; now left).
  now apply filter_In in Hin.
Qed.

Lemma prepareRule_run (w : RuleWriter) (uuid : string) (ruleData : RuleData.t)
    (user_id : string) (trace : Trace) :
  exists trace',
    prepareRule w uuid ruleData user_id trace =
    (Returned (new_rule_row w uuid ruleData user_id,
               validated_targets w ruleData user_id), trace') /\
    writes trace' = writes trace.
Proof.
  unfold prepareRule, new_rule_row, chosen_rule_id, validated_targets.
  rewrite (bind_returned _ _ _ _ _ (normalizeRuleData_run ruleData trace)).
  destruct (normalizedFields_spec ruleData)
    as (_ & _ & _ & _ & _ & _ & _ & Htp & _ & Hid & Huid & _).
  cbv zeta in Htp, Hid, Huid. rewrite Htp.
  set (tps := default [] (RuleData.target_products ruleData)).
  set (keep := fun productId : string =>
         truthy_str (Some productId)
         && product_found (writer_catalog w) user_id productId).
  match goal with |- context [mbind _ _ ?t] => set (t1 := t) end.
  assert (Hw1 : writes t1 = writes trace) by (subst t1; now simpl_writes).
  assert (Hv : exists t2,
    (if Nat.ltb 0 (length tps) then
       validated ← validateProductIds (writer_catalog w) (Some tps) user_id;
       (if negb (Nat.eqb (length validated) (length tps)) then
          emit (EWarn "Some product IDs could not be validated" user_id)
        else mret tt) ≫= fun _ => mret validated
     else mret []) t1 = (Returned (List.filter keep tps), t2) /\
    writes t2 = writes trace).
  { destruct (Nat.ltb 0 (length tps)) eqn:Hlen.
    - destruct (validateProductIds_run (writer_catalog w) tps user_id t1)
        as (t2 & Hrun & Hw2).
      rewrite (bind_returned _ _ _ _ _ Hrun). fold keep.
      destruct (negb _).
      + eexists. split; [reflexivity|]. simpl_writes. congruence.
      + eexists. split; [reflexivity|]. congruence.
    - destruct tps; [|discriminate Hlen]. exists t1. split; [reflexivity | exact Hw1]. }
  destruct Hv as (t2 & Hrun2 & Hw2).
  rewrite (bind_returned _ _ _ _ _ Hrun2).
  eexists. split.
  - erewrite bind_returned by reflexivity. unfold mret, Eff_ret.
    cbn [without_target_products RuleData.id RuleData.user_id].
    rewrite Hid, Huid. do 4 f_equal.
    destruct (List.filter keep tps) as [|first rest] eqn:Hf; [reflexivity|].
    apply filter_head_holds in Hf. unfold keep in Hf.
    apply andb_true_iff in Hf as [Ht _]. now rewrite Ht.
  - simpl_writes. exact Hw2.
Qed.

Lemma insertRule_run (w : RuleWriter) (rule : RuleRow) (validated : list string)
    (trace : Trace) :
  let result id := {| created := true; updated := false; result_id := id |} in
  let outcome :=
    match insert_rule w rule with
    | QData id =>
      match validated with
      | [] => (Returned (result id), [EInsertRule (row_id rule) (row_user_id rule)])
      | _ :: _ =>
        (match insert_rule_products w id validated with
         | QRejected error => Thrown error
         | _ => Returned (result id)
         end,
         [EInsertRule (row_id rule) (row_user_id rule); EInsertRuleProducts id validated])
      end
    | QError error | QRejected error =>
      (Thrown error, [EInsertRule (row_id rule) (row_user_id rule)])
    end in
  fst (insertRule w rule validated trace) = fst outcome /\
  writes (snd (insertRule w rule validated trace)) =
    (writes trace ++ snd outcome)%list.
Proof.
  cbv zeta. unfold insertRule, mbind, Eff_bind, await_or_throw, await_pair, throw,
    emit, mret, Eff_ret.
  destruct (insert_rule w rule) as [id|error|error]; cbn [fst snd];
    [|split; [reflexivity | now simpl_writes]..].
  destruct validated as [|first rest]; cbn [length Nat.ltb Nat.leb fst snd].
  - split; [reflexivity | now simpl_writes].
  - destruct (insert_rule_products w id (first :: rest)) as [[]|error|error];
      cbn [fst snd]; (split; [reflexivity | now simpl_writes]).
Qed.

(** [createRule] runs to the outcome and the writes of [createRule_outcome]:
    the normalisation, the validation of the products and the duplicate
    search send nothing to the store, and the duplicate search finds
    nothing, the row it is given having no [target_products]. *)
Lemma createRule_run (w : RuleWriter) (uuid : string) (ruleData : RuleData.t)
    (user_id : string) (trace : Trace) :
  fst (createRule w uuid ruleData user_id trace) =
    fst (createRule_outcome w uuid ruleData user_id) /\
  writes (snd (createRule w uuid ruleData user_id trace)) =
    (writes trace ++ snd (createRule_outcome w uuid ruleData user_id))%list.
Proof.
  unfold createRule, createRule_outcome.
  set (rule := new_rule_row w uuid ruleData user_id).
  set (validated := validated_targets w ruleData user_id).
  set (t0 := (trace ++ [EInfo "Creating rule with data"
                          (default EmptyString (RuleData.name ruleData))])%list).
  destruct (prepareRule_run w uuid ruleData user_id t0) as (t1 & Hprep & Hw1).
  fold rule validated in Hprep.
  assert (Hw1' : writes t1 = writes trace) by (rewrite Hw1; subst t0; now simpl_writes).
  unfold try_catch. erewrite bind_returned by reflexivity. fold t0.
  rewrite (bind_returned _ _ _ _ _ Hprep). cbn [fst snd].
  destruct (validate_rule w rule) as [errors|].
  - unfold mbind, Eff_bind, emit, throw. cbn [fst snd].
    split; [reflexivity|]. simpl_writes. exact Hw1'.
  - destruct (findSimilarRule_without_targets (writer_index w) (rule_for_search rule)
                user_id t1 eq_refl) as (t2 & Hfind & Hw2).
    rewrite (bind_returned _ _ _ _ _ Hfind).
    pose proof (insertRule_run w rule validated t2) as [Hfst Hsnd].
    cbv zeta in Hfst, Hsnd.
    destruct (insertRule w rule validated t2) as [[result|error] t3];
      cbn [fst snd] in *.
    + split; [exact Hfst|]. now rewrite Hsnd, Hw2, Hw1'.
    + unfold mbind, Eff_bind, emit, throw. cbn [fst snd].
      split; [exact Hfst|]. simpl_writes. now rewrite Hsnd, Hw2, Hw1'.
Qed.

(** X24: when the schema rejects the rule, [createRule] throws
    [Invalid rule data: ...] with the schema's errors and has sent nothing
    to the store. *)
Theorem createRule_rejected (w : RuleWriter) (uuid : string) (ruleData : RuleData.t)
    (user_id : string) (trace : Trace) (errors : string) :
  validate_rule w (new_rule_row w uuid ruleData user_id) = Some errors ->
  fst (createRule w uuid ruleData user_id trace) =
    Thrown ("Invalid rule data: " ++ errors)%string /\
  writes (snd (createRule w uuid ruleData user_id trace)) = writes trace.
Proof.
  intros Hv. destruct (createRule_run w uuid ruleData user_id trace) as [Hfst Hsnd].
  unfold createRule_outcome in Hfst, Hsnd. rewrite Hv in Hfst, Hsnd.
  cbn [fst snd] in Hfst, Hsnd. split; [exact Hfst|]. now rewrite Hsnd, app_nil_r.
Qed.

Lemma createRule_rejected_witness :
  fst (createRule strict_writer "6f1c" duplicate_rule_data "u1" []) =
    Thrown "Invalid rule data: [id: Invalid uuid]" /\
  writes (snd (createRule strict_writer "6f1c" duplicate_rule_data "u1" [])) = writes [].
Proof.
  apply (createRule_rejected strict_writer "6f1c" duplicate_rule_data "u1" []
           "[id: Invalid uuid]").
  reflexivity.
Defined.

(** X25: a result that [createRule] returns is always
    [{created: true, updated: false}] with the id the store gave the new
    row: the schema accepted the rule, the insert of the rule was sent and
    answered, and the insert of the confirmed products followed when there
    were any.  The duplicate search never stops a creation, because the rule
    it is given has lost its [target_products]. *)
Theorem createRule_returns (w : RuleWriter) (uuid : string) (ruleData : RuleData.t)
    (user_id : string) (trace : Trace) (result : ActionResult) :
  fst (createRule w uuid ruleData user_id trace) = Returned result ->
  let rule := new_rule_row w uuid ruleData user_id in
  let validated := validated_targets w ruleData user_id in
  created result = true /\ updated result = false /\
  validate_rule w rule = None /\
  insert_rule w rule = QData (result_id result) /\
  writes (snd (createRule w uuid ruleData user_id trace)) =
    (writes trace ++
     EInsertRule (row_id rule) (row_user_id rule) ::
     match validated with
     | [] => []
     | _ :: _ => [EInsertRuleProducts (result_id result) validated]
     end)%list.
Proof.
  intros Hret. cbv zeta.
  destruct (createRule_run w uuid ruleData user_id trace) as [Hfst Hsnd].
  rewrite Hret in Hfst. rewrite Hsnd. clear Hsnd Hret.
  unfold createRule_outcome in *.
  destruct (validate_rule w (new_rule_row w uuid ruleData user_id)); [discriminate|].
  destruct (insert_rule w (new_rule_row w uuid ruleData user_id)) as [id|e|e];
    [|discriminate..].
  destruct (validated_targets w ruleData user_id) as [|first rest].
  - injection Hfst as ->. repeat split.
  - cbn [fst snd] in *.
    destruct (insert_rule_products w id (first :: rest)) as [[]|e|e]; try discriminate;
      injection Hfst as ->; repeat split.
Qed.

Lemma createRule_returns_witness :
  let rule := new_rule_row lenient_writer "6f1c" duplicate_rule_data "u1" in
  let validated := validated_targets lenient_writer duplicate_rule_data "u1" in
  created {| created := true; updated := false; result_id := "rule_P9" |} = true /\
  updated {| created := true; updated := false; result_id := "rule_P9" |} = false /\
  validate_rule lenient_writer rule = None /\
  insert_rule lenient_writer rule = QData "rule_P9" /\
  writes (snd (createRule lenient_writer "6f1c" duplicate_rule_data "u1" [])) =
    (writes [] ++
     EInsertRule (row_id rule) (row_user_id rule) ::
     match validated with
     | [] => []
     | _ :: _ => [EInsertRuleProducts "rule_P9" validated]
     end)%list.
Proof.
  apply (createRule_returns lenient_writer "6f1c" duplicate_rule_data "u1" []
           {| created := true; updated := false; result_id := "rule_P9" |}).
  vm_compute. reflexivity.
Defined.

(** X26: an error answer to the insert of the products does not undo the
    creation: once the schema accepts the rule and the store inserts it,
    [createRule] returns [created: true] although the products were not
    stored. *)
Theorem createRule_products_error (w : RuleWriter) (uuid : string)
    (ruleData : RuleData.t) (user_id : string) (trace : Trace)
    (id error : string) :
  validate_rule w (new_rule_row w uuid ruleData user_id) = None ->
  insert_rule w (new_rule_row w uuid ruleData user_id) = QData id ->
  insert_rule_products w id (validated_targets w ruleData user_id) = QError error ->
  fst (createRule w uuid ruleData user_id trace) =
  Returned {| created := true; updated := false; result_id := id |}.
Proof.
  intros Hv Hi Hp. destruct (createRule_run w uuid ruleData user_id trace) as [Hfst _].
  rewrite Hfst. unfold createRule_outcome. rewrite Hv, Hi, Hp.
  now destruct (validated_targets w ruleData user_id).
Qed.

Lemma createRule_products_error_witness :
  fst (createRule lenient_writer "6f1c" duplicate_rule_data "u1" []) =
  Returned {| created := true; updated := false; result_id := "rule_P9" |}.
Proof.
  apply (createRule_products_error lenient_writer "6f1c" duplicate_rule_data "u1" []
           "rule_P9" "foreign key violation"); reflexivity.
Defined.

(** X27: the rule object that [createRule] builds has no
    [target_products].  The rule data is spread over the id and the owner:
    an [id] or a [user_id] that the data carries is the rule's, in place of
    the chosen id and of the given owner.  Without an [id] in the data the
    id is [rule_] followed by the first target product that the product
    table confirms, unless that product is written as a UUID or no product
    is confirmed, when it is the fresh uuid.  Building the object sends
    nothing to the store. *)
Theorem prepareRule_spec (w : RuleWriter) (uuid : string) (ruleData : RuleData.t)
    (user_id : string) (trace : Trace) :
  exists rule validated,
    fst (prepareRule w uuid ruleData user_id trace) = Returned (rule, validated) /\
    validated = validated_targets w ruleData user_id /\
    RuleData.target_products (row_data rule) = None /\
    row_user_id rule = default user_id (RuleData.user_id ruleData) /\
    (forall id, RuleData.id ruleData = Some id -> row_id rule = id) /\
    (RuleData.id ruleData = None -> validated = [] -> row_id rule = uuid) /\
    (RuleData.id ruleData = None ->
     forall first rest, validated = first :: rest ->
       row_id rule = if isUuid first then uuid else ("rule_" ++ first)%string) /\
    writes (snd (prepareRule w uuid ruleData user_id trace)) = writes trace.
Proof.
  destruct (prepareRule_run w uuid ruleData user_id trace) as (t1 & Hrun & Hw).
  rewrite Hrun. cbn [fst snd].
  exists (new_rule_row w uuid ruleData user_id), (validated_targets w ruleData user_id).
  repeat split; try assumption.
  - intros id Hid. cbn. now rewrite Hid.
  - intros Hid Hv. cbn. rewrite Hid. unfold chosen_rule_id. now rewrite Hv.
  - intros Hid first rest Hv. cbn. rewrite Hid. unfold chosen_rule_id. rewrite Hv.
    assert (Hf : truthy_str (Some first) = true).
    { unfold validated_targets in Hv. apply filter_head_holds in Hv.
      now apply andb_true_iff in Hv as [Ht _]. }
    unfold isValidProductId. rewrite Hf. cbn [negb default from_option id].
    now destruct (isUuid first).
Qed.

Example prepareRule_data_with_id :
  fst (prepareRule lenient_writer "6f1c" legacy_rule_data "u1" []) =
  Returned ({| row_id := "r-legacy"; row_user_id := "u9";
               row_data := without_target_products (normalizedFields legacy_rule_data) |},
            ["P9"]).
Proof. vm_compute. reflexivity. Qed.

(** ** Campaign rows *)

(** X28: when the campaign query succeeds, [getActiveCampaigns] returns one
    campaign per row, in the order of the rows, with the trigger and upsell
    products the store's rpcs answer with; if either rpc of a campaign is
    rejected the campaign is returned with both lists empty, and such a
    campaign matches no cart. *)
Theorem getActiveCampaigns_rows (supabase : Supabase) (user_id : string)
    (rows : list Campaign.t) (entries : Log) :
  select_campaigns supabase user_id = QData rows ->
  fst (getActiveCampaigns supabase user_id entries) =
    Returned (map (fetched_campaign supabase) rows) /\
  (forall row cartItems timeContext,
     rejected (get_campaign_trigger_products supabase (Campaign.id row)) = true \/
     rejected (get_campaign_upsell_products supabase (Campaign.id row)) = true ->
     evaluateCampaigns [fetched_campaign supabase row] cartItems timeContext = []).
Proof.
  intros Hq. split.
  - unfold getActiveCampaigns. rewrite Hq.
    match goal with
    | |- context [mapAll ?f] =>
      destruct (mapAll_pure f (fetched_campaign supabase) rows)
        with (s := entries) as (entries' & Hmap)
    end.
    { intros row s. unfold try_catch, mbind, Eff_bind, mret, Eff_ret,
        await_data_or_empty, throw, log, fetched_campaign, rejected, data_or_empty.
      destruct (get_campaign_trigger_products supabase (Campaign.id row));
        destruct (get_campaign_upsell_products supabase (Campaign.id row)); eauto. }
    erewrite try_catch_returned; [reflexivity|].
    erewrite bind_returned; [exact Hmap | reflexivity].
  - intros row cart tc Hrej. unfold fetched_campaign.
    assert (Hor : rejected (get_campaign_trigger_products supabase (Campaign.id row))
                  || rejected (get_campaign_upsell_products supabase (Campaign.id row))
                  = true).
    { apply orb_true_iff. exact Hrej. }
    rewrite Hor. reflexivity.
Qed.

Lemma getActiveCampaigns_rows_witness :
  fst (getActiveCampaigns
         {| select_rules := fun _ => QData [];
            get_rule_target_products := fun _ => QData [];
            select_campaigns := fun _ => QData [flash_campaign];
            get_campaign_trigger_products := fun _ => QData ["P1"];
            get_campaign_upsell_products := fun _ => QRejected "timeout";
            insert_evaluation := fun _ _ => QData tt |} "u1" []) =
  Returned [with_products flash_campaign [] []].
Proof.
  refine (proj1 (getActiveCampaigns_rows _ "u1" [flash_campaign] [] _)).
  reflexivity.
Defined.
